(** * A shallow embedding of the Edge gateway's dispatch and transport core

    The development follows the TypeScript sources:
    - [api/_shared/config.ts]    : header allow/deny lists, path tables, ENV;
    - [api/_shared/utils.ts]     : path and header sanitizers, routing decision;
    - [api/_shared/middleware.ts]: retrying fetch, size-limited stream,
                                   response header processing;
    - [api/_shared/errors.ts]    : error classification and error responses;
    - [api/gateway.ts]           : the Edge handler, the Background forwarder
                                   and the fallback to Edge;
    - [api/_shared/logger.ts]    : the level filter of the logger;
    - [api/background.ts]        : the Background function.

    Conventions of the model.
    - JS strings are [string]s; header names and URL paths are ASCII.
    - A [Headers] object is a finite map keyed by the lower-cased name.
    - JS numbers that hold counts, sizes and milliseconds are [Z]; the
      back-off delay, which multiplies by [0.3] and by [Math.random()], is
      computed over [Q] (exact arithmetic, rounding is not modelled).
    - [fetch], [Math.random] and the clock are inputs of the model (oracles);
      the calls the code makes to them are recorded in a trace.

    Limits of the model.
    - A JS object used as a table ([PROXIES]) is the finite map of its own
      properties: a look-up under a name every object inherits
      ([OBJECT_PROTOTYPE_KEYS]) is outside the model, and so is the order
      in which [Object.keys] lists the keys.
    - [new Response] is total: the range check on the status (200 to 599)
      and the null-body statuses are not modelled.
    - [parseInt] is exact over [Z] (a double is, up to 2^53), and
      [toLowerCase] lowers the letters A to Z only. *)

From stdpp Require Import gmap strings list.
From stdpp Require Import pretty.
From Stdlib Require Import ZArith QArith Qminmax Lia Lqa Ascii String.
From Equations Require Import Equations.

#[local] Set Warnings "-clear-no-such-hyp".

Open Scope string_scope.
Open Scope Z_scope.

(** ** JS string primitives *)

Module Js.

(** [c.toLowerCase()] on one ASCII character. *)
Definition lowerAscii (c : ascii) : ascii :=
  let n := nat_of_ascii c in
  if ((65 <=? n)%nat && (n <=? 90)%nat)%bool
  then ascii_of_nat (n + 32) else c.

(** [s.toLowerCase()]. *)
Fixpoint toLowerCase (s : string) : string :=
  match s with
  | EmptyString => EmptyString
  | String c r => String (lowerAscii c) (toLowerCase r)
  end.

(** [s.startsWith(p)]. *)
Definition startsWith (s p : string) : bool := String.prefix p s.

(** [s.includes(sub)]. *)
Fixpoint includes (s sub : string) : bool :=
  String.prefix sub s ||
  match s with
  | EmptyString => false
  | String _ r => includes r sub
  end.

(** [s.includes(c)] for one character. *)
Fixpoint hasChar (c : ascii) (s : string) : bool :=
  match s with
  | EmptyString => false
  | String a r => Ascii.eqb a c || hasChar c r
  end.

(** [parts.join(sep)]. *)
Fixpoint join (sep : string) (parts : list string) : string :=
  match parts with
  | [] => ""
  | [p] => p
  | p :: rest => p ++ sep ++ join sep rest
  end.

(** [s.split(c)] for a one-character separator: the current piece is
    accumulated in [cur] until a separator or the end. *)
Fixpoint splitAux (c : ascii) (cur : string) (s : string) : list string :=
  match s with
  | EmptyString => [cur]
  | String a r =>
      if Ascii.eqb a c then cur :: splitAux c "" r
      else splitAux c (cur ++ String a "") r
  end.

Definition split (c : ascii) (s : string) : list string := splitAux c "" s.

Definition isSpace (c : ascii) : bool :=
  bool_decide (nat_of_ascii c ∈ [32; 9; 10; 11; 12; 13]%nat).

Fixpoint trimStart (s : string) : string :=
  match s with
  | String c r => if isSpace c then trimStart r else s
  | EmptyString => s
  end.

Fixpoint trimEnd (s : string) : string :=
  match s with
  | EmptyString => EmptyString
  | String c r =>
      match trimEnd r with
      | EmptyString => if isSpace c then EmptyString else String c ""
      | r' => String c r'
      end
  end.

(** [s.trim()], for ASCII white space. *)
Definition trim (s : string) : string := trimEnd (trimStart s).

(** [Boolean(s)] for a string: the empty string is falsy. *)
Definition truthy (s : string) : bool :=
  match s with EmptyString => false | _ => true end.

End Js.

(** ** [api/_shared/config.ts] *)

Definition ALLOWED_REQUEST_HEADERS : gset string :=
  list_to_set
    [ "content-type"; "content-length"; "accept"; "accept-encoding";
      "accept-language"; "authorization"; "user-agent"; "referer"; "origin";
      "x-api-key"; "x-goog-api-key"; "api-key";
      "anthropic-version"; "anthropic-beta"; "openai-beta";
      "openai-organization";
      "x-stainless-arch"; "x-stainless-lang"; "x-stainless-os";
      "x-stainless-package-version"; "x-stainless-runtime";
      "x-stainless-runtime-version" ].

Definition BLOCKED_REQUEST_HEADERS : gset string :=
  list_to_set
    [ "host"; "connection"; "cf-connecting-ip"; "cf-ray";
      "x-forwarded-for"; "x-real-ip"; "cookie"; "set-cookie" ].

Definition LONG_RUNNING_PATHS : list string :=
  [ "/v1/audio/transcriptions"; "/v1/audio/translations";
    "/v1/images/generations"; "/v1/images/edits"; "/v1/images/variations";
    "/v1/embeddings"; "/v1/fine-tunes"; "/v1/fine_tuning/jobs";
    "/v1/files"; "/v1/batches" ].

Definition STREAMING_PATHS : list string :=
  [ "/v1/chat/completions"; "/v1/completions"; "/v1/messages";
    "/v1/realtime"; "/v1/engines"; "/v1/responses" ].

(** The [ENV] object: the fields the gateway reads. *)
Record Env := {
  ALLOWED_ORIGIN : string;
  DEFAULT_TIMEOUT : Z;
  BACKGROUND_TIMEOUT : Z;
  MAX_RESPONSE_SIZE : Z;
  ENABLE_RETRY : bool;
  ENABLE_FALLBACK : bool;
}.

(** The values [ENV] takes when no environment variable is set. *)
Definition defaultEnv : Env := {|
  ALLOWED_ORIGIN := "*";
  DEFAULT_TIMEOUT := 20000;
  BACKGROUND_TIMEOUT := 240000;
  MAX_RESPONSE_SIZE := 6291456;
  ENABLE_RETRY := true;
  ENABLE_FALLBACK := true;
|}.

(** ** [api/_shared/types.ts] *)

(** [ProxyConfig]: every field but [host] is optional. *)
Record ProxyConfig := {
  host : string;
  basePath : option string;
  timeout : option Z;
  maxRetries : option Z;
  maxResponseSize : option Z;
  retryableMethods : option (list string);
  defaultHeaders : option (list (string * string));
  supportsStreaming : option bool;
  allowFallback : option bool;
  retryable : option bool;
}.

(** A profile that declares [host] only. *)
Definition bareProxy (h : string) : ProxyConfig := {|
  host := h; basePath := None; timeout := None; maxRetries := None;
  maxResponseSize := None; retryableMethods := None; defaultHeaders := None;
  supportsStreaming := None; allowFallback := None; retryable := None;
|}.

(** The shapes of the entries of [BUILTIN_PROXIES]. *)
Definition builtin (host : string) (basePath : option string)
    (retryable : option bool) (retryableMethods : option (list string))
    : ProxyConfig :=
  {| host := host; basePath := basePath; timeout := None; maxRetries := None;
     maxResponseSize := None; retryableMethods := retryableMethods;
     defaultHeaders := None; supportsStreaming := None; allowFallback := None;
     retryable := retryable |}.

Definition withDefaultHeaders (d : list (string * string)) (p : ProxyConfig)
    : ProxyConfig :=
  {| host := host p; basePath := basePath p; timeout := timeout p;
     maxRetries := maxRetries p; maxResponseSize := maxResponseSize p;
     retryableMethods := retryableMethods p; defaultHeaders := Some d;
     supportsStreaming := supportsStreaming p;
     allowFallback := allowFallback p; retryable := retryable p |}.

Definition withLimits (timeout maxResponseSize : Z) (p : ProxyConfig)
    : ProxyConfig :=
  {| host := host p; basePath := basePath p; timeout := Some timeout;
     maxRetries := maxRetries p; maxResponseSize := Some maxResponseSize;
     retryableMethods := retryableMethods p;
     defaultHeaders := defaultHeaders p;
     supportsStreaming := supportsStreaming p;
     allowFallback := allowFallback p; retryable := retryable p |}.

Definition COMMON_METHODS : list string := ["GET"; "HEAD"; "OPTIONS"; "POST"].

(** [BUILTIN_PROXIES], entry by entry. *)
Definition BUILTIN_PROXIES : gmap string ProxyConfig :=
  list_to_map [
    ("azure",
     builtin "models.inference.ai.azure.com" None (Some true)
       (Some ["GET"; "HEAD"; "OPTIONS"; "POST"; "PUT"]));
    ("cerebras",
     builtin "api.cerebras.ai" None (Some true)
       (Some COMMON_METHODS));
    ("chutes",
     builtin "llm.chutes.ai" None (Some true)
       (Some COMMON_METHODS));
    ("claude",
     withDefaultHeaders [("anthropic-version", "2023-06-01")]
       (builtin "api.anthropic.com" None (Some true)
       (Some COMMON_METHODS)));
    ("cohere",
     builtin "api.cohere.ai" None (Some true)
       (Some COMMON_METHODS));
    ("discord",
     builtin "discord.com" (Some "api") None
       None);
    ("dmxcn",
     builtin "www.dmxapi.cn" None None
       None);
    ("dmxcom",
     builtin "www.dmxapi.com" None None
       None);
    ("fireworks",
     builtin "api.fireworks.ai" (Some "inference") (Some true)
       (Some COMMON_METHODS));
    ("friendli",
     builtin "api.friendli.ai" (Some "serverless") (Some true)
       (Some COMMON_METHODS));
    ("gemini",
     builtin "generativelanguage.googleapis.com" None (Some true)
       (Some COMMON_METHODS));
    ("github",
     withDefaultHeaders [("Accept", "application/vnd.github+json")]
       (builtin "models.github.ai" None (Some true)
       (Some COMMON_METHODS)));
    ("gmi",
     builtin "api.gmi-serving.com" None (Some true)
       (Some COMMON_METHODS));
    ("groq",
     builtin "api.groq.com" (Some "openai") (Some true)
       (Some COMMON_METHODS));
    ("huggingface",
     builtin "api-inference.huggingface.co" None (Some true)
       (Some COMMON_METHODS));
    ("meta",
     builtin "www.meta.ai" (Some "api") (Some true)
       (Some COMMON_METHODS));
    ("modelscope",
     builtin "api-inference.modelscope.cn" None (Some true)
       (Some COMMON_METHODS));
    ("novita",
     builtin "api.novita.ai" None (Some true)
       (Some COMMON_METHODS));
    ("openai",
     withLimits 120000 10485760
       (builtin "api.openai.com" None (Some true)
       (Some COMMON_METHODS)));
    ("openrouter",
     builtin "openrouter.ai" (Some "api") (Some true)
       (Some COMMON_METHODS));
    ("poe",
     builtin "api.poe.com" None (Some true)
       (Some COMMON_METHODS));
    ("portkey",
     builtin "api.portkey.ai" None (Some true)
       (Some COMMON_METHODS));
    ("pplx",
     builtin "api.perplexity.ai" None (Some true)
       (Some COMMON_METHODS));
    ("siliconflow",
     builtin "api.siliconflow.cn" None (Some true)
       (Some COMMON_METHODS));
    ("targon",
     builtin "api.targon.com" None (Some true)
       (Some COMMON_METHODS));
    ("telegram",
     builtin "api.telegram.org" None (Some true)
       (Some COMMON_METHODS));
    ("together",
     builtin "api.together.xyz" None (Some true)
       (Some COMMON_METHODS));
    ("xai",
     builtin "api.x.ai" None (Some true)
       (Some COMMON_METHODS));
    ("httpbin",
     builtin "httpbin.org" None (Some true)
       None) ].

(** A [Headers] object: names are stored lower-cased. *)
Abbreviation Headers := (gmap string string).

Definition headersSet (name value : string) (h : Headers) : Headers :=
  <[Js.toLowerCase name := value]> h.

Definition headersGet (name : string) (h : Headers) : option string :=
  h !! Js.toLowerCase name.

Definition headersHas (name : string) (h : Headers) : bool :=
  bool_decide (is_Some (h !! Js.toLowerCase name)).

Definition headersDelete (name : string) (h : Headers) : Headers :=
  delete (Js.toLowerCase name) h.

(** [for (const [k, v] of entries) h.set(k, v)], optionally filtered. *)
Definition headersSetAll (keep : string -> bool)
    (entries : list (string * string)) (h : Headers) : Headers :=
  foldl (fun acc kv => if keep kv.1 then headersSet kv.1 kv.2 acc else acc)
        h entries.

(** ** [api/_shared/utils.ts]: the header sanitizer *)

Section HeaderFilter.
Variables (blocked allowed : gset string).

(** The body of [isAllowedHeader], for given deny and allow lists. *)
Definition headerAllowedBy (headerName : string) : bool :=
  let lower := Js.toLowerCase headerName in
  if bool_decide (lower ∈ blocked) then false
  else if bool_decide (lower ∈ allowed) then true
  else Js.startsWith lower "x-"
       && negb (Js.startsWith lower "x-forwarded")
       && negb (Js.startsWith lower "x-real").
End HeaderFilter.

Definition isAllowedHeader : string -> bool :=
  headerAllowedBy BLOCKED_REQUEST_HEADERS ALLOWED_REQUEST_HEADERS.

Definition DEFAULT_USER_AGENT : string :=
  "Mozilla/5.0 (compatible; API Gateway/1.0)".

Definition buildForwardHeaders
    (clientHeaders : Headers) (proxy : ProxyConfig) : Headers :=
  let h0 : Headers := ∅ in
  let h1 := match defaultHeaders proxy with
            | Some d => headersSetAll (fun _ => true) d h0
            | None => h0
            end in
  let h2 := headersSetAll isAllowedHeader (map_to_list clientHeaders) h1 in
  let h3 := if headersHas "user-agent" h2 then h2
            else headersSet "User-Agent" DEFAULT_USER_AGENT h2 in
  headersDelete "connection" (headersDelete "host" h3).

(** ** [api/_shared/utils.ts]: paths and URLs *)

Module Uri.

(** Characters [encodeURIComponent] leaves alone:
    [A-Z a-z 0-9 - _ . ! ~ * ' ( )]. *)
Definition unreserved (c : ascii) : bool :=
  let n := nat_of_ascii c in
  ((65 <=? n) && (n <=? 90) || (97 <=? n) && (n <=? 122)
   || (48 <=? n) && (n <=? 57)
   || bool_decide (n ∈ [45; 95; 46; 33; 126; 42; 39; 40; 41]))%nat%bool.

Definition hexDigit (n : nat) : ascii :=
  if (n <? 10)%nat then ascii_of_nat (48 + n) else ascii_of_nat (55 + n).

(** [%XX], upper-case hexadecimal. *)
Definition escape (c : ascii) : string :=
  let n := nat_of_ascii c in
  String "%" (String (hexDigit (n / 16)) (String (hexDigit (n mod 16)) "")).

(** [encodeURIComponent(s)] on a string of bytes. *)
Fixpoint encodeURIComponent (s : string) : string :=
  match s with
  | EmptyString => EmptyString
  | String c r =>
      if unreserved c then String c (encodeURIComponent r)
      else escape c ++ encodeURIComponent r
  end.

(** [s.replace(/%3A/gi, ':')]. *)
Fixpoint restoreColons (s : string) : string :=
  match s with
  | String "%" (String "3" (String "A" r)) => String ":" (restoreColons r)
  | String "%" (String "3" (String "a" r)) => String ":" (restoreColons r)
  | String c r => String c (restoreColons r)
  | EmptyString => EmptyString
  end.

End Uri.

(** The predicate of the [filter] in [sanitizePath]. *)
Definition keepSegment (seg : string) : bool :=
  Js.truthy seg && negb (String.eqb seg ".") && negb (String.eqb seg "..").

(** The function of the [map] in [sanitizePath]. *)
Definition encodeSegment (seg : string) : string :=
  Js.join "/"
    (map (fun s => Uri.restoreColons (Uri.encodeURIComponent s))
         (Js.split "/" seg)).

Definition sanitizePath (parts : list string) : string :=
  Js.join "/" (map encodeSegment (List.filter keepSegment parts)).

(** [s.replace(/^\/|\/$/g, '')]: one leading and one trailing slash go. *)
Fixpoint dropTrailingSlash (s : string) : string :=
  match s with
  | EmptyString => EmptyString
  | String "/" EmptyString => EmptyString
  | String c r => String c (dropTrailingSlash r)
  end.

Definition stripSlashes (s : string) : string :=
  match s with
  | String "/" r => dropTrailingSlash r
  | _ => dropTrailingSlash s
  end.

Definition buildUpstreamURL
    (host : string) (basePath : option string) (userPath search : string)
    : string :=
  let cleanBase := match basePath with
                   | Some b => stripSlashes b
                   | None => ""
                   end in
  let cleanUser := stripSlashes userPath in
  let fullPath := Js.join "/" (List.filter Js.truthy [cleanBase; cleanUser]) in
  "https://" ++ host
    ++ (if Js.truthy fullPath then "/" ++ fullPath else "") ++ search.

(** [s.replace(pat, '')] with a string pattern: the first occurrence goes. *)
Fixpoint removeFirst (pat s : string) : string :=
  if String.prefix pat s
  then String.substring (String.length pat)
                        (String.length s - String.length pat) s
  else match s with
       | EmptyString => EmptyString
       | String c r => String c (removeFirst pat r)
       end.

(** [pathname.split('/').filter(Boolean)]. *)
Definition pathSegments (pathname : string) : list string :=
  List.filter Js.truthy (Js.split "/" pathname).

(** ** Requests *)

(** A parsed JSON value, as [await req.json()] yields it. An object lists
    each of its keys once. *)
#[warnings="-register-all"]
Inductive Json :=
| JNull
| JBool (b : bool)
| JNumber (n : Q)
| JString (s : string)
| JArray (items : list Json)
| JObject (fields : list (string * Json)).

(** [v.stream === true]. Reading a property of [null] throws (the [inl]);
    numbers, strings, booleans and arrays have no [stream] property. *)
Definition streamIsTrue (v : Json) : unit + bool :=
  match v with
  | JNull => inl tt
  | JObject fields =>
      match List.find (fun kv => String.eqb kv.1 "stream") fields with
      | Some (_, JBool true) => inr true
      | _ => inr false
      end
  | _ => inr false
  end.

(** The body of an inbound request: its length in bytes and what [.json()]
    on a clone resolves to, [None] when it rejects. *)
Record RequestBody := {
  bodyLength : Z;
  bodyJson : option Json;
}.

(** An inbound [Request]: [origin] (protocol, [//], host), [pathname],
    [search] and [searchParams] are the parts of [new URL(req.url)]. *)
Record Request := {
  method : string;
  origin : string;
  pathname : string;
  search : string;
  searchParams : list (string * string);
  headers : Headers;
  body : option RequestBody;
}.

(** [searchParams.get(name)]: the first value under that name. *)
Definition searchParamsGet (name : string) (ps : list (string * string))
    : option string :=
  snd <$> List.find (fun kv => String.eqb kv.1 name) ps.

Record RequestContext := {
  reqId : string;
  service : string;
  ctxMethod : string;
  path : string;
  ip : string;
}.

(** [parseInt(s)]: leading white space, a sign, [0x] for base 16, then the
    longest run of digits; [None] stands for [NaN]. *)
Module ParseInt.

Definition digitValue (c : ascii) : option Z :=
  let n := Z.of_nat (nat_of_ascii c) in
  if (48 <=? n) && (n <=? 57) then Some (n - 48)
  else if (97 <=? n) && (n <=? 122) then Some (n - 87)
  else if (65 <=? n) && (n <=? 90) then Some (n - 55)
  else None.

Fixpoint digits (radix : Z) (acc : option Z) (s : string) : option Z :=
  match s with
  | EmptyString => acc
  | String c r =>
      match digitValue c with
      | Some d =>
          if d <? radix
          then digits radix (Some (radix * default 0 acc + d)) r
          else acc
      | None => acc
      end
  end.

Definition unsigned (s : string) : option Z :=
  match s with
  | String "0" (String "x" r) => digits 16 None r
  | String "0" (String "X" r) => digits 16 None r
  | _ => digits 10 None s
  end.

Definition parseInt (s : string) : option Z :=
  match Js.trimStart s with
  | String "-" r => Z.opp <$> unsigned r
  | String "+" r => unsigned r
  | r => unsigned r
  end.

End ParseInt.

(** ** [api/_shared/utils.ts]: the routing decision *)

Definition isStreamingPath (pathname : string) : bool :=
  existsb (fun p => Js.includes pathname p) STREAMING_PATHS.

Definition isStreamingRequest (req : Request) : bool :=
  if bool_decide (searchParamsGet "stream" (searchParams req) = Some "true")
  then true
  else
    if match headersGet "accept" (headers req) with
       | Some accept => Js.includes accept "text/event-stream"
       | None => false
       end
    then true
    else
      if negb (isStreamingPath (pathname req)) then false
      else
        if String.eqb (method req) "POST" then
          match body req with
          | Some b =>
              match headersGet "content-type" (headers req) with
              | Some contentType =>
                  if Js.includes contentType "application/json" then
                    match bodyJson b with
                    | Some v =>
                        match streamIsTrue v with
                        | inr r => r
                        | inl _ => false
                        end
                    | None => false
                    end
                  else false
              | None => false
              end
          | None => false
          end
        else false.

Inductive Reason :=
| MethodSuitableForEdge
| StreamingRequest
| LongRunningAPI
| LargeRequestBody (size : Z)
| OpenAIEmbeddingsAPI
| DefaultToEdge.

Record ForwardDecision := {
  shouldForward : bool;
  reason : Reason;
  estimatedDuration : option Z;
}.

Definition shouldForwardToBackground
    (req : Request) (proxy : ProxyConfig) (context : RequestContext)
    : ForwardDecision :=
  if bool_decide (method req ∈ ["GET"; "HEAD"; "OPTIONS"]) then
    {| shouldForward := false; reason := MethodSuitableForEdge;
       estimatedDuration := None |}
  else if isStreamingRequest req then
    {| shouldForward := false; reason := StreamingRequest;
       estimatedDuration := None |}
  else if existsb (fun p => Js.includes (pathname req) p) LONG_RUNNING_PATHS
  then
    {| shouldForward := true; reason := LongRunningAPI;
       estimatedDuration := Some 60000 |}
  else
    let large :=
      match headersGet "content-length" (headers req) with
      | Some contentLength =>
          if Js.truthy contentLength then
            match ParseInt.parseInt contentLength with
            | Some size => if 1048576 <? size then Some size else None
            | None => None
            end
          else None
      | None => None
      end in
    match large with
    | Some size =>
        {| shouldForward := true; reason := LargeRequestBody size;
           estimatedDuration := Some 30000 |}
    | None =>
        if String.eqb (service context) "openai"
           && Js.includes (pathname req) "/v1/embeddings"
        then {| shouldForward := true; reason := OpenAIEmbeddingsAPI;
                estimatedDuration := Some 20000 |}
        else {| shouldForward := false; reason := DefaultToEdge;
                estimatedDuration := None |}
    end.

(** ** Errors, responses and effects *)

(** A JS [Error]: its [name] and its [message]. *)
Record JsError := { name : string; message : string }.

Abbreviation Chunk := (list Byte.byte).

Definition byteLength (chunk : Chunk) : Z := Z.of_nat (List.length chunk).

(** The JSON document [createSizeLimitedStream] errors the stream with; its
    [type] is [response_size_exceeded] and its [code] is 413, the message is
    made of [totalBytes] and [maxSize]. *)
Record SizeLimitError := {
  seenBytes : Z;
  limitBytes : Z;
  request_id : string;
}.

Record ByteStream := {
  emitted : list Chunk;
  failure : option SizeLimitError;
}.

Inductive ErrorType :=
| TIMEOUT | NETWORK | DNS | CONNECTION | SSL | SIZE_LIMIT | UNKNOWN.

Record ErrorInfo := {
  errType : ErrorType;
  errStatus : Z;
  errMessage : string;
}.

(** The [detail] argument of [createErrorResponse]. *)
Inductive Detail :=
| NoDetail
| Services (availableServices : list string) (example : option string)
| TypeOf (type : ErrorType).

(** Messages of error responses; [ResponseSize] is the template
    [Response size (..MB) exceeds limit (..MB)] with its two numbers. *)
Inductive Message :=
| Text (s : string)
| ResponseSize (bytes maxSize : Z).

Inductive Body :=
| BodyNull
| BodyBytes (s : ByteStream)
| BodyErrorJson (status : Z) (msg : Message) (reqId : string) (detail : Detail)
| BodyHealthJson.

(** What [fetch] resolves to. *)
Record Fetched := {
  status : Z;
  statusText : string;
  fetchedHeaders : Headers;
  fetchedBody : option (list Chunk);
}.

(** What the gateway answers. *)
Record Response := {
  respStatus : Z;
  respStatusText : string;
  respHeaders : Headers;
  respBody : Body;
}.

(** An outbound request; [deadline] is the delay of the timer that aborts
    its signal, [carriesBody] whether a body is attached. *)
Record Outbound := {
  url : string;
  outMethod : string;
  outHeaders : Headers;
  carriesBody : bool;
  deadline : Z;
}.

(** The calls a run makes, in order. *)
Inductive Effect :=
| FetchUpstream (r : Outbound)
| FetchBackground (r : Outbound)
| Sleep (delay : Q).

(** A run: the effects performed, then an exception or a value. *)
Definition Run (A : Type) : Type := list Effect * (JsError + A).

Definition ret {A} (a : A) : Run A := ([], inr a).
Definition throw {A} (e : JsError) : Run A := ([], inl e).
Definition perform (ev : Effect) : Run unit := ([ev], inr tt).

Definition bind {A B} (m : Run A) (k : A -> Run B) : Run B :=
  match m with
  | (t, inl e) => (t, inl e)
  | (t, inr a) => let '(t', r) := k a in ((t ++ t')%list, r)
  end.

(** [try { m } catch (e) { h e }]. *)
Definition tryCatch {A} (m : Run A) (h : JsError -> Run A) : Run A :=
  match m with
  | (t, inl e) => let '(t', r) := h e in ((t ++ t')%list, r)
  | (t, inr a) => (t, inr a)
  end.

(** [await p] for a promise settled as [o]. *)
Definition settle {A} (o : JsError + A) : Run A := ([], o).

#[global] Instance run_ret : MRet Run := @ret.
#[global] Instance run_bind : MBind Run := fun A B k m => bind m k.

Definition trace {A} (m : Run A) : list Effect := m.1.
Definition outcome {A} (m : Run A) : JsError + A := m.2.

(** [a || b] on numbers: [0] and [undefined] are falsy. *)
Definition orZ (a : option Z) (b : Z) : Z :=
  match a with
  | Some 0 | None => b
  | Some v => v
  end.

(** [a || b] on strings: [""] and [null] are falsy. *)
Definition orString (a : option string) (b : string) : string :=
  match a with
  | Some s => if Js.truthy s then s else b
  | None => b
  end.

(** ** [api/_shared/errors.ts] *)

Definition categorizeError (error : JsError) : ErrorInfo :=
  let msg := Js.toLowerCase (message error) in
  if String.eqb (name error) "AbortError" || Js.includes msg "timeout" then
    {| errType := TIMEOUT; errStatus := 504;
       errMessage := "请求超时 - 上游服务响应时间过长" |}
  else if Js.includes msg "network" || Js.includes msg "fetch failed" then
    {| errType := NETWORK; errStatus := 502;
       errMessage := "网络错误 - 无法连接到上游服务" |}
  else if Js.includes msg "dns" || Js.includes msg "getaddrinfo" then
    {| errType := DNS; errStatus := 502;
       errMessage := "DNS 解析失败 - 无法解析上游主机" |}
  else if Js.includes msg "connection refused"
          || Js.includes msg "econnrefused" then
    {| errType := CONNECTION; errStatus := 503;
       errMessage := "连接被拒绝 - 上游服务不可用" |}
  else if Js.includes msg "ssl" || Js.includes msg "tls"
          || Js.includes msg "certificate" then
    {| errType := SSL; errStatus := 502;
       errMessage := "SSL/TLS 错误 - 证书验证失败" |}
  else if Js.includes msg "size" || Js.includes msg "413" then
    {| errType := SIZE_LIMIT; errStatus := 413;
       errMessage := "响应大小超过限制" |}
  else
    {| errType := UNKNOWN; errStatus := 500;
       errMessage := "未知错误: " ++ message error |}.

(** ** [api/_shared/middleware.ts]: [createSizeLimitedStream] *)

(** The two variables the transformer closes over. *)
Record StreamBudget := {
  totalBytes : Z;
  aborted : bool;
}.

Definition freshBudget : StreamBudget := {| totalBytes := 0; aborted := false |}.

(** The calls [transform] makes on its controller. *)
Inductive ControllerCall :=
| Enqueue (chunk : Chunk)
| Error (e : SizeLimitError).

(** [transform(chunk, controller)]: the new values of the closed-over
    variables and the calls made. *)
Definition transform (maxSize : Z) (reqId : string)
    (st : StreamBudget) (chunk : Chunk) : StreamBudget * list ControllerCall :=
  if aborted st then (st, [])
  else
    let total := totalBytes st + byteLength chunk in
    if maxSize <? total then
      ({| totalBytes := total; aborted := true |},
       [Error {| seenBytes := total; limitBytes := maxSize;
                 request_id := reqId |}])
    else
      ({| totalBytes := total; aborted := false |}, [Enqueue chunk]).

(** The transformer fed the chunks of a body, one after the other. *)
Fixpoint feed (maxSize : Z) (reqId : string)
    (st : StreamBudget) (chunks : list Chunk)
    : StreamBudget * list ControllerCall :=
  match chunks with
  | [] => (st, [])
  | chunk :: rest =>
      let '(st1, calls1) := transform maxSize reqId st chunk in
      let '(st2, calls2) := feed maxSize reqId st1 rest in
      (st2, (calls1 ++ calls2)%list)
  end.

Definition createSizeLimitedStream (maxSize : Z) (reqId : string)
    (chunks : list Chunk) : list ControllerCall :=
  (feed maxSize reqId freshBudget chunks).2.

(** The readable side: the chunks enqueued before the stream is errored. *)
Fixpoint readable (calls : list ControllerCall) : ByteStream :=
  match calls with
  | [] => {| emitted := []; failure := None |}
  | Enqueue chunk :: rest =>
      let s := readable rest in
      {| emitted := chunk :: emitted s; failure := failure s |}
  | Error e :: _ => {| emitted := []; failure := Some e |}
  end.

(** [body.pipeThrough(createSizeLimitedStream(maxSize, reqId))]. *)
Definition pipeThrough (maxSize : Z) (reqId : string) (chunks : list Chunk)
    : ByteStream :=
  readable (createSizeLimitedStream maxSize reqId chunks).

(** [Response] headers that [processResponseHeaders] does not copy. *)
Definition EXCLUDE_HEADERS : gset string :=
  list_to_set
    [ "content-encoding"; "transfer-encoding"; "connection"; "keep-alive";
      "server"; "x-powered-by"; "cf-ray"; "cf-cache-status" ].

Inductive Mode := edge | backgroundMode.

Definition modeTag (m : Mode) : string :=
  match m with edge => "edge" | backgroundMode => "background" end.

Definition CORS_METHODS : string :=
  "GET, POST, PUT, DELETE, OPTIONS, PATCH, HEAD".

Section Gateway.

(** Process-wide configuration, and the oracles of one request: the
    outcome of the upstream fetch of each attempt, of the fetch to the
    Background function, the values of [Math.random()] per attempt, the
    rendering of the elapsed time and a fresh UUID. *)
Variable ENV : Env.
Variable PROXIES : gmap string ProxyConfig.
Variable upstream : Z -> JsError + Fetched.
Variable background : JsError + Fetched.
Variable random : Z -> Q.
Variable processingTime : string.
Variable randomUUID : string.

(** [JSON.stringify({ serviceAlias, proxyConfig })]. *)
Variable stringifyServiceConfig : string -> ProxyConfig -> string.

(** *** [api/_shared/errors.ts]: [createErrorResponse] *)

Definition createErrorResponse
    (status : Z) (msg : Message) (reqId : string) (detail : Detail)
    : Response :=
  {| respStatus := status;
     respStatusText := "";
     respHeaders :=
       headersSet "Cache-Control" "no-cache, no-store, must-revalidate"
       (headersSet "Access-Control-Allow-Headers" "*"
       (headersSet "Access-Control-Allow-Methods" CORS_METHODS
       (headersSet "Access-Control-Allow-Origin" (ALLOWED_ORIGIN ENV)
       (headersSet "X-Request-Id" reqId
       (headersSet "Content-Type" "application/json; charset=utf-8" ∅)))));
     respBody := BodyErrorJson status msg reqId detail |}.

(** *** [api/_shared/utils.ts]: request id and CORS headers *)

Definition getRequestId (h : Headers) : string :=
  orString (headersGet "x-request-id" h)
    (orString (headersGet "x-correlation-id" h)
       (orString (headersGet "x-trace-id" h) randomUUID)).

Definition getClientIp (h : Headers) : string :=
  orString (headersGet "cf-connecting-ip" h)
    (orString
       (match headersGet "x-forwarded-for" h with
        | Some v => Some (Js.trim (default "" (head (Js.split "," v))))
        | None => None
        end)
       (orString (headersGet "x-real-ip" h)
          (orString (headersGet "x-client-ip" h) "unknown"))).

Definition createCorsHeaders : Headers :=
  headersSet "Access-Control-Max-Age" "86400"
  (headersSet "Access-Control-Expose-Headers"
     "Content-Type, Content-Length, X-Request-Id, X-Processing-Mode, X-Processing-Time"
  (headersSet "Access-Control-Allow-Headers" "*"
  (headersSet "Access-Control-Allow-Methods" CORS_METHODS
  (headersSet "Access-Control-Allow-Origin" (ALLOWED_ORIGIN ENV) ∅)))).

(** *** [api/_shared/middleware.ts]: [fetchWithRetry] *)

Definition RETRYABLE_ERRORS : list string :=
  ["timeout"; "network"; "connection"; "fetch"; "econnreset"; "etimedout"].

Definition isRetryableError (e : JsError) : bool :=
  let errorMsg := Js.toLowerCase (message e) in
  existsb (fun w => Js.includes errorMsg w) RETRYABLE_ERRORS.

Definition baseDelay (attempt : Z) : Z := Z.min (100 * 2 ^ attempt) 5000.

(** The delay computed in iteration [attempt], for the value [rnd] of
    [Math.random()]. *)
Definition backoffDelay (attempt : Z) (rnd : Q) : Q :=
  let base := inject_Z (baseDelay attempt) in
  let jitter := (base * (3 # 10) * (rnd - (1 # 2)))%Q in
  Qmax (base + jitter)%Q (inject_Z 100).

Definition serverError (response : Fetched) : JsError :=
  {| name := "Error";
     message := "Server error: " ++ pretty (status response) ++ " "
                ++ statusText response |}.

Section Retry.
Variable request : Outbound.
Variable maxRetries : Z.

(** The [for] loop of [fetchWithRetry], entered at [attempt]; after the
    loop, [lastError] (or a fresh error) is thrown. *)
Equations? retryLoop (attempt : Z) (lastError : option JsError)
    : Run Fetched by wf (Z.to_nat (maxRetries + 1 - attempt)) lt :=
  retryLoop attempt lastError with decide (attempt <= maxRetries) := {
    | right _ :=
        throw (default {| name := "Error";
                          message := "Request failed after retries" |}
                       lastError)
    | left _ with upstream attempt := {
        | inr response
            with decide (500 <= status response /\ attempt < maxRetries)
            := {
            | left _ :=
                perform (FetchUpstream request) ≫= fun _ =>
                perform (Sleep (backoffDelay attempt (random attempt)))
                  ≫= fun _ =>
                retryLoop (attempt + 1) (Some (serverError response))
            | right _ :=
                perform (FetchUpstream request) ≫= fun _ => mret response }
        | inl error with decide (attempt = maxRetries) := {
            | left _ :=
                perform (FetchUpstream request) ≫= fun _ => throw error
            | right _ with isRetryableError error := {
                | false :=
                    perform (FetchUpstream request) ≫= fun _ =>
                    throw error
                | true :=
                    perform (FetchUpstream request) ≫= fun _ =>
                    perform (Sleep (backoffDelay attempt (random attempt)))
                      ≫= fun _ =>
                    retryLoop (attempt + 1) (Some error) } } } }.
Proof. all: lia. Qed.
End Retry.

Definition fetchWithRetry
    (request : Outbound) (maxRetries : Z)
    (retryableMethods : option (list string)) : Run Fetched :=
  let methods := default ["GET"; "HEAD"; "OPTIONS"] retryableMethods in
  if bool_decide (maxRetries <= 0)
     || negb (bool_decide (outMethod request ∈ methods))
  then perform (FetchUpstream request) ≫= fun _ => settle (upstream 0)
  else retryLoop request maxRetries 0 None.

(** *** [api/_shared/middleware.ts]: response headers *)

Definition processResponseHeaders
    (upstreamHeaders : Headers) (reqId : string) (mode : Mode) : Headers :=
  let h1 := headersSetAll
              (fun key => negb (bool_decide
                                  (Js.toLowerCase key ∈ EXCLUDE_HEADERS)))
              (map_to_list upstreamHeaders) ∅ in
  let h2 := headersSetAll (fun _ => true) (map_to_list createCorsHeaders) h1 in
  headersSet "X-Frame-Options" "DENY"
  (headersSet "X-Content-Type-Options" "nosniff"
  (headersSet "X-Gateway-Version" "1.0.0"
  (headersSet "X-Processing-Mode" (modeTag mode)
  (headersSet "X-Request-Id" reqId h2)))).

Definition createStreamingResponse
    (body : Body) (status : Z) (statusText : string) (h : Headers)
    : Response :=
  {| respStatus := status;
     respStatusText := statusText;
     respHeaders :=
       headersSet "X-Accel-Buffering" "no"
       (headersSet "Cache-Control" "no-cache, no-store, must-revalidate" h);
     respBody := body |}.

(** *** [api/gateway.ts] *)

(** The delay of the abort timer of [handleInEdge]. *)
Definition edgeTimeout (proxy : ProxyConfig) : Z :=
  Z.min (orZ (timeout proxy) (DEFAULT_TIMEOUT ENV)) 20000.

(** The delay of the abort timer of [forwardToBackground]. *)
Definition forwardTimeout : Z := 20000.

(** The end of [handleInEdge], once the declared size has passed the
    check: headers, the size-limited body, the streaming response. *)
Definition relayUpstream
    (context : RequestContext) (upstreamResponse : Fetched)
    (declared : bool) (maxSize : Z) : Run Response :=
  let responseHeaders :=
    headersSet "X-Processing-Time" processingTime
      (processResponseHeaders (fetchedHeaders upstreamResponse)
         (reqId context) edge) in
  let responseBody :=
    match fetchedBody upstreamResponse with
    | Some chunks =>
        if negb declared && (0 <? maxSize)
        then BodyBytes (pipeThrough maxSize (reqId context) chunks)
        else BodyBytes {| emitted := chunks; failure := None |}
    | None => BodyNull
    end in
  mret (createStreamingResponse responseBody
          (status upstreamResponse) (statusText upstreamResponse)
          responseHeaders).

Definition handleInEdge
    (req : Request) (context : RequestContext) (proxy : ProxyConfig)
    (userPath search : string) : Run Response :=
  let upstreamURL :=
    buildUpstreamURL (host proxy) (basePath proxy) userPath search in
  let forwardHeaders := buildForwardHeaders (headers req) proxy in
  let timeout := edgeTimeout proxy in
  let upstreamRequest :=
    {| url := upstreamURL;
       outMethod := ctxMethod context;
       outHeaders := forwardHeaders;
       carriesBody :=
         negb (String.eqb (method req) "GET")
         && negb (String.eqb (method req) "HEAD")
         && bool_decide (is_Some (body req));
       deadline := timeout |} in
  upstreamResponse ←
    fetchWithRetry upstreamRequest
      (if ENABLE_RETRY ENV then default 1 (maxRetries proxy) else 0)
      (retryableMethods proxy);
  let contentLength :=
    headersGet "content-length" (fetchedHeaders upstreamResponse) in
  let maxSize := orZ (maxResponseSize proxy) (MAX_RESPONSE_SIZE ENV) in
  let declared := Js.truthy (orString contentLength "") in
  let declaredSize :=
    if declared then ParseInt.parseInt (orString contentLength "")
    else None in
  match declaredSize with
  | Some n =>
      if maxSize <? n
      then mret (createErrorResponse 413 (ResponseSize n maxSize)
                   (reqId context) NoDetail)
      else relayUpstream context upstreamResponse declared maxSize
  | None => relayUpstream context upstreamResponse declared maxSize
  end.

(** The path the fallback hands to [handleInEdge]. *)
Definition fallbackUserPath (req : Request) : string :=
  sanitizePath (drop 1 (pathSegments (removeFirst "/gateway" (pathname req)))).

(** The request [forwardToBackground] sends to the Background function. *)
Definition backgroundRequest
    (req : Request) (context : RequestContext) (proxy : ProxyConfig)
    : Outbound :=
  let pathname' := removeFirst "/gateway" (pathname req) in
  let backgroundUrl :=
    origin req ++ "/api/background" ++ pathname' ++ search req in
  let h :=
    headersSet "X-Original-IP" (orString (Some (ip context)) "unknown")
    (headersSet "X-Service-Config"
       (stringifyServiceConfig (service context) proxy)
    (headersSet "X-Request-Id" (reqId context) (headers req))) in
  let carries :=
    bool_decide (is_Some (body req))
    && bool_decide (ctxMethod context ∈ ["POST"; "PUT"; "PATCH"]) in
  {| url := backgroundUrl;
     outMethod := ctxMethod context;
     outHeaders :=
       match body req with
       | Some b =>
           if carries then headersSet "Content-Length" (pretty (bodyLength b)) h
           else h
       | None => h
       end;
     carriesBody := carries;
     deadline := forwardTimeout |}.

(** The response [forwardToBackground] relays. *)
Definition relayBackground
    (context : RequestContext) (backgroundResponse : Fetched) : Response :=
  let responseHeaders :=
    headersSetAll (fun _ => true) (map_to_list createCorsHeaders)
      (headersSet "X-Processing-Time" processingTime
      (headersSet "X-Processing-Mode" "background"
      (headersSet "X-Request-Id" (reqId context)
         (fetchedHeaders backgroundResponse)))) in
  {| respStatus := status backgroundResponse;
     respStatusText := statusText backgroundResponse;
     respHeaders := responseHeaders;
     respBody :=
       match fetchedBody backgroundResponse with
       | Some chunks => BodyBytes {| emitted := chunks; failure := None |}
       | None => BodyNull
       end |}.

Definition forwardToBackground
    (req : Request) (context : RequestContext) (proxy : ProxyConfig)
    : Run Response :=
  tryCatch
    (perform (FetchBackground (backgroundRequest req context proxy));;
     backgroundResponse ← settle background;
     mret (relayBackground context backgroundResponse))
    (fun error =>
       if String.eqb (name error) "AbortError" then
         mret (createErrorResponse 504 (Text "Background processing timeout")
                 (reqId context) NoDetail)
       else if negb (bool_decide (allowFallback proxy = Some false))
               && ENABLE_FALLBACK ENV then
         handleInEdge req context proxy (fallbackUserPath req) (search req)
       else
         mret (createErrorResponse 500 (Text "Background processing failed")
                 (reqId context) NoDetail)).

Definition availableServices : list string :=
  (map_to_list PROXIES).*1.

(** The default export of [api/gateway.ts]. Its [catch] turns every
    exception into an error response, so a run ends in a [Response]. *)
Definition handler (req : Request) : list Effect * Response :=
  let reqId := getRequestId (headers req) in
  let run : Run Response :=
    if String.eqb (pathname req) "/gateway/health"
       || String.eqb (pathname req) "/health" then
      mret {| respStatus := 200; respStatusText := "";
              respHeaders :=
                headersSetAll (fun _ => true) (map_to_list createCorsHeaders)
                  (headersSet "Content-Type" "application/json" ∅);
              respBody := BodyHealthJson |}
    else if String.eqb (method req) "OPTIONS" then
      mret {| respStatus := 204; respStatusText := "";
              respHeaders := createCorsHeaders; respBody := BodyNull |}
    else
      let cleanedPathname :=
        if Js.startsWith (pathname req) "/gateway"
        then removeFirst "/gateway" (pathname req)
        else pathname req in
      match pathSegments cleanedPathname with
      | serviceAlias :: ((_ :: _) as pathSegments) =>
          match PROXIES !! serviceAlias with
          | None =>
              mret (createErrorResponse 404
                      (Text ("Service '" ++ serviceAlias ++ "' not found"))
                      reqId (Services availableServices None))
          | Some proxy =>
              let context :=
                {| reqId := reqId; service := serviceAlias;
                   ctxMethod := method req; path := pathname req;
                   ip := getClientIp (headers req) |} in
              let decision := shouldForwardToBackground req proxy context in
              if shouldForward decision
              then forwardToBackground req context proxy
              else handleInEdge req context proxy
                     (sanitizePath pathSegments) (search req)
          end
      | _ =>
          mret (createErrorResponse 400
                  (Text "Invalid path format. Expected: /gateway/{service}/{path}")
                  reqId
                  (Services availableServices
                     (Some "/gateway/openai/v1/chat/completions")))
      end in
  match run with
  | (t, inr response) => (t, response)
  | (t, inl error) =>
      let errorInfo := categorizeError error in
      (t, createErrorResponse (errStatus errorInfo)
            (Text (errMessage errorInfo)) reqId
            (TypeOf (errType errorInfo)))
  end.

End Gateway.

(** ** Observations on streams and runs *)

(** The bytes of a list of chunks. *)
Definition totalSize (chunks : list Chunk) : Z :=
  foldr (fun chunk acc => byteLength chunk + acc) 0 chunks.

Definition isFetchUpstream (ev : Effect) : bool :=
  match ev with FetchUpstream _ => true | _ => false end.

(** The number of upstream fetches of a trace. *)
Definition fetches (t : list Effect) : nat :=
  List.length (List.filter isFetchUpstream t).

(** The delays slept in a trace, in order. *)
Definition sleeps (t : list Effect) : list Q :=
  omap (fun ev => match ev with Sleep d => Some d | _ => None end) t.

(** Whether a trace holds a call to the Background function. *)
Definition isFetchBackground (ev : Effect) : bool :=
  match ev with FetchBackground _ => true | _ => false end.

Section RetryShape.
Variable upstream : Z -> JsError + Fetched.
Variable random : Z -> Q.
Variable request : Outbound.
Variable maxRetries : Z.

(** Iteration [j] of the loop of [fetchWithRetry] ends in a retry. *)
Definition retried (j : Z) : Prop :=
  j < maxRetries /\
  match upstream j with
  | inr response => 500 <= status response
  | inl error => isRetryableError error = true
  end.

(** The trace of [n] iterations that retry, from [attempt] on, followed by
    one that does not. *)
Fixpoint retryTrace (attempt : Z) (n : nat) : list Effect :=
  match n with
  | O => [FetchUpstream request]
  | S n' =>
      FetchUpstream request :: Sleep (backoffDelay attempt (random attempt))
        :: retryTrace (attempt + 1) n'
  end.
End RetryShape.

(** What [encodeURIComponent] followed by the restoration of colons makes
    of one character. *)
Definition encodeChar (c : ascii) : string :=
  if Uri.unreserved c then String c ""
  else if Ascii.eqb c ":" then ":"
  else Uri.escape c.

(** One path component, encoded. *)
Definition encodeComponent (s : string) : string :=
  Uri.restoreColons (Uri.encodeURIComponent s).

(** The user path of a request, as [handler], the fallback and the
    Background function compute it from the cleaned path name. *)
Definition userPathOf (cleanedPathname : string) : string :=
  sanitizePath (drop 1 (pathSegments cleanedPathname)).

(** The request is a health check. *)
Definition isHealthCheck (req : Request) : bool :=
  String.eqb (pathname req) "/gateway/health"
  || String.eqb (pathname req) "/health".

Definition isErrorBody (b : Body) : bool :=
  match b with BodyErrorJson _ _ _ _ => true | _ => false end.

(** The three ways the gateway builds the answer to a dispatched request:
    an error response, a response relayed on the fast path, a response
    relayed from the Background function. *)
Inductive Answer (ENV : Env) (id processingTime : string) : Response -> Prop :=
| AnswerError status msg detail :
    Answer ENV id processingTime (createErrorResponse ENV status msg id detail)
| AnswerEdge body status statusText upstreamHeaders :
    Answer ENV id processingTime
      (createStreamingResponse body status statusText
         (headersSet "X-Processing-Time" processingTime
            (processResponseHeaders ENV upstreamHeaders id edge)))
| AnswerBackground context response :
    reqId context = id ->
    Answer ENV id processingTime
      (relayBackground ENV processingTime context response).

(** ** Sample inputs *)

(** Two 503 answers, then a 200. *)
Definition flakyUpstream (attempt : Z) : JsError + Fetched :=
  if attempt <? 2
  then inr {| status := 503; statusText := "Service Unavailable";
              fetchedHeaders := ∅; fetchedBody := None |}
  else inr {| status := 200; statusText := "OK";
              fetchedHeaders := ∅;
              fetchedBody := Some [[Byte.x7b; Byte.x7d]] |}.

Definition sampleGet : Outbound :=
  {| url := "https://api.openai.com/v1/models"; outMethod := "GET";
     outHeaders := ∅; carriesBody := false; deadline := 20000 |}.

(** The [openai] entry of [BUILTIN_PROXIES]. *)
Definition openaiProxy : ProxyConfig :=
  default (bareProxy "") (BUILTIN_PROXIES !! "openai").

(** [POST /gateway/openai/v1/embeddings] with a ten-byte JSON body. *)
Definition embeddingsRequest : Request :=
  {| method := "POST"; origin := "https://gw.example.com";
     pathname := "/gateway/openai/v1/embeddings"; search := "";
     searchParams := [];
     headers := {[ "content-type" := "application/json";
                   "x-request-id" := "req-42" ]};
     body := Some {| bodyLength := 10;
                     bodyJson := Some (JObject [("input", JString "a")]) |} |}.

(** The same request with [?stream=true]. *)
Definition embeddingsStreamFlag : Request :=
  {| method := "POST"; origin := "https://gw.example.com";
     pathname := "/gateway/openai/v1/embeddings"; search := "?stream=true";
     searchParams := [("stream", "true")];
     headers := {[ "content-type" := "application/json";
                   "x-request-id" := "req-42" ]};
     body := Some {| bodyLength := 10;
                     bodyJson := Some (JObject [("input", JString "a")]) |} |}.

(** The CORS preflight of that request. *)
Definition preflightRequest : Request :=
  {| method := "OPTIONS"; origin := "https://gw.example.com";
     pathname := "/gateway/openai/v1/embeddings"; search := "";
     searchParams := [];
     headers := {[ "x-request-id" := "req-42" ]};
     body := None |}.

(** [POST /gateway/nosuch/v1/x]: no such service. *)
Definition unknownServiceRequest : Request :=
  {| method := "POST"; origin := "https://gw.example.com";
     pathname := "/gateway/nosuch/v1/x"; search := "";
     searchParams := [];
     headers := {[ "x-request-id" := "req-42" ]};
     body := None |}.


Definition embeddingsContext : RequestContext :=
  {| reqId := "req-42"; service := "openai"; ctxMethod := "POST";
     path := "/gateway/openai/v1/embeddings"; ip := "unknown" |}.

Definition abortError : JsError :=
  {| name := "AbortError"; message := "The operation was aborted" |}.

Definition networkError : JsError :=
  {| name := "TypeError"; message := "fetch failed" |}.

Definition okUpstream (attempt : Z) : JsError + Fetched :=
  inr {| status := 200; statusText := "OK"; fetchedHeaders := ∅;
         fetchedBody := Some [[Byte.x7b; Byte.x7d]] |}.

Definition halfRandom (attempt : Z) : Q := 1 # 2.

Definition sampleStringify (serviceAlias : string) (proxy : ProxyConfig)
    : string := serviceAlias.

(** The streaming test as the specification words it: the path is a
    streaming path and one of the three signs of streaming is present. *)
Definition specStreaming (req : Request) : bool :=
  isStreamingPath (pathname req)
  && (match headersGet "accept" (headers req) with
      | Some accept => Js.includes accept "text/event-stream"
      | None => false
      end
      || bool_decide (searchParamsGet "stream" (searchParams req) = Some "true")
      || match body req with
         | Some b => match bodyJson b with
                     | Some v => bool_decide (streamIsTrue v = inr true)
                     | None => false
                     end
         | None => false
         end).

(** ** Further observations *)

(** The path holds one of [LONG_RUNNING_PATHS]. *)
Definition isLongRunningPath (pathname : string) : bool :=
  existsb (fun p => Js.includes pathname p) LONG_RUNNING_PATHS.

(** The status each error type is reported with. *)
Definition statusOf (t : ErrorType) : Z :=
  match t with
  | TIMEOUT => 504
  | NETWORK | DNS | SSL => 502
  | CONNECTION => 503
  | SIZE_LIMIT => 413
  | UNKNOWN => 500
  end.

(** The sum of a list of delays. *)
Definition totalSleep (delays : list Q) : Q :=
  foldr Qplus (inject_Z 0) delays.

(** The number of calls to the Background function in a trace. *)
Definition forwards (t : list Effect) : nat :=
  List.length (List.filter isFetchBackground t).


(** The path name [handler] cuts into segments. *)
Definition cleanedPathname (req : Request) : string :=
  if Js.startsWith (pathname req) "/gateway"
  then removeFirst "/gateway" (pathname req)
  else pathname req.

(** The size limit [handleInEdge] applies for a profile. *)
Definition maxSizeOf (ENV : Env) (proxy : ProxyConfig) : Z :=
  orZ (maxResponseSize proxy) (MAX_RESPONSE_SIZE ENV).

(** A body as it is relayed when no governor is put on it. *)
Definition relayedBody (body : option (list Chunk)) : Body :=
  match body with
  | Some chunks => BodyBytes {| emitted := chunks; failure := None |}
  | None => BodyNull
  end.

(** An upstream that rejects every fetch with the same error. *)
Definition failingUpstream (e : JsError) (attempt : Z) : JsError + Fetched :=
  inl e.

(** [GET /gateway/openai/v1/models]. *)
Definition modelsRequest : Request :=
  {| method := "GET"; origin := "https://gw.example.com";
     pathname := "/gateway/openai/v1/models"; search := "";
     searchParams := [];
     headers := {[ "x-request-id" := "req-42" ]};
     body := None |}.

(** An upstream that answers with a body of five bytes and declares the
    length given. *)
Definition declaringAnswer (contentLength : string) : Fetched :=
  {| status := 200; statusText := "OK";
     fetchedHeaders := {[ "content-length" := contentLength ]};
     fetchedBody := Some [[Byte.x01; Byte.x02; Byte.x03];
                          [Byte.x04; Byte.x05]] |}.

Definition declaringUpstream (contentLength : string) (attempt : Z)
    : JsError + Fetched :=
  inr (declaringAnswer contentLength).

(** A profile with a response limit of four bytes. *)
Definition tinyLimitProxy : ProxyConfig :=
  {| host := "api.example.com"; basePath := None; timeout := None;
     maxRetries := None; maxResponseSize := Some 4;
     retryableMethods := None; defaultHeaders := None;
     supportsStreaming := None; allowFallback := None; retryable := None |}.

Definition modelsContext : RequestContext :=
  {| reqId := "req-42"; service := "openai"; ctxMethod := "GET";
     path := "/gateway/openai/v1/models"; ip := "unknown" |}.

(** The request [handleInEdge] builds. *)
Definition edgeRequest (ENV : Env) (req : Request) (context : RequestContext)
    (proxy : ProxyConfig) (userPath search : string) : Outbound :=
  {| url := buildUpstreamURL (host proxy) (basePath proxy) userPath search;
     outMethod := ctxMethod context;
     outHeaders := buildForwardHeaders (headers req) proxy;
     carriesBody :=
       negb (String.eqb (method req) "GET")
       && negb (String.eqb (method req) "HEAD")
       && bool_decide (is_Some (body req));
     deadline := edgeTimeout ENV proxy |}.


(** The names of a [Headers] object are in lower case. *)
Definition lowercaseNames (h : Headers) : Prop :=
  forall k, is_Some (h !! k) -> Js.toLowerCase k = k.

(** The names [processResponseHeaders] sets itself. *)
Definition GATEWAY_RESPONSE_HEADERS : list string :=
  [ "access-control-allow-origin"; "access-control-allow-methods";
    "access-control-allow-headers"; "access-control-expose-headers";
    "access-control-max-age"; "x-request-id"; "x-processing-mode";
    "x-gateway-version"; "x-content-type-options"; "x-frame-options" ].

(** Every character of a string passes a test. *)
Fixpoint allChars (test : ascii -> bool) (s : string) : bool :=
  match s with
  | EmptyString => true
  | String c r => test c && allChars test r
  end.

(** The characters a sanitized path is made of: the unreserved ones, the
    percent sign of the escapes, the colon and the slash. *)
Definition pathChar (c : ascii) : bool :=
  Uri.unreserved c || Ascii.eqb c "%" || Ascii.eqb c ":" || Ascii.eqb c "/".

(** The characters [sanitizePath] leaves as they are. *)
Definition plainChar (c : ascii) : bool :=
  Uri.unreserved c || Ascii.eqb c ":".


(** ** JS objects *)

(** The names every object inherits from [Object.prototype]: a look-up
    [o[name]] under one of them finds the inherited member when [o] has no
    own property of that name. *)
Definition OBJECT_PROTOTYPE_KEYS : list string :=
  [ "constructor"; "__proto__"; "hasOwnProperty"; "isPrototypeOf";
    "propertyIsEnumerable"; "toLocaleString"; "toString"; "valueOf";
    "__defineGetter__"; "__defineSetter__"; "__lookupGetter__";
    "__lookupSetter__" ].

(** ** [api/_shared/utils.ts]: [parseQueryParams] *)

Definition ALLOWED_PARAMS : list string :=
  [ "alt"; "key"; "access_token"; "upload_protocol"; "prettyPrint"; "fields" ].

(** The test of the loop of [parseQueryParams]. *)
Definition isAllowedParam (key : string) : bool :=
  bool_decide (key ∈ ALLOWED_PARAMS) || Js.startsWith key "$".

(** [searchParams.entries()] lists the pairs of the query in order; the
    result holds the own properties of [params]. *)
Definition parseQueryParams (searchParams : list (string * string))
    : gmap string string :=
  foldl (fun params kv =>
           if isAllowedParam kv.1 then <[kv.1 := kv.2]> params else params)
        ∅ searchParams.

(** ** [api/_shared/logger.ts]: the level of the logger *)

Inductive LogLevel := DEBUG | INFO | WARN | ERROR.

Definition LOG_LEVELS (level : LogLevel) : Z :=
  match level with DEBUG => 0 | INFO => 1 | WARN => 2 | ERROR => 3 end.

(** The own property of [LOG_LEVELS] a string names. *)
Definition logLevelNamed (s : string) : option LogLevel :=
  if String.eqb s "DEBUG" then Some DEBUG
  else if String.eqb s "INFO" then Some INFO
  else if String.eqb s "WARN" then Some WARN
  else if String.eqb s "ERROR" then Some ERROR
  else None.

(** What [this.level] holds: a number, or an inherited member of
    [LOG_LEVELS] (a function or an object), which compares as NaN. *)
Inductive Threshold :=
| Finite (n : Z)
| NotANumber.

(** The constructor: [LOG_LEVELS[ENV.LOG_LEVEL] || LOG_LEVELS.INFO]. *)
Definition loggerLevel (LOG_LEVEL : string) : Threshold :=
  match logLevelNamed LOG_LEVEL with
  | Some level => Finite (orZ (Some (LOG_LEVELS level)) (LOG_LEVELS INFO))
  | None =>
      if bool_decide (LOG_LEVEL ∈ OBJECT_PROTOTYPE_KEYS) then NotANumber
      else Finite (LOG_LEVELS INFO)
  end.

(** The guard of [log]: [if (LOG_LEVELS[level] < this.level) return]. The
    result tells whether the line is written. *)
Definition logs (LOG_LEVEL : string) (level : LogLevel) : bool :=
  match loggerLevel LOG_LEVEL with
  | Finite n => negb (LOG_LEVELS level <? n)
  | NotANumber => true
  end.

(** ** [api/_shared/config.ts]: [loadProxyConfig] *)

(** A JS object as the JSON values of its own properties. An override can
    hold any JSON, so the loaded table keeps each profile in this form. *)
Abbreviation Fields := (gmap string Json).

Definition optionalField {A} (key : string) (f : A -> Json) (v : option A)
    : list (string * Json) :=
  match v with
  | Some a => [(key, f a)]
  | None => []
  end.

(** The properties of a [ProxyConfig] literal. *)
Definition proxyFields (p : ProxyConfig) : Fields :=
  list_to_map
    (("host", JString (host p))
     :: optionalField "basePath" JString (basePath p)
     ++ optionalField "timeout" (fun n => JNumber (inject_Z n)) (timeout p)
     ++ optionalField "maxRetries" (fun n => JNumber (inject_Z n))
          (maxRetries p)
     ++ optionalField "maxResponseSize" (fun n => JNumber (inject_Z n))
          (maxResponseSize p)
     ++ optionalField "retryableMethods"
          (fun l => JArray (JString <$> l)) (retryableMethods p)
     ++ optionalField "defaultHeaders"
          (fun d => JObject (prod_map id JString <$> d)) (defaultHeaders p)
     ++ optionalField "supportsStreaming" JBool (supportsStreaming p)
     ++ optionalField "allowFallback" JBool (allowFallback p)
     ++ optionalField "retryable" JBool (retryable p))%list.

(** The items of an array under their indices. *)
Definition indexed {A} (l : list A) : list (string * A) :=
  imap (fun i a => (pretty i, a)) l.

(** [Object.entries(v)]: it throws on [null] (the [None]); a number or a
    boolean has no entry, a string has its characters and an array its
    items. *)
Definition objectEntries (v : Json) : option (list (string * Json)) :=
  match v with
  | JNull => None
  | JBool _ | JNumber _ => Some []
  | JString s =>
      Some (indexed ((fun c => JString (String c "")) <$> list_ascii_of_string s))
  | JArray items => Some (indexed items)
  | JObject fields => Some fields
  end.

(** [typeof value === 'object' && value !== null]. *)
Definition isObject (v : Json) : bool :=
  match v with
  | JArray _ | JObject _ => true
  | _ => false
  end.

(** The own properties a spread [...value] copies. *)
Definition ownFields (v : Json) : Fields :=
  match v with
  | JObject fields => list_to_map fields
  | JArray items => list_to_map (indexed items)
  | _ => ∅
  end.

(** [{ ...a, ...b }]: the properties of [b] come last and win. *)
Definition spread (a b : Fields) : Fields := b ∪ a.

(** One turn of the loop of [loadProxyConfig]. [BUILTIN_PROXIES[key]] has
    nothing to spread when [key] is no built-in alias; assigning to
    [merged['__proto__']] replaces the prototype of [merged] and adds no
    property. *)
Definition mergeEntry (merged : gmap string Fields) (entry : string * Json)
    : gmap string Fields :=
  let '(key, value) := entry in
  if isObject value then
    if String.eqb key "__proto__" then merged
    else <[key := spread (default ∅ (proxyFields <$> BUILTIN_PROXIES !! key))
                         (ownFields value)]> merged
  else merged.

Section LoadProxyConfig.
(** [JSON.parse], [None] when it throws. *)
Variable parse : string -> option Json.

(** [PROXY_CONFIG] is [process.env.PROXY_CONFIG]. *)
Definition loadProxyConfig (PROXY_CONFIG : option string)
    : gmap string Fields :=
  let builtins := proxyFields <$> BUILTIN_PROXIES in
  match PROXY_CONFIG with
  | Some customConfig =>
      if Js.truthy customConfig then
        match parse customConfig ≫= objectEntries with
        | Some entries => foldl mergeEntry builtins entries
        | None => builtins
        end
      else builtins
  | None => builtins
  end.
End LoadProxyConfig.

(** ** [api/background.ts] *)

Module Background.

(** [ServiceConfig] of [types.ts]. *)
Record ServiceConfig := {
  serviceAlias : string;
  proxyConfig : ProxyConfig;
}.

(** What [JSON.parse] makes of the [x-service-config] header: it throws; it
    yields a falsy value ([null], [false], [0], the empty string); it
    yields a [ServiceConfig] as the edge handler writes it; or it yields
    another truthy value, whose [proxyConfig] is [undefined] or [null], so
    that reading [proxyConfig.host] throws the [TypeError] given. *)
Inductive ParsedConfig :=
| ConfigUnparsable
| ConfigFalsy
| ConfigParsed (c : ServiceConfig)
| ConfigMalformed (typeError : JsError).

(** [req.body], as the body parser of the platform leaves it. *)
Inductive NodeBody :=
| NodeString (s : string)
| NodeParsed (v : Json)
| NodeBuffer (bytes : list Byte.byte)
| NodeUndefined.

(** The [VercelRequest]: [nodePathname] and [nodeSearch] are the parts of
    [new URL(req.url, ...)], [nodeHeaders] the headers of [req.headers]
    that hold a string, under their lower-case names. *)
Record NodeRequest := {
  nodeMethod : string;
  nodePathname : string;
  nodeSearch : string;
  nodeHeaders : gmap string string;
  nodeBody : NodeBody;
}.

(** The [body] handed to [fetch]. *)
Inductive UpstreamBody :=
| Stringified (b : NodeBody)
| Verbatim (b : NodeBody)
| NoBody.

(** The arguments of the [fetch] of [executeUpstreamRequest]; [callTimeout]
    is the delay of the timer that aborts it. *)
Record UpstreamCall := {
  callUrl : string;
  callMethod : string;
  callHeaders : gmap string string;
  callBody : UpstreamBody;
  callTimeout : Z;
}.

(** What a body read gives: [response.json()], [response.text()] or a
    [Buffer]. *)
Inductive Data :=
| DataJson (v : Json)
| DataText (s : string)
| DataBuffer (bytes : list Byte.byte).

(** What [fetch] resolves to; [answerData] is what reading the body, the
    way its content type commands, settles to. *)
Record UpstreamAnswer := {
  answerStatus : Z;
  answerStatusText : string;
  answerHeaders : Headers;
  answerData : JsError + Data;
}.

(** The object [executeUpstreamRequest] returns. *)
Record UpstreamResult := {
  resultStatus : Z;
  resultStatusText : string;
  resultHeaders : gmap string string;
  resultData : Data;
  resultContentType : string;
}.

(** How the response body is written: [res.json(d)], [res.send(d)],
    [res.json(JSON.parse(s))] with [res.send(s)] when parsing throws, or
    one of the two error documents ([type] is absent from the 400s). *)
Inductive SentBody :=
| ViaJson (d : Data)
| ViaSend (d : Data)
| ViaParse (s : string)
| ErrorDocument (msg : string) (type : option ErrorType) (request_id : string).

(** What the handler does to [res]: the status, the headers it sets with
    [res.setHeader], the body. *)
Record NodeResponse := {
  sentStatus : Z;
  sentHeaders : Headers;
  sentBody : SentBody;
}.

Definition EXCLUDE_HEADERS : list string :=
  [ "content-encoding"; "transfer-encoding"; "connection"; "keep-alive";
    "server" ].

(** [obj[key] = value] for each header of a [Headers] object, into a fresh
    object: a string assigned to [__proto__] is dropped. *)
Definition headersToObject (h : Headers) : gmap string string :=
  delete "__proto__" h.

(** [contentType?.includes(sub)]. *)
Definition typeIncludes (contentType : option string) (sub : string) : bool :=
  match contentType with
  | Some c => Js.includes c sub
  | None => false
  end.

Section Handler.
Variable ENV : Env.
(** [JSON.parse] on the [x-service-config] header. *)
Variable parseConfig : string -> ParsedConfig.
(** The upstream: what [fetch] settles to. *)
Variable answer : JsError + UpstreamAnswer.
(** [(Date.now() - startTime).toString()]. *)
Variable duration : string.
Variable randomUUID : string.

(** [None] is [null] or a falsy parse result, which fails the test
    [!serviceConfig] of the handler like [null]; [inl] is a truthy value
    without a [proxyConfig]. *)
Definition parseServiceConfig (headers : gmap string string)
    : option (JsError + ServiceConfig) :=
  match headers !! "x-service-config" with
  | Some configHeader =>
      if Js.truthy configHeader then
        match parseConfig configHeader with
        | ConfigParsed c => Some (inr c)
        | ConfigMalformed typeError => Some (inl typeError)
        | ConfigFalsy | ConfigUnparsable => None
        end
      else None
  | None => None
  end.

(** The body reading of [executeUpstreamRequest], after its [fetch]. *)
Definition executeUpstreamRequest : JsError + UpstreamResult :=
  match answer with
  | inl error => inl error
  | inr response =>
      let responseHeaders := headersToObject (answerHeaders response) in
      let contentType :=
        orString (headersGet "content-type" (answerHeaders response)) "" in
      match answerData response with
      | inl error => inl error
      | inr data =>
          let binary :=
            negb (Js.includes contentType "application/json")
            && negb (Js.includes contentType "text/")
            && (Js.includes contentType "application/octet-stream"
                || Js.includes contentType "audio/"
                || Js.includes contentType "image/") in
          inr {| resultStatus := answerStatus response;
                 resultStatusText := answerStatusText response;
                 resultHeaders :=
                   if binary
                   then <["x-binary-response" := "true"]> responseHeaders
                   else responseHeaders;
                 resultData := data;
                 resultContentType := contentType |}
      end
  end.

(** The headers of the upstream call, before the body is prepared. *)
Definition forwardedHeaders (req : NodeRequest) (proxy : ProxyConfig)
    : gmap string string :=
  let clientHeaders :=
    headersSetAll (fun key => negb (Js.startsWith key "x-service"))
      (map_to_list (nodeHeaders req)) ∅ in
  headersToObject (buildForwardHeaders clientHeaders proxy).

(** The call the handler makes for a request with a service configuration
    and the segments [pathSegments] after the service. *)
Definition upstreamCall
    (req : NodeRequest) (proxy : ProxyConfig) (pathSegments : list string)
    : UpstreamCall :=
  let userPath := sanitizePath pathSegments in
  let upstreamURL :=
    buildUpstreamURL (host proxy) (basePath proxy) userPath (nodeSearch req) in
  let headersObject := forwardedHeaders req proxy in
  let contentType := nodeHeaders req !! "content-type" in
  let '(body, headersObject) :=
    if bool_decide (nodeMethod req ∈ ["GET"; "HEAD"]) then
      (NoBody, headersObject)
    else if typeIncludes contentType "application/json" then
      (Stringified (nodeBody req), headersObject)
    else if typeIncludes contentType "text/" then
      (Verbatim (nodeBody req), headersObject)
    else if typeIncludes contentType "multipart/form-data" then
      (Verbatim (nodeBody req), headersObject)
    else
      (match nodeBody req with
       | NodeString _ => Verbatim (nodeBody req)
       | _ => Stringified (nodeBody req)
       end,
       if Js.truthy (default "" (headersObject !! "content-type"))
       then headersObject
       else <["content-type" := "application/json"]> headersObject) in
  {| callUrl := upstreamURL;
     callMethod := nodeMethod req;
     callHeaders := headersObject;
     callBody := body;
     callTimeout := orZ (timeout proxy) (BACKGROUND_TIMEOUT ENV) |}.

(** The headers both the success and the error path set. *)
Definition trackingHeaders (reqId : string) : Headers :=
  headersSet "Access-Control-Allow-Headers" "*"
  (headersSet "Access-Control-Allow-Methods" CORS_METHODS
  (headersSet "Access-Control-Allow-Origin" (ALLOWED_ORIGIN ENV)
  (headersSet "X-Processing-Mode" "background"
  (headersSet "X-Processing-Time" duration
  (headersSet "X-Request-Id" reqId ∅))))).

(** The success path, from the result of [executeUpstreamRequest]. *)
Definition relayResult (reqId : string) (result : UpstreamResult)
    : NodeResponse :=
  let h :=
    headersSet "Cache-Control" "no-cache, no-store, must-revalidate"
      (trackingHeaders reqId) in
  {| sentStatus := resultStatus result;
     sentHeaders :=
       headersSetAll
         (fun key => negb (bool_decide (Js.toLowerCase key ∈ EXCLUDE_HEADERS)))
         (map_to_list (resultHeaders result)) h;
     sentBody :=
       if bool_decide (resultHeaders result !! "x-binary-response" = Some "true")
       then ViaSend (resultData result)
       else if Js.includes (resultContentType result) "application/json" then
         match resultData result with
         | DataText s => ViaParse s
         | d => ViaJson d
         end
       else ViaSend (resultData result) |}.

(** The [catch] of the handler. *)
Definition failureResponse (reqId : string) (error : JsError) : NodeResponse :=
  let errorInfo := categorizeError error in
  {| sentStatus := errStatus errorInfo;
     sentHeaders := trackingHeaders reqId;
     sentBody :=
       ErrorDocument (errMessage errorInfo) (Some (errType errorInfo)) reqId |}.

Definition badRequest (msg reqId : string) : NodeResponse :=
  {| sentStatus := 400; sentHeaders := ∅;
     sentBody := ErrorDocument msg None reqId |}.

(** The default export of [api/background.ts]: the upstream call it makes,
    if any, and what it writes to [res]. *)
Definition handler (req : NodeRequest) : option UpstreamCall * NodeResponse :=
  let reqId := orString (nodeHeaders req !! "x-request-id") randomUUID in
  match parseServiceConfig (nodeHeaders req) with
  | None => (None, badRequest "Missing service configuration" reqId)
  | Some serviceConfig =>
      let pathname := removeFirst "/api/background" (nodePathname req) in
      match pathSegments pathname with
      | _ :: ((_ :: _) as pathSegments) =>
          match serviceConfig with
          | inr serviceConfig =>
              let call :=
                upstreamCall req (proxyConfig serviceConfig) pathSegments in
              match executeUpstreamRequest with
              | inr result => (Some call, relayResult reqId result)
              | inl error => (Some call, failureResponse reqId error)
              end
          | inl typeError => (None, failureResponse reqId typeError)
          end
      | _ => (None, badRequest "Invalid path format" reqId)
      end
  end.

End Handler.

End Background.

(** ** Observations on the Background function *)

(** [embeddingsRequest] as the Background function receives it. *)
Definition forwardedEmbeddings : Background.NodeRequest :=
  {| Background.nodeMethod := "POST";
     Background.nodePathname := "/api/background/openai/v1/embeddings";
     Background.nodeSearch := "";
     Background.nodeHeaders :=
       list_to_map
         [ ("content-type", "application/json");
           ("x-request-id", "req-42");
           ("x-service-config", sampleStringify "openai" openaiProxy);
           ("x-original-ip", "203.0.113.7") ];
     Background.nodeBody :=
       Background.NodeParsed (JObject [("input", JString "a")]) |}.

Definition sampleParseConfig (configHeader : string)
    : Background.ParsedConfig :=
  Background.ConfigParsed
    {| Background.serviceAlias := configHeader;
       Background.proxyConfig := openaiProxy |}.

(** An upstream that answers with a JSON document. *)
Definition jsonAnswer : JsError + Background.UpstreamAnswer :=
  inr {| Background.answerStatus := 200;
         Background.answerStatusText := "OK";
         Background.answerHeaders :=
           list_to_map [ ("content-type", "application/json");
                         ("server", "nginx");
                         ("x-request-id", "upstream-7") ];
         Background.answerData := inr (Background.DataJson (JObject [])) |}.

(** * Properties *)

(** ** The header sanitizer *)

Section HeaderFacts.

Lemma headerAllowedBy_blocked (blocked allowed : gset string) name :
  Js.toLowerCase name ∈ blocked -> headerAllowedBy blocked allowed name = false.
Proof.
  intros Hin. unfold headerAllowedBy. by rewrite bool_decide_eq_true_2.
Qed.

Lemma headerAllowedBy_spec (blocked allowed : gset string) name :
  headerAllowedBy blocked allowed name = true <->
  (Js.toLowerCase name ∉ blocked) /\
  (Js.toLowerCase name ∈ allowed \/
   (Js.startsWith (Js.toLowerCase name) "x-" = true /\
    Js.startsWith (Js.toLowerCase name) "x-forwarded" = false /\
    Js.startsWith (Js.toLowerCase name) "x-real" = false)).
Proof.
  unfold headerAllowedBy. cbv zeta.
  case_bool_decide as Hb; [naive_solver |].
  case_bool_decide as Ha; [naive_solver |].
  rewrite !andb_true_iff, !negb_true_iff. naive_solver.
Qed.

(** Where a header of the result of a filtered copy comes from. *)
Lemma headersSetAll_lookup keep entries (h : Headers) k v :
  headersSetAll keep entries h !! k = Some v ->
  h !! k = Some v \/
  exists name, (name, v) ∈ entries /\ keep name = true
               /\ Js.toLowerCase name = k.
Proof.
  unfold headersSetAll. revert h.
  induction entries as [| [n w] entries IH]; intros h; simpl; [by left |].
  intros Hl. destruct (IH _ Hl) as [Hh | (name & Hin & Hk & Hn)].
  - destruct (keep n) eqn:Hkeep; [| by left].
    unfold headersSet in Hh. rewrite lookup_insert in Hh.
    case_decide as Heq; [| by left].
    right. exists n. split; [| done]. injection Hh as ->. left.
  - right. exists name. split; [by right | done].
Qed.

Lemma buildForwardHeaders_origin (client : Headers) proxy k v :
  buildForwardHeaders client proxy !! k = Some v ->
  (exists d name, defaultHeaders proxy = Some d /\ (name, v) ∈ d
                  /\ Js.toLowerCase name = k) \/
  (k = "user-agent" /\ v = DEFAULT_USER_AGENT) \/
  (exists name, client !! name = Some v /\ Js.toLowerCase name = k
                /\ isAllowedHeader name = true).
Proof.
  unfold buildForwardHeaders, headersDelete. cbv zeta.
  intros Hl.
  apply lookup_delete_Some in Hl as [_ Hl].
  apply lookup_delete_Some in Hl as [_ Hl].
  set (h1 := match defaultHeaders proxy with
             | Some d => headersSetAll (fun _ => true) d ∅
             | None => ∅
             end) in *.
  set (h2 := headersSetAll isAllowedHeader (map_to_list client) h1) in *.
  assert (Hstep : h2 !! k = Some v \/ (k = "user-agent" /\ v = DEFAULT_USER_AGENT)).
  { destruct (headersHas "user-agent" h2); [by left |].
    unfold headersSet in Hl. rewrite lookup_insert in Hl.
    case_decide as Heq; [| by left].
    right. split; [by rewrite <- Heq | congruence]. }
  destruct Hstep as [H2 | ?]; [| by right; left].
  apply headersSetAll_lookup in H2 as [H1 | (name & Hin & Hk & Hn)].
  - left. subst h1. destruct (defaultHeaders proxy) as [d |] eqn:Hd.
    + apply headersSetAll_lookup in H1 as [H0 | (name & Hin & _ & Hn)].
      * by rewrite lookup_empty in H0.
      * by exists d, name.
    + by rewrite lookup_empty in H1.
  - right; right. exists name. apply elem_of_map_to_list in Hin. done.
Qed.

End HeaderFacts.

(** C8. An inbound header passes [isAllowedHeader] exactly when its
    lower-cased name is not on the deny list and is on the allow list or
    follows the [x-] rule ([x-] prefix, neither [x-forwarded] nor [x-real]);
    whatever the two lists are, a name on the deny list is refused; every
    header of the outbound set is a default header of the profile, the
    synthesized [user-agent], or an inbound header that passes
    [isAllowedHeader]; [cookie] and [x-forwarded-for] are dropped and
    [x-my-custom] is kept. *)
Theorem header_sanitizer_rule :
  (forall name,
     isAllowedHeader name = true <->
     (Js.toLowerCase name ∉ BLOCKED_REQUEST_HEADERS) /\
     (Js.toLowerCase name ∈ ALLOWED_REQUEST_HEADERS \/
      (Js.startsWith (Js.toLowerCase name) "x-" = true /\
       Js.startsWith (Js.toLowerCase name) "x-forwarded" = false /\
       Js.startsWith (Js.toLowerCase name) "x-real" = false))) /\
  (forall (blocked allowed : gset string) name,
     Js.toLowerCase name ∈ blocked ->
     headerAllowedBy blocked allowed name = false) /\
  (forall (client : Headers) proxy k v,
     buildForwardHeaders client proxy !! k = Some v ->
     (exists d name, defaultHeaders proxy = Some d /\ (name, v) ∈ d
                     /\ Js.toLowerCase name = k) \/
     (k = "user-agent" /\ v = DEFAULT_USER_AGENT) \/
     (exists name, client !! name = Some v /\ Js.toLowerCase name = k
                   /\ isAllowedHeader name = true)) /\
  isAllowedHeader "cookie" = false /\
  isAllowedHeader "x-my-custom" = true /\
  isAllowedHeader "x-forwarded-for" = false /\
  (let out := buildForwardHeaders
                (list_to_map [("cookie", "sid=1"); ("x-my-custom", "1");
                              ("x-forwarded-for", "10.0.0.1")])
                (bareProxy "api.example.com") in
   out !! "cookie" = None /\ out !! "x-my-custom" = Some "1"
   /\ out !! "x-forwarded-for" = None).
Proof.
  split; [intros; apply headerAllowedBy_spec |].
  split; [apply headerAllowedBy_blocked |].
  split; [apply buildForwardHeaders_origin |].
  repeat split; vm_compute; reflexivity.
Qed.

(** ** The streaming governor *)

Section GovernorFacts.
Variables (maxSize : Z) (reqId : string).

Lemma totalSize_nonneg chunks : 0 <= totalSize chunks.
Proof.
  induction chunks as [| c cs IH]; simpl; [lia |]. unfold byteLength. lia.
Qed.

Lemma totalSize_cons c chunks :
  totalSize (c :: chunks) = byteLength c + totalSize chunks.
Proof. reflexivity. Qed.

(** Once [aborted] is set, [transform] returns at once. *)
Lemma feed_aborted st chunks :
  aborted st = true -> feed maxSize reqId st chunks = (st, []).
Proof.
  intros Hab. induction chunks as [| c cs IH]; simpl; [done |].
  unfold transform. rewrite Hab, IH. done.
Qed.

(** [aborted] is never reset. *)
Lemma transform_aborted_mono st chunk :
  aborted st = true -> aborted (transform maxSize reqId st chunk).1 = true.
Proof. intros Hab. unfold transform. by rewrite Hab. Qed.

Lemma feed_within st chunks :
  aborted st = false ->
  totalBytes st + totalSize chunks <= maxSize ->
  feed maxSize reqId st chunks =
    ({| totalBytes := totalBytes st + totalSize chunks; aborted := false |},
     Enqueue <$> chunks).
Proof.
  revert st. induction chunks as [| c cs IH]; intros [tb ab] Hab Hle;
    simpl in *; subst ab.
  - by rewrite Z.add_0_r.
  - pose proof (totalSize_nonneg cs) as Hcs.
    unfold transform. simpl.
    destruct (Z.ltb_spec maxSize (tb + byteLength c)) as [Hlt | Hge]; [lia |].
    rewrite IH; simpl; [| done | lia].
    by rewrite Z.add_assoc.
Qed.

Lemma feed_exceeds chunks : forall st (k : nat),
  aborted st = false ->
  (1 <= k <= List.length chunks)%nat ->
  totalBytes st + totalSize (take (k - 1) chunks) <= maxSize ->
  maxSize < totalBytes st + totalSize (take k chunks) ->
  feed maxSize reqId st chunks =
    ({| totalBytes := totalBytes st + totalSize (take k chunks);
        aborted := true |},
     (Enqueue <$> take (k - 1) chunks) ++
     [Error {| seenBytes := totalBytes st + totalSize (take k chunks);
               limitBytes := maxSize; request_id := reqId |}])%list.
Proof.
  induction chunks as [| c cs IH]; intros [tb ab] k Hab Hk Hle Hgt;
    simpl in *; subst ab; [lia |].
  destruct k as [| [| k']]; [lia | |].
  - simpl in *. rewrite Z.add_0_r in *.
    unfold transform. simpl.
    destruct (Z.ltb_spec maxSize (tb + byteLength c)) as [Hlt | Hge]; [| lia].
    by rewrite feed_aborted.
  - replace (S (S k') - 1)%nat with (S k') in * by lia.
    cbn [take fmap list_fmap] in *. rewrite !totalSize_cons in *.
    pose proof (totalSize_nonneg (take k' cs)) as Hcs.
    unfold transform. cbn [aborted totalBytes].
    destruct (Z.ltb_spec maxSize (tb + byteLength c)) as [Hlt | Hge]; [lia |].
    rewrite (IH _ (S k')); cbn [aborted totalBytes];
      replace (S k' - 1)%nat with k' by lia; try done; try lia.
    by rewrite !Z.add_assoc.
Qed.

Lemma readable_enqueued chunks e :
  readable ((Enqueue <$> chunks) ++ [Error e])%list =
    {| emitted := chunks; failure := Some e |}.
Proof.
  induction chunks as [| c cs IH]; [done |].
  rewrite fmap_cons, <- app_comm_cons. cbn [readable]. by rewrite IH.
Qed.

End GovernorFacts.

(** C2. When the cumulative size of the chunks fed to the governor first
    exceeds [maxSize] at chunk [k], the transformer enqueues chunks
    [1..k-1] unchanged and then errors the stream with the size-limit
    payload; it makes no other call, whatever chunks follow; and a
    transformer whose [aborted] flag is set emits nothing and keeps the
    flag. *)
Theorem governor_cuts_at_first_excess
    (maxSize : Z) (reqId : string) (chunks : list Chunk) (k : nat) :
  (1 <= k <= List.length chunks)%nat ->
  totalSize (take (k - 1) chunks) <= maxSize ->
  maxSize < totalSize (take k chunks) ->
  let e := {| seenBytes := totalSize (take k chunks);
              limitBytes := maxSize; request_id := reqId |} in
  createSizeLimitedStream maxSize reqId chunks
    = ((Enqueue <$> take (k - 1) chunks) ++ [Error e])%list /\
  pipeThrough maxSize reqId chunks
    = {| emitted := take (k - 1) chunks; failure := Some e |} /\
  (forall more,
     createSizeLimitedStream maxSize reqId (chunks ++ more)%list
       = createSizeLimitedStream maxSize reqId chunks) /\
  (forall st chunk,
     aborted st = true ->
     transform maxSize reqId st chunk = (st, [])) /\
  (forall st more,
     aborted st = true -> feed maxSize reqId st more = (st, [])).
Proof.
  intros Hk Hle Hgt e.
  assert (Hfeed : feed maxSize reqId freshBudget chunks =
            ({| totalBytes := totalSize (take k chunks); aborted := true |},
             ((Enqueue <$> take (k - 1) chunks) ++ [Error e])%list)).
  { rewrite (feed_exceeds maxSize reqId chunks freshBudget k); done. }
  assert (Hcalls : createSizeLimitedStream maxSize reqId chunks
            = ((Enqueue <$> take (k - 1) chunks) ++ [Error e])%list).
  { unfold createSizeLimitedStream. by rewrite Hfeed. }
  split; [done |].
  split; [unfold pipeThrough; rewrite Hcalls; apply readable_enqueued |].
  split.
  - intros more. rewrite Hcalls. unfold createSizeLimitedStream.
    rewrite (feed_exceeds maxSize reqId (chunks ++ more)%list freshBudget k);
      simpl; try done.
    + rewrite !take_app_le by lia. done.
    + rewrite length_app. lia.
    + rewrite take_app_le by lia. done.
    + rewrite take_app_le by lia. done.
  - split.
    + intros st chunk Hab. unfold transform. by rewrite Hab.
    + intros st more Hab. by apply feed_aborted.
Qed.

Lemma governor_cuts_at_first_excess_witness :
  createSizeLimitedStream 5 "req-1"
    [[Byte.x01; Byte.x02]; [Byte.x03; Byte.x04]; [Byte.x05; Byte.x06];
     [Byte.x07]]
  = [Enqueue [Byte.x01; Byte.x02]; Enqueue [Byte.x03; Byte.x04];
     Error {| seenBytes := 6; limitBytes := 5; request_id := "req-1" |}].
Proof.
  apply (governor_cuts_at_first_excess 5 "req-1"
           [[Byte.x01; Byte.x02]; [Byte.x03; Byte.x04]; [Byte.x05; Byte.x06];
            [Byte.x07]] 3).
  - simpl. lia.
  - vm_compute. discriminate.
  - vm_compute. reflexivity.
Defined.

(** ** The retrying fetch *)

Section RetryFacts.
Variable upstream : Z -> JsError + Fetched.
Variable random : Z -> Q.
Variable request : Outbound.
Variable maxRetries : Z.

Lemma bind_perform {A} ev (m : Run A) :
  (perform ev ≫= fun _ => m) = (ev :: m.1, m.2).
Proof. destruct m as [t r]. reflexivity. Qed.

(** One iteration of the loop, as a plain conditional. *)
Lemma retryLoop_step attempt lastError :
  retryLoop upstream random request maxRetries attempt lastError =
  if decide (attempt <= maxRetries) then
    let next e := retryLoop upstream random request maxRetries
                    (attempt + 1) (Some e) in
    let again e :=
      (FetchUpstream request
         :: Sleep (backoffDelay attempt (random attempt)) :: (next e).1,
       (next e).2) in
    match upstream attempt with
    | inr response =>
        if decide (500 <= status response /\ attempt < maxRetries)
        then again (serverError response)
        else ([FetchUpstream request], inr response)
    | inl error =>
        if decide (attempt = maxRetries)
        then ([FetchUpstream request], inl error)
        else if isRetryableError error then again error
             else ([FetchUpstream request], inl error)
    end
  else
    ([], inl (default {| name := "Error";
                         message := "Request failed after retries" |}
                      lastError)).
Proof.
  simp retryLoop.
  destruct (decide (attempt <= maxRetries)) as [Hd | Hd]; simpl; [| done].
  destruct (upstream attempt) as [error | response]; simpl.
  - destruct (decide (attempt = maxRetries)); simpl; [done |].
    destruct (isRetryableError error); simpl; [| done].
    by destruct (retryLoop _ _ _ _ _ _) as [? []].
  - destruct (decide (500 <= status response /\ attempt < maxRetries));
      simpl; [| done].
    by destruct (retryLoop _ _ _ _ _ _) as [? []].
Qed.

(** The loop, entered at [attempt], retries [n] times and then ends with
    what the fetch of iteration [attempt + n] gave. *)
Lemma retryLoop_run (m : nat) : forall attempt lastError,
  attempt <= maxRetries ->
  m = Z.to_nat (maxRetries - attempt) ->
  exists n : nat,
    attempt + Z.of_nat n <= maxRetries /\
    retryLoop upstream random request maxRetries attempt lastError
      = (retryTrace random request attempt n,
         upstream (attempt + Z.of_nat n)) /\
    (forall j, attempt <= j < attempt + Z.of_nat n ->
               retried upstream maxRetries j) /\
    ~ retried upstream maxRetries (attempt + Z.of_nat n).
Proof.
  assert (Hstop : forall attempt (r : Run Fetched),
            attempt <= maxRetries ->
            r = ([FetchUpstream request], upstream attempt) ->
            ~ retried upstream maxRetries attempt ->
            exists n : nat,
              attempt + Z.of_nat n <= maxRetries /\
              r = (retryTrace random request attempt n,
                   upstream (attempt + Z.of_nat n)) /\
              (forall j, attempt <= j < attempt + Z.of_nat n ->
                         retried upstream maxRetries j) /\
              ~ retried upstream maxRetries (attempt + Z.of_nat n)).
  { intros attempt r Hle -> Hnot. exists 0%nat.
    rewrite Z.add_0_r. split; [lia |]. split; [done |].
    split; [intros; lia | done]. }
  assert (Hgo : forall attempt e,
            attempt < maxRetries ->
            retried upstream maxRetries attempt ->
            (exists n : nat,
               attempt + 1 + Z.of_nat n <= maxRetries /\
               retryLoop upstream random request maxRetries
                 (attempt + 1) (Some e)
                 = (retryTrace random request (attempt + 1) n,
                    upstream (attempt + 1 + Z.of_nat n)) /\
               (forall j, attempt + 1 <= j < attempt + 1 + Z.of_nat n ->
                          retried upstream maxRetries j) /\
               ~ retried upstream maxRetries (attempt + 1 + Z.of_nat n)) ->
            exists n : nat,
              attempt + Z.of_nat n <= maxRetries /\
              (FetchUpstream request
                 :: Sleep (backoffDelay attempt (random attempt))
                 :: (retryLoop upstream random request maxRetries
                       (attempt + 1) (Some e)).1,
               (retryLoop upstream random request maxRetries
                  (attempt + 1) (Some e)).2)
                = (retryTrace random request attempt n,
                   upstream (attempt + Z.of_nat n)) /\
              (forall j, attempt <= j < attempt + Z.of_nat n ->
                         retried upstream maxRetries j) /\
              ~ retried upstream maxRetries (attempt + Z.of_nat n)).
  { intros attempt e Hlt Hret (n & Hn & Heq & Hall & Hlast).
    exists (S n). rewrite Heq.
    replace (attempt + Z.of_nat (S n)) with (attempt + 1 + Z.of_nat n) by lia.
    split; [lia |]. split; [done |]. split; [| done].
    intros j Hj. destruct (decide (j = attempt)) as [-> | Hne]; [done |].
    apply Hall. lia. }
  induction m as [| m IH]; intros attempt lastError Hle Hm;
    rewrite retryLoop_step;
    destruct (decide (attempt <= maxRetries)) as [_ | ?]; try lia; cbv zeta.
  - (* the last iteration: [attempt = maxRetries] *)
    assert (attempt = maxRetries) as Hlast by lia.
    assert (~ retried upstream maxRetries attempt) by (unfold retried; lia).
    destruct (upstream attempt) as [error | response] eqn:Hup.
    + rewrite decide_True by done. apply Hstop; [lia | by rewrite Hup | done].
    + rewrite decide_False by lia. apply Hstop; [lia | by rewrite Hup | done].
  - assert (attempt < maxRetries) as Hlt by lia.
    destruct (upstream attempt) as [error | response] eqn:Hup.
    + rewrite decide_False by lia.
      destruct (isRetryableError error) eqn:Hre.
      * apply Hgo; [done | by unfold retried; rewrite Hup |].
        apply IH; lia.
      * apply Hstop; [lia | by rewrite Hup |].
        unfold retried. rewrite Hup, Hre. intros [_ ?]. done.
    + destruct (decide (500 <= status response /\ attempt < maxRetries))
        as [[H5 _] | Hno].
      * apply Hgo; [done | by unfold retried; rewrite Hup |].
        apply IH; lia.
      * apply Hstop; [lia | by rewrite Hup |].
        unfold retried. rewrite Hup. intros [? ?]. apply Hno. done.
Qed.

Lemma fetches_retryTrace attempt n :
  fetches (retryTrace random request attempt n) = S n.
Proof.
  revert attempt. induction n as [| n IH]; intros attempt; [done |].
  unfold fetches in *. simpl. by rewrite IH.
Qed.

Lemma sleeps_retryTrace attempt n :
  sleeps (retryTrace random request attempt n)
  = (fun i : nat => backoffDelay (attempt + Z.of_nat i)
                      (random (attempt + Z.of_nat i))) <$> seq 0 n.
Proof.
  revert attempt. induction n as [| n IH]; intros attempt; [done |].
  unfold sleeps in *. cbn [retryTrace omap list_omap seq fmap list_fmap].
  rewrite IH, Z.add_0_r. f_equal.
  rewrite <- (fmap_S_seq 0 n), <- list_fmap_compose.
  apply list_fmap_ext. intros _ i _. simpl.
  by replace (attempt + 1 + Z.of_nat i) with (attempt + Z.of_nat (S i)) by lia.
Qed.

(** A run of [fetchWithRetry]: [n] retries, then the outcome of the fetch
    of attempt [n]; a retry needs the guard of the function to pass. *)
Lemma fetchWithRetry_run methods :
  exists n : nat,
    Z.of_nat n <= Z.max 0 maxRetries /\
    fetchWithRetry upstream random request maxRetries methods
      = (retryTrace random request 0 n, upstream (Z.of_nat n)) /\
    (forall j, 0 <= j < Z.of_nat n -> retried upstream maxRetries j) /\
    ((0 < n)%nat ->
     0 < maxRetries /\
     outMethod request ∈ default ["GET"; "HEAD"; "OPTIONS"] methods).
Proof.
  unfold fetchWithRetry. cbv zeta.
  case_bool_decide as Hmax; simpl.
  { exists 0%nat. split; [lia |]. split; [done |]. split; intros; lia. }
  case_bool_decide as Hmeth; simpl.
  - destruct (retryLoop_run (Z.to_nat (maxRetries - 0)) 0 None)
      as (n & Hn & Heq & Hall & _); [lia | done |].
    exists n. rewrite Heq. simpl in *.
    split; [lia |]. split; [done |]. split; [done |]. intros _. split; [lia | done].
  - exists 0%nat. split; [lia |]. split; [done |]. split; intros; lia.
Qed.

End RetryFacts.

(** The bounds of one back-off delay. *)
Lemma backoffDelay_bounds (attempt : Z) (rnd : Q) :
  0 <= attempt -> (0 <= rnd)%Q -> (rnd < 1)%Q ->
  let base := inject_Z (Z.min (100 * 2 ^ attempt) 5000) in
  ((85 # 100) * base <= backoffDelay attempt rnd)%Q /\
  (backoffDelay attempt rnd <= (115 # 100) * base)%Q /\
  (inject_Z 100 <= backoffDelay attempt rnd)%Q.
Proof.
  intros Ha Hr0 Hr1. cbv zeta. unfold backoffDelay, baseDelay.
  assert (Hb : (inject_Z 100 <= inject_Z (Z.min (100 * 2 ^ attempt) 5000))%Q).
  { rewrite <- Zle_Qle. pose proof (Z.pow_pos_nonneg 2 attempt). lia. }
  set (B := inject_Z (Z.min (100 * 2 ^ attempt) 5000)) in *.
  change (inject_Z 100) with (100 # 1)%Q in *.
  split; [| split].
  - apply Q.max_case_strong; [intros x y Hxy Hx; by rewrite <- Hxy | |];
      intros; nra.
  - apply Q.max_case_strong; [intros x y Hxy Hx; by rewrite <- Hxy | |];
      intros; nra.
  - apply Q.le_max_r.
Qed.

(** C4, as the code has it. In a run of [fetchWithRetry] whose
    [Math.random()] values lie in [0, 1), the delay computed in iteration
    [n] of the loop (slept after attempt [n] fails, before the next
    attempt) lies within [0.85, 1.15] x min(100 * 2^n, 5000) and is at
    least 100; the run alternates fetches and these delays, and makes at
    most [max(maxRetries, 0) + 1] fetches: at most [maxRetries + 1] when
    [maxRetries] is not negative, and one when it is. *)
Theorem backoff_bounds_and_attempt_budget
    (upstream : Z -> JsError + Fetched) (random : Z -> Q)
    (request : Outbound) (maxRetries : Z) (methods : option (list string)) :
  (forall i, (0 <= random i)%Q /\ (random i < 1)%Q) ->
  let run := fetchWithRetry upstream random request maxRetries methods in
  Z.of_nat (fetches (trace run)) <= Z.max maxRetries 0 + 1 /\
  (0 <= maxRetries -> Z.of_nat (fetches (trace run)) <= maxRetries + 1) /\
  (maxRetries <= 0 -> fetches (trace run) = 1%nat) /\
  trace run
    = retryTrace random request 0 (List.length (sleeps (trace run))) /\
  forall (n : nat) (d : Q),
    sleeps (trace run) !! n = Some d ->
    d = backoffDelay (Z.of_nat n) (random (Z.of_nat n)) /\
    ((85 # 100) * inject_Z (Z.min (100 * 2 ^ Z.of_nat n) 5000) <= d)%Q /\
    (d <= (115 # 100) * inject_Z (Z.min (100 * 2 ^ Z.of_nat n) 5000))%Q /\
    (inject_Z 100 <= d)%Q.
Proof.
  intros Hrnd run.
  destruct (fetchWithRetry_run upstream random request maxRetries methods)
    as (n & Hn & Heq & _ & _).
  subst run. rewrite Heq. unfold trace. cbn [fst].
  rewrite fetches_retryTrace, sleeps_retryTrace, length_fmap, length_seq.
  split; [lia |]. split; [lia |]. split; [lia |]. split; [done |].
  intros i d Hd.
  rewrite list_lookup_fmap in Hd.
  destruct (seq 0 n !! i) as [i' |] eqn:Hi; [| done].
  apply lookup_seq in Hi as [-> _]. simpl in Hd.
  injection Hd as <-. rewrite Z.add_0_l.
  split; [done |].
  destruct (Hrnd (Z.of_nat i)) as [H0 H1].
  apply (backoffDelay_bounds (Z.of_nat i) (random (Z.of_nat i)));
    [lia | done | done].
Qed.

Lemma backoff_bounds_and_attempt_budget_witness :
  Z.of_nat (fetches (trace (fetchWithRetry flakyUpstream halfRandom
                              sampleGet 3 None))) <= Z.max 3 0 + 1.
Proof.
  apply (backoff_bounds_and_attempt_budget flakyUpstream halfRandom
           sampleGet 3 None);
    [intros i; split; [discriminate | reflexivity] | lia ..].
Defined.

(** C4, as the specification words it, fails for a negative [maxRetries]:
    the guard [maxRetries <= 0] sends the request once, without retry, and
    one fetch is more than [maxRetries + 1]. *)
Lemma negative_retry_budget_is_exceeded :
  let run := fetchWithRetry okUpstream halfRandom sampleGet (-1) None in
  fetches (trace run) = 1%nat /\
  ~ Z.of_nat (fetches (trace run)) <= -1 + 1.
Proof.
  cbv zeta.
  assert (Hone : fetches (trace (fetchWithRetry okUpstream halfRandom
                                   sampleGet (-1) None)) = 1%nat)
    by (vm_compute; reflexivity).
  split; [exact Hone |]. rewrite Hone. lia.
Qed.

(** C5. A run of [fetchWithRetry] makes a second fetch only if
    [maxRetries > 0] and the method is in [retryableMethods]; and an attempt
    that is answered with a 4xx status is the last one: its response is what
    the run returns, whatever [maxRetries] is. *)
Theorem retries_are_gated_and_4xx_is_final
    (upstream : Z -> JsError + Fetched) (random : Z -> Q)
    (request : Outbound) (maxRetries : Z) (methods : option (list string)) :
  let run := fetchWithRetry upstream random request maxRetries methods in
  ((1 < fetches (trace run))%nat ->
   0 < maxRetries /\
   outMethod request ∈ default ["GET"; "HEAD"; "OPTIONS"] methods) /\
  (forall (k : nat) response,
     (k < fetches (trace run))%nat ->
     upstream (Z.of_nat k) = inr response ->
     400 <= status response < 500 ->
     fetches (trace run) = S k /\ outcome run = inr response).
Proof.
  intros run.
  destruct (fetchWithRetry_run upstream random request maxRetries methods)
    as (n & Hn & Heq & Hall & Hgate).
  subst run. rewrite Heq. unfold trace, outcome. cbn [fst snd].
  rewrite fetches_retryTrace. split.
  - intros Hlt. apply Hgate. lia.
  - intros k response Hk Hup H4.
    destruct (decide (k = n)) as [-> | Hne]; [done |].
    assert (Hret : retried upstream maxRetries (Z.of_nat k))
      by (apply Hall; lia).
    destruct Hret as [_ Hret]. rewrite Hup in Hret. lia.
Qed.

(** ** The routing decision *)

Lemma isStreamingRequest_spec (req : Request) :
  isStreamingRequest req = true <->
  searchParamsGet "stream" (searchParams req) = Some "true" \/
  (exists accept,
     headersGet "accept" (headers req) = Some accept /\
     Js.includes accept "text/event-stream" = true) \/
  (isStreamingPath (pathname req) = true /\ method req = "POST" /\
   exists b contentType v,
     body req = Some b /\
     headersGet "content-type" (headers req) = Some contentType /\
     Js.includes contentType "application/json" = true /\
     bodyJson b = Some v /\ streamIsTrue v = inr true).
Proof.
  split.
  - unfold isStreamingRequest.
    case_bool_decide as Hq; [by left |].
    intros H. right.
    destruct (headersGet "accept" (headers req)) as [accept |] eqn:Hacc.
    1: destruct (Js.includes accept "text/event-stream") eqn:Hsse;
         [left; by exists accept |].
    all: right.
    all: destruct (isStreamingPath (pathname req)) eqn:Hpath; cbn [negb] in H;
           [| done].
    all: destruct (String.eqb_spec (method req) "POST") as [Hm | Hm];
           [| done].
    all: destruct (body req) as [b |]; [| done].
    all: destruct (headersGet "content-type" (headers req)) as [ct |];
           [| done].
    all: destruct (Js.includes ct "application/json") eqn:Hct; [| done].
    all: destruct (bodyJson b) as [v |] eqn:Hj; [| done].
    all: destruct (streamIsTrue v) as [[] | r] eqn:Hv; [done |]; subst r.
    all: split; [done |]; split; [done |]; by exists b, ct, v.
  - intros [Hq | [(accept & Ha & Hs)
                 | (Hp & Hm & b & ct & v & Hb & Hct & Hi & Hj & Hv)]];
      unfold isStreamingRequest.
    + by rewrite bool_decide_eq_true_2.
    + case_bool_decide; [done |]. by rewrite Ha, Hs.
    + case_bool_decide; [done |].
      destruct (match headersGet "accept" (headers req) with
                | Some accept => Js.includes accept "text/event-stream"
                | None => false
                end); [done |].
      by rewrite Hp, Hm, Hb, Hct, Hi, Hj, Hv.
Qed.

(** C3, as the code has it. A request is classified as streaming exactly
    when the query flag [stream=true] is present, or the [Accept] header
    contains [text/event-stream], or its path is a streaming path, its
    method is POST, it has a body, its [Content-Type] contains
    [application/json] and the JSON body has [stream === true]; a request
    classified as streaming is never forwarded to the Background. *)
Theorem streaming_classification (req : Request) :
  (isStreamingRequest req = true <->
   searchParamsGet "stream" (searchParams req) = Some "true" \/
   (exists accept,
      headersGet "accept" (headers req) = Some accept /\
      Js.includes accept "text/event-stream" = true) \/
   (isStreamingPath (pathname req) = true /\ method req = "POST" /\
    exists b contentType v,
      body req = Some b /\
      headersGet "content-type" (headers req) = Some contentType /\
      Js.includes contentType "application/json" = true /\
      bodyJson b = Some v /\ streamIsTrue v = inr true)) /\
  (forall proxy context,
     isStreamingRequest req = true ->
     shouldForward (shouldForwardToBackground req proxy context) = false).
Proof.
  split; [apply isStreamingRequest_spec |].
  intros proxy context Hs. unfold shouldForwardToBackground.
  case_bool_decide; [done |]. by rewrite Hs.
Qed.

(** C3, as the specification words it, fails: with [?stream=true] a request
    to the embeddings path, which is no streaming path, is classified as
    streaming and kept on the fast path. *)
Lemma streaming_needs_no_streaming_path :
  isStreamingRequest embeddingsStreamFlag = true /\
  isStreamingPath (pathname embeddingsStreamFlag) = false /\
  specStreaming embeddingsStreamFlag = false /\
  shouldForward
    (shouldForwardToBackground embeddingsStreamFlag openaiProxy
       embeddingsContext) = false /\
  ~ (isStreamingRequest embeddingsStreamFlag = true <->
     specStreaming embeddingsStreamFlag = true).
Proof.
  assert (H1 : isStreamingRequest embeddingsStreamFlag = true)
    by (vm_compute; reflexivity).
  assert (H2 : specStreaming embeddingsStreamFlag = false)
    by (vm_compute; reflexivity).
  split; [done |]. split; [vm_compute; reflexivity |]. split; [done |].
  split; [vm_compute; reflexivity |].
  intros [Hto _]. specialize (Hto H1). congruence.
Qed.

(** ** The dispatch controller *)

Lemma fetches_cons_background r t :
  fetches (FetchBackground r :: t) = fetches t.
Proof. reflexivity. Qed.

Section DispatchFacts.
Variable ENV : Env.
Variable PROXIES : gmap string ProxyConfig.
Variable upstream : Z -> JsError + Fetched.
Variable background : JsError + Fetched.
Variable random : Z -> Q.
Variable processingTime : string.
Variable randomUUID : string.
Variable stringifyServiceConfig : string -> ProxyConfig -> string.

Lemma trace_bind_pure {A B} (m : Run A) (k : A -> Run B) :
  (forall a, trace (k a) = []) -> trace (m ≫= k) = trace m.
Proof.
  intros Hk. destruct m as [t [e | a]]; [done |].
  unfold trace, mbind, run_bind, bind in *. specialize (Hk a).
  destruct (k a) as [t' r]. simpl in *. subst t'. apply app_nil_r.
Qed.

(** The request [handleInEdge] sends upstream. *)
Lemma handleInEdge_trace req context proxy userPath search :
  exists (request : Outbound) (n : nat),
    deadline request = edgeTimeout ENV proxy /\
    trace (handleInEdge ENV upstream random processingTime
             req context proxy userPath search)
      = retryTrace random request 0 n.
Proof.
  unfold handleInEdge. cbv zeta.
  rewrite trace_bind_pure.
  - match goal with
    | |- context [fetchWithRetry upstream random ?r ?m ?ms] =>
        destruct (fetchWithRetry_run upstream random r m ms)
          as (n & _ & Heq & _ & _);
        exists r, n; rewrite Heq
    end.
    done.
  - intros response.
    destruct (if Js.truthy _ then _ else _) as [n |]; [| done].
    by destruct (_ <? n).
Qed.

Lemma handleInEdge_fetches req context proxy userPath search :
  (0 < fetches (trace (handleInEdge ENV upstream random processingTime
                         req context proxy userPath search)))%nat.
Proof.
  destruct (handleInEdge_trace req context proxy userPath search)
    as (request & n & _ & ->).
  rewrite fetches_retryTrace. lia.
Qed.

(** What [forwardToBackground] does when the forwarding fetch rejects. *)
Lemma forwardToBackground_rejected req context proxy error :
  background = inl error ->
  forwardToBackground ENV upstream background random processingTime
    stringifyServiceConfig req context proxy
  = let handled : Run Response :=
      if String.eqb (name error) "AbortError" then
        mret (createErrorResponse ENV 504
                (Text "Background processing timeout") (reqId context)
                NoDetail)
      else if negb (bool_decide (allowFallback proxy = Some false))
              && ENABLE_FALLBACK ENV then
        handleInEdge ENV upstream random processingTime req context proxy
          (fallbackUserPath req) (search req)
      else
        mret (createErrorResponse ENV 500
                (Text "Background processing failed") (reqId context)
                NoDetail) in
    (FetchBackground (backgroundRequest stringifyServiceConfig
                        req context proxy) :: trace handled,
     outcome handled).
Proof.
  intros Hbg. unfold forwardToBackground. rewrite Hbg. cbv zeta.
  unfold tryCatch, mbind, run_bind, bind, perform, settle.
  match goal with
  | |- (let '(_, _) := ?h in _) = _ => destruct h as [t r]
  end.
  reflexivity.
Qed.

Lemma forwardToBackground_resolved req context proxy response :
  background = inr response ->
  forwardToBackground ENV upstream background random processingTime
    stringifyServiceConfig req context proxy
  = ([FetchBackground (backgroundRequest stringifyServiceConfig
                         req context proxy)],
     inr (relayBackground ENV processingTime context response)).
Proof. intros Hbg. unfold forwardToBackground. by rewrite Hbg. Qed.

End DispatchFacts.

Lemma removeFirst_eq pat s :
  removeFirst pat s =
  if String.prefix pat s
  then String.substring (String.length pat)
                        (String.length s - String.length pat) s
  else match s with
       | EmptyString => EmptyString
       | String c r => String c (removeFirst pat r)
       end.
Proof. by destruct s. Qed.

Lemma includes_eq s sub :
  Js.includes s sub =
  String.prefix sub s ||
  match s with
  | EmptyString => false
  | String _ r => Js.includes r sub
  end.
Proof. by destruct s. Qed.

(** Nothing is removed from a string that does not hold the pattern. *)
Lemma removeFirst_absent pat s :
  Js.includes s pat = false -> removeFirst pat s = s.
Proof.
  induction s as [| c r IH]; intros Habs;
    rewrite includes_eq in Habs; apply orb_false_iff in Habs as [Hpre Hrest];
    rewrite removeFirst_eq, Hpre; [done |].
  by rewrite IH.
Qed.





(** C9. Once a rejected forwarding fetch reaches the fallback decision (the
    error is no abort), the fast path is run exactly when fallback is
    enabled process-wide and [allowFallback] is not [false]; a profile with
    no [allowFallback] field falls back; otherwise the answer is the 500
    error response and no upstream fetch is made. *)
Theorem fallback_decision
    (ENV : Env) (upstream : Z -> JsError + Fetched)
    (background : JsError + Fetched) (random : Z -> Q)
    (processingTime : string)
    (stringifyServiceConfig : string -> ProxyConfig -> string)
    (req : Request) (context : RequestContext) (proxy : ProxyConfig)
    (error : JsError) :
  background = inl error ->
  name error <> "AbortError" ->
  let run := forwardToBackground ENV upstream background random
               processingTime stringifyServiceConfig req context proxy in
  let edgeRun := handleInEdge ENV upstream random processingTime
                   req context proxy (fallbackUserPath req) (search req) in
  let call := FetchBackground
                (backgroundRequest stringifyServiceConfig req context proxy) in
  ((0 < fetches (trace run))%nat <->
   ENABLE_FALLBACK ENV = true /\ allowFallback proxy <> Some false) /\
  (ENABLE_FALLBACK ENV = true /\ allowFallback proxy <> Some false ->
   run = (call :: trace edgeRun, outcome edgeRun)) /\
  (ENABLE_FALLBACK ENV = true -> allowFallback proxy = None ->
   run = (call :: trace edgeRun, outcome edgeRun)) /\
  (~ (ENABLE_FALLBACK ENV = true /\ allowFallback proxy <> Some false) ->
   run = ([call],
          inr (createErrorResponse ENV 500
                 (Text "Background processing failed") (reqId context)
                 NoDetail))).
Proof.
  intros Hbg Hname run edgeRun call. subst run.
  rewrite (forwardToBackground_rejected _ _ _ _ _ _ _ _ _ error Hbg).
  cbv zeta. apply String.eqb_neq in Hname. rewrite Hname.
  pose proof (handleInEdge_fetches ENV upstream random processingTime
                req context proxy (fallbackUserPath req) (search req))
    as Hpos.
  fold edgeRun in Hpos. fold edgeRun.
  destruct (ENABLE_FALLBACK ENV); case_bool_decide as Hallow;
    cbn [negb andb].
  - (* enabled, [allowFallback: false] *)
    split; [| split; [| split]].
    + split; [intros Hf; vm_compute in Hf; lia | intros [_ ?]; done].
    + intros [_ ?]. done.
    + intros _ Hnone. congruence.
    + done.
  - (* enabled, fallback permitted *)
    split; [| split; [| split]].
    + change (trace (?x :: ?t, ?o)) with (x :: t).
      rewrite fetches_cons_background. done.
    + done.
    + done.
    + intros Hno. exfalso. apply Hno. done.
  - (* disabled *)
    split; [| split; [| split]].
    + split; [intros Hf; vm_compute in Hf; lia | intros [? _]; done].
    + intros [? _]. done.
    + done.
    + done.
  - split; [| split; [| split]].
    + split; [intros Hf; vm_compute in Hf; lia | intros [? _]; done].
    + intros [? _]. done.
    + done.
    + done.
Qed.

Lemma fallback_decision_witness :
  (0 < fetches (trace (forwardToBackground defaultEnv okUpstream
                         (inl networkError) halfRandom "12.00"
                         sampleStringify embeddingsRequest
                         embeddingsContext openaiProxy)))%nat <->
  ENABLE_FALLBACK defaultEnv = true /\ allowFallback openaiProxy <> Some false.
Proof.
  apply (fallback_decision defaultEnv okUpstream (inl networkError)
           halfRandom "12.00" sampleStringify embeddingsRequest
           embeddingsContext openaiProxy networkError).
  - reflexivity.
  - vm_compute. discriminate.
Defined.

Lemma retryTrace_fetch random request attempt n r :
  FetchUpstream r ∈ retryTrace random request attempt n -> r = request.
Proof.
  revert attempt. induction n as [| n IH]; intros attempt; simpl.
  - intros Hin. apply list_elem_of_singleton in Hin. congruence.
  - intros Hin. apply elem_of_cons in Hin as [Heq | Hin]; [congruence |].
    apply elem_of_cons in Hin as [Heq | Hin]; [congruence |]. eauto.
Qed.

(** C6, as the code has it. The forwarding fetch to the Background function
    runs under a timer of its own, of 20000 ms whatever the profile: the
    fast-path ceiling. The deadline of the fast path,
    [min(timeout || DEFAULT_TIMEOUT, 20000)], is never larger; every
    upstream fetch of the fast path, also in a fallback, runs under it. *)
Theorem forward_deadline_is_the_edge_ceiling
    (ENV : Env) (upstream : Z -> JsError + Fetched)
    (background : JsError + Fetched) (random : Z -> Q)
    (processingTime : string)
    (stringifyServiceConfig : string -> ProxyConfig -> string)
    (req : Request) (context : RequestContext) (proxy : ProxyConfig) :
  let run := forwardToBackground ENV upstream background random
               processingTime stringifyServiceConfig req context proxy in
  (exists r rest,
     trace run = FetchBackground r :: rest /\
     deadline r = 20000 /\
     edgeTimeout ENV proxy <= deadline r /\
     (forall r', FetchBackground r' ∈ rest -> False)) /\
  edgeTimeout ENV proxy <= 20000 /\
  (forall r userPath search,
     FetchUpstream r ∈ trace (handleInEdge ENV upstream random processingTime
                                req context proxy userPath search) ->
     deadline r = edgeTimeout ENV proxy) /\
  (forall r, FetchUpstream r ∈ trace run ->
             deadline r = edgeTimeout ENV proxy).
Proof.
  intros run.
  assert (Hceil : edgeTimeout ENV proxy <= 20000)
    by (unfold edgeTimeout; lia).
  assert (Hedge : forall r userPath search,
            FetchUpstream r ∈ trace (handleInEdge ENV upstream random
                                       processingTime req context proxy
                                       userPath search) ->
            deadline r = edgeTimeout ENV proxy).
  { intros r userPath search Hin.
    destruct (handleInEdge_trace ENV upstream random processingTime
                req context proxy userPath search)
      as (request & n & Hd & Htr).
    rewrite Htr in Hin. apply retryTrace_fetch in Hin. by subst r. }
  assert (Hnobg : forall r' userPath search,
            FetchBackground r' ∈ trace (handleInEdge ENV upstream random
                                          processingTime req context proxy
                                          userPath search) -> False).
  { intros r' userPath search Hin.
    destruct (handleInEdge_trace ENV upstream random processingTime
                req context proxy userPath search)
      as (request & n & _ & Htr).
    rewrite Htr in Hin. clear Htr. revert Hin. generalize 0.
    induction n as [| n IH]; intros a Hin; simpl in Hin.
    - apply list_elem_of_singleton in Hin. discriminate.
    - apply elem_of_cons in Hin as [Heq | Hin]; [discriminate |].
      apply elem_of_cons in Hin as [Heq | Hin]; [discriminate |]. eauto. }
  subst run.
  destruct background as [error | response] eqn:Hbg.
  - rewrite (forwardToBackground_rejected _ _ _ _ _ _ _ _ _ error eq_refl).
    cbv zeta.
    split; [| split; [done | split; [done |]]].
    + eexists _, _. split; [reflexivity |]. split; [reflexivity |].
      split; [exact Hceil |].
      intros r' Hin.
      destruct (String.eqb (name error) "AbortError");
        [by apply elem_of_nil in Hin |].
      destruct (negb _ && _); [by eapply Hnobg |].
      by apply elem_of_nil in Hin.
    + intros r Hin. change (trace (?x :: ?t, ?o)) with (x :: t) in Hin.
      apply elem_of_cons in Hin as [Heq | Hin]; [discriminate |].
      destruct (String.eqb (name error) "AbortError");
        [by apply elem_of_nil in Hin |].
      destruct (negb _ && _); [by eapply Hedge |].
      by apply elem_of_nil in Hin.
  - rewrite (forwardToBackground_resolved _ _ _ _ _ _ _ _ _ response eq_refl).
    split; [| split; [done | split; [done |]]].
    + eexists _, _. split; [reflexivity |]. split; [reflexivity |].
      split; [exact Hceil |]. intros r' Hin. by apply elem_of_nil in Hin.
    + intros r Hin. change (trace (?x, ?o)) with x in Hin.
      apply list_elem_of_singleton in Hin. discriminate.
Qed.

(** C6, as the specification words it, fails: for the [openai] profile
    (timeout 120000) the fast-path deadline is 20000 ms and the deadline of
    the forwarding fetch is 20000 ms too, not larger. *)
Lemma forward_deadline_is_not_larger :
  edgeTimeout defaultEnv openaiProxy = 20000 /\
  deadline (backgroundRequest sampleStringify embeddingsRequest
              embeddingsContext openaiProxy) = 20000 /\
  ~ (edgeTimeout defaultEnv openaiProxy
     < deadline (backgroundRequest sampleStringify embeddingsRequest
                   embeddingsContext openaiProxy)) /\
  (exists rest,
     (handler defaultEnv BUILTIN_PROXIES okUpstream (inl abortError)
        halfRandom "12.00" "uuid-1" sampleStringify embeddingsRequest).1
     = FetchBackground
         (backgroundRequest sampleStringify embeddingsRequest
            embeddingsContext openaiProxy) :: rest).
Proof.
  split; [vm_compute; reflexivity |].
  split; [reflexivity |].
  split; [vm_compute; intros H; discriminate H |].
  exists []. vm_compute. reflexivity.
Qed.

(** ** Response headers *)

Lemma headersGet_set a b v (h : Headers) :
  headersGet a (headersSet b v h)
  = if String.eqb (Js.toLowerCase a) (Js.toLowerCase b) then Some v
    else headersGet a h.
Proof.
  unfold headersGet, headersSet. rewrite lookup_insert.
  destruct (String.eqb_spec (Js.toLowerCase a) (Js.toLowerCase b)) as [-> | Hne].
  - by rewrite decide_True.
  - by rewrite decide_False.
Qed.

(** Reads a header through a stack of [headersSet] with literal names. *)
Ltac read_header :=
  repeat (rewrite headersGet_set;
          match goal with
          | |- context [String.eqb (Js.toLowerCase ?a) (Js.toLowerCase ?b)] =>
              let r := eval vm_compute in
                         (String.eqb (Js.toLowerCase a) (Js.toLowerCase b)) in
              change (String.eqb (Js.toLowerCase a) (Js.toLowerCase b)) with r
          end;
          cbv iota).

Section HeaderGuarantees.
Variable ENV : Env.

Lemma cors_entries :
  map_to_list (createCorsHeaders ENV)
  = [("access-control-max-age", "86400");
     ("access-control-expose-headers",
      "Content-Type, Content-Length, X-Request-Id, X-Processing-Mode, X-Processing-Time");
     ("access-control-allow-origin", ALLOWED_ORIGIN ENV);
     ("access-control-allow-methods", CORS_METHODS);
     ("access-control-allow-headers", "*")].
Proof. vm_compute. by destruct ENV. Qed.

Lemma cors_applied (h : Headers) :
  headersSetAll (fun _ => true) (map_to_list (createCorsHeaders ENV)) h
  = headersSet "access-control-allow-headers" "*"
    (headersSet "access-control-allow-methods" CORS_METHODS
    (headersSet "access-control-allow-origin" (ALLOWED_ORIGIN ENV)
    (headersSet "access-control-expose-headers"
       "Content-Type, Content-Length, X-Request-Id, X-Processing-Mode, X-Processing-Time"
    (headersSet "access-control-max-age" "86400" h)))).
Proof. rewrite cors_entries. reflexivity. Qed.

(** The headers of an error response. *)
Lemma error_response_headers status msg reqId detail :
  let h := respHeaders (createErrorResponse ENV status msg reqId detail) in
  headersGet "Access-Control-Allow-Origin" h = Some (ALLOWED_ORIGIN ENV) /\
  headersGet "X-Request-Id" h = Some reqId.
Proof.
  cbv zeta. unfold createErrorResponse. cbn [respHeaders].
  split; read_header; reflexivity.
Qed.

(** The headers of a response relayed on the fast path. *)
Lemma edge_response_headers body status statusText upstreamHeaders
    reqId processingTime :
  let h := respHeaders
             (createStreamingResponse body status statusText
                (headersSet "X-Processing-Time" processingTime
                   (processResponseHeaders ENV upstreamHeaders reqId edge))) in
  headersGet "Access-Control-Allow-Origin" h = Some (ALLOWED_ORIGIN ENV) /\
  headersGet "X-Request-Id" h = Some reqId /\
  headersGet "X-Processing-Mode" h = Some "edge" /\
  headersGet "X-Processing-Time" h = Some processingTime.
Proof.
  cbv zeta. unfold createStreamingResponse, processResponseHeaders.
  cbn [respHeaders modeTag]. rewrite cors_applied.
  repeat split; read_header; reflexivity.
Qed.

(** The headers of a response relayed from the Background function. *)
Lemma background_response_headers processingTime context response :
  let h := respHeaders (relayBackground ENV processingTime context response) in
  headersGet "Access-Control-Allow-Origin" h = Some (ALLOWED_ORIGIN ENV) /\
  headersGet "X-Request-Id" h = Some (reqId context) /\
  headersGet "X-Processing-Mode" h = Some "background" /\
  headersGet "X-Processing-Time" h = Some processingTime.
Proof.
  cbv zeta. unfold relayBackground. cbn [respHeaders]. rewrite cors_applied.
  repeat split; read_header; reflexivity.
Qed.

End HeaderGuarantees.

Section HandlerFacts.
Variable ENV : Env.
Variable PROXIES : gmap string ProxyConfig.
Variable upstream : Z -> JsError + Fetched.
Variable background : JsError + Fetched.
Variable random : Z -> Q.
Variable processingTime : string.
Variable randomUUID : string.
Variable stringifyServiceConfig : string -> ProxyConfig -> string.

Lemma answer_headers id resp :
  Answer ENV id processingTime resp ->
  headersGet "Access-Control-Allow-Origin" (respHeaders resp)
    = Some (ALLOWED_ORIGIN ENV) /\
  headersGet "X-Request-Id" (respHeaders resp) = Some id /\
  (isErrorBody (respBody resp) = false ->
   (headersGet "X-Processing-Mode" (respHeaders resp) = Some "edge" \/
    headersGet "X-Processing-Mode" (respHeaders resp) = Some "background") /\
   headersGet "X-Processing-Time" (respHeaders resp) = Some processingTime).
Proof.
  intros [status msg detail | body status statusText up | context response Hid].
  - destruct (error_response_headers ENV status msg id detail) as [H1 H2].
    split; [done |]. split; [done |]. intros Hb. discriminate Hb.
  - destruct (edge_response_headers ENV body status statusText up id
                processingTime) as (H1 & H2 & H3 & H4).
    split; [done |]. split; [done |]. intros _. split; [by left | done].
  - destruct (background_response_headers ENV processingTime context response)
      as (H1 & H2 & H3 & H4).
    split; [done |]. split; [by rewrite <- Hid |]. intros _.
    split; [by right | done].
Qed.

Lemma handleInEdge_answer req context proxy userPath search resp :
  outcome (handleInEdge ENV upstream random processingTime
             req context proxy userPath search) = inr resp ->
  Answer ENV (reqId context) processingTime resp.
Proof.
  unfold handleInEdge. cbv zeta.
  destruct (fetchWithRetry _ _ _ _ _) as [t [e | response]]; [done |].
  unfold outcome, mbind, run_bind, bind.
  destruct (if Js.truthy _ then _ else _) as [n |].
  - destruct (_ <? n).
    + cbn. intros [= <-]. apply AnswerError.
    + cbn. intros [= <-]. apply AnswerEdge.
  - cbn. intros [= <-]. apply AnswerEdge.
Qed.

Lemma forwardToBackground_answer req context proxy resp :
  outcome (forwardToBackground ENV upstream background random processingTime
             stringifyServiceConfig req context proxy) = inr resp ->
  Answer ENV (reqId context) processingTime resp.
Proof.
  destruct background as [error | response] eqn:Hbg.
  - rewrite (forwardToBackground_rejected _ _ _ _ _ _ _ _ _ error eq_refl).
    cbv zeta. change (outcome (?t, ?o)) with o.
    destruct (String.eqb (name error) "AbortError").
    { cbn. intros [= <-]. apply AnswerError. }
    destruct (negb _ && _).
    + apply handleInEdge_answer.
    + cbn. intros [= <-]. apply AnswerError.
  - rewrite (forwardToBackground_resolved _ _ _ _ _ _ _ _ _ response eq_refl).
    cbn. intros [= <-]. by apply AnswerBackground.
Qed.

(** The [catch] of [handler] answers with an error response. *)
Lemma caught_answer id (run : Run Response) :
  (forall resp, outcome run = inr resp -> Answer ENV id processingTime resp) ->
  Answer ENV id processingTime
    (match run with
     | (t, inr response) => (t, response)
     | (t, inl error) =>
         (t, createErrorResponse ENV (errStatus (categorizeError error))
               (Text (errMessage (categorizeError error))) id
               (TypeOf (errType (categorizeError error))))
     end).2.
Proof.
  destruct run as [t [error | response]]; intros Hrun; cbn.
  - apply AnswerError.
  - by apply Hrun.
Qed.

Lemma handler_answer req :
  isHealthCheck req = false ->
  method req <> "OPTIONS" ->
  Answer ENV (getRequestId randomUUID (headers req)) processingTime
    (handler ENV PROXIES upstream background random processingTime
       randomUUID stringifyServiceConfig req).2.
Proof.
  intros Hhealth Hopt. unfold handler. cbv zeta.
  unfold isHealthCheck in Hhealth. rewrite Hhealth.
  apply String.eqb_neq in Hopt. rewrite Hopt.
  apply caught_answer. intros resp.
  destruct (pathSegments _) as [| serviceAlias [| seg segs]].
  - cbn. intros [= <-]. apply AnswerError.
  - cbn. intros [= <-]. apply AnswerError.
  - destruct (PROXIES !! serviceAlias) as [proxy |].
    + destruct (shouldForward _).
      * intros Hout. by apply forwardToBackground_answer in Hout.
      * intros Hout. by apply handleInEdge_answer in Hout.
    + cbn. intros [= <-]. apply AnswerError.
Qed.

End HandlerFacts.

(** C7, as the code has it. Every response of the handler carries the CORS
    header [Access-Control-Allow-Origin] with the configured origin; every
    response but the health check and the preflight carries the correlation
    id in [X-Request-Id]; and those of them that are no error document of
    the gateway, the responses relayed from the upstream or from the
    Background function, carry [X-Processing-Mode] ([edge] or [background])
    and [X-Processing-Time]. *)
Theorem handler_response_headers
    (ENV : Env) (PROXIES : gmap string ProxyConfig)
    (upstream : Z -> JsError + Fetched) (background : JsError + Fetched)
    (random : Z -> Q) (processingTime randomUUID : string)
    (stringifyServiceConfig : string -> ProxyConfig -> string)
    (req : Request) :
  let resp := (handler ENV PROXIES upstream background random processingTime
                 randomUUID stringifyServiceConfig req).2 in
  let h := respHeaders resp in
  headersGet "Access-Control-Allow-Origin" h = Some (ALLOWED_ORIGIN ENV) /\
  (isHealthCheck req = false -> method req <> "OPTIONS" ->
   headersGet "X-Request-Id" h
     = Some (getRequestId randomUUID (headers req)) /\
   (isErrorBody (respBody resp) = false ->
    (headersGet "X-Processing-Mode" h = Some "edge" \/
     headersGet "X-Processing-Mode" h = Some "background") /\
    headersGet "X-Processing-Time" h = Some processingTime)).
Proof.
  cbv zeta. split.
  - destruct (isHealthCheck req) eqn:Hhealth.
    { unfold handler. cbv zeta. unfold isHealthCheck in Hhealth.
      rewrite Hhealth. cbn [snd respHeaders mret run_ret ret].
      rewrite cors_applied. read_header. reflexivity. }
    destruct (String.eqb_spec (method req) "OPTIONS") as [Hopt | Hopt].
    { unfold handler. cbv zeta. unfold isHealthCheck in Hhealth.
      rewrite Hhealth, Hopt. cbn [snd respHeaders mret run_ret ret String.eqb].
      unfold createCorsHeaders. read_header. reflexivity. }
    eapply answer_headers. by apply handler_answer.
  - intros Hhealth Hopt.
    eapply answer_headers. by apply handler_answer.
Qed.

Lemma handler_response_headers_witness :
  let resp := (handler defaultEnv BUILTIN_PROXIES okUpstream
                 (inl networkError) halfRandom "12.00" "uuid-1"
                 sampleStringify embeddingsRequest).2 in
  headersGet "Access-Control-Allow-Origin" (respHeaders resp) = Some "*" /\
  headersGet "X-Request-Id" (respHeaders resp) = Some "req-42" /\
  headersGet "X-Processing-Mode" (respHeaders resp) = Some "edge" /\
  headersGet "X-Processing-Time" (respHeaders resp) = Some "12.00".
Proof.
  cbv zeta.
  destruct (handler_response_headers defaultEnv BUILTIN_PROXIES okUpstream
              (inl networkError) halfRandom "12.00" "uuid-1"
              sampleStringify embeddingsRequest) as [Hcors Hrest].
  destruct Hrest as [Hid Hmode]; [reflexivity | discriminate |].
  destruct Hmode as [Hm Ht]; [vm_compute; reflexivity |].
  split; [exact Hcors |]. split; [exact Hid |]. split; [| exact Ht].
  vm_compute. reflexivity.
Defined.

(** C7, as the specification words it, fails: the answer to a CORS
    preflight carries the CORS headers only, and the 404 for an unknown
    service carries no processing-mode tag and no processing time. *)
Lemma preflight_has_no_tracking_headers :
  let resp := (handler defaultEnv BUILTIN_PROXIES okUpstream
                 (inl networkError) halfRandom "12.00" "uuid-1"
                 sampleStringify preflightRequest).2 in
  let resp404 := (handler defaultEnv BUILTIN_PROXIES okUpstream
                    (inl networkError) halfRandom "12.00" "uuid-1"
                    sampleStringify unknownServiceRequest).2 in
  respStatus resp = 204 /\
  headersGet "X-Request-Id" (respHeaders resp) = None /\
  headersGet "X-Processing-Mode" (respHeaders resp) = None /\
  headersGet "X-Processing-Time" (respHeaders resp) = None /\
  respStatus resp404 = 404 /\
  headersGet "X-Processing-Mode" (respHeaders resp404) = None /\
  headersGet "X-Processing-Time" (respHeaders resp404) = None.
Proof. cbv zeta. repeat split; vm_compute; reflexivity. Qed.

(** ** The path sanitizer *)

Section PathFacts.

Lemma encodeComponent_cons c r :
  encodeComponent (String c r) = encodeChar c ++ encodeComponent r.
Proof.
  unfold encodeComponent.
  destruct c as [[] [] [] [] [] [] [] []]; reflexivity.
Qed.

Lemma encodeChar_shape c :
  encodeChar c = String c "" \/
  exists x y, encodeChar c = String "%" (String x (String y "")).
Proof.
  destruct c as [[] [] [] [] [] [] [] []];
    first [by left | right; eexists _, _; reflexivity].
Qed.

Lemma encodeChar_no_slash c : Js.hasChar "/" (encodeChar c) = false.
Proof. destruct c as [[] [] [] [] [] [] [] []]; reflexivity. Qed.

Lemma hasChar_app c s t :
  Js.hasChar c (s ++ t) = Js.hasChar c s || Js.hasChar c t.
Proof.
  induction s as [| a s IH]; simpl; [done |].
  by rewrite IH, orb_assoc.
Qed.

Lemma encodeComponent_no_slash s :
  Js.hasChar "/" (encodeComponent s) = false.
Proof.
  induction s as [| c r IH]; [done |].
  by rewrite encodeComponent_cons, hasChar_app, encodeChar_no_slash, IH.
Qed.

Lemma encodeComponent_empty s : encodeComponent s = "" -> s = "".
Proof.
  destruct s as [| c r]; [done |]. rewrite encodeComponent_cons.
  destruct (encodeChar_shape c) as [-> | (x & y & ->)]; discriminate.
Qed.

Lemma encodeComponent_dot s : encodeComponent s = "." -> s = ".".
Proof.
  destruct s as [| c r]; [done |]. rewrite encodeComponent_cons.
  destruct (encodeChar_shape c) as [-> | (x & y & ->)]; [| discriminate].
  simpl. intros [= -> Hr]. by rewrite (encodeComponent_empty r Hr).
Qed.

Lemma encodeComponent_dotdot s : encodeComponent s = ".." -> s = "..".
Proof.
  destruct s as [| c r]; [done |]. rewrite encodeComponent_cons.
  destruct (encodeChar_shape c) as [-> | (x & y & ->)]; [| discriminate].
  simpl. intros [= -> Hr]. by rewrite (encodeComponent_dot r Hr).
Qed.

Lemma append_cons a s t : String a s ++ t = String a (s ++ t).
Proof. reflexivity. Qed.

Lemma append_nil_r s : s ++ "" = s.
Proof. induction s as [| a s IH]; [done |]. by rewrite append_cons, IH. Qed.

Lemma append_assoc s t u : (s ++ t) ++ u = s ++ (t ++ u).
Proof. induction s as [| a s IH]; [done |]. by rewrite !append_cons, IH. Qed.

(** Splitting a string that holds no separator. *)
Lemma splitAux_free c cur s :
  Js.hasChar c s = false -> Js.splitAux c cur s = [cur ++ s].
Proof.
  revert cur. induction s as [| a s IH]; intros cur; simpl.
  - intros _. by rewrite append_nil_r.
  - intros Hfree. apply orb_false_iff in Hfree as [Ha Hs].
    rewrite Ha, IH by done. by rewrite append_assoc.
Qed.

(** Splitting at the first separator. *)
Lemma splitAux_app c cur s t :
  Js.hasChar c s = false ->
  Js.splitAux c cur (s ++ String c t) = (cur ++ s) :: Js.splitAux c "" t.
Proof.
  revert cur. induction s as [| a s IH]; intros cur Hfree.
  - change ("" ++ String c t) with (String c t). simpl.
    by rewrite Ascii.eqb_refl, append_nil_r.
  - simpl in Hfree. apply orb_false_iff in Hfree as [Ha Hs].
    rewrite append_cons. cbn [Js.splitAux]. rewrite Ha, IH by done.
    by rewrite append_assoc.
Qed.

(** [split] undoes [join] on pieces that hold no separator. *)
Lemma split_join c (l : list string) :
  l <> [] ->
  Forall (fun s => Js.hasChar c s = false) l ->
  Js.split c (Js.join (String c "") l) = l.
Proof.
  unfold Js.split. induction l as [| s l IH]; [done |].
  intros _ Hall. apply Forall_cons in Hall as [Hs Hl].
  destruct l as [| s' l'].
  - simpl. by rewrite splitAux_free.
  - change (Js.join (String c "") (s :: s' :: l'))
      with (s ++ String c "" ++ Js.join (String c "") (s' :: l')).
    change (String c "" ++ ?t) with (String c t).
    rewrite splitAux_app by done. rewrite IH by done. done.
Qed.

Lemma splitAux_pieces c cur s :
  Js.hasChar c cur = false ->
  Forall (fun x => Js.hasChar c x = false) (Js.splitAux c cur s).
Proof.
  revert cur. induction s as [| a s IH]; intros cur Hcur; simpl.
  - by apply Forall_singleton.
  - destruct (Ascii.eqb a c) eqn:Ha.
    + apply Forall_cons. split; [done |]. by apply IH.
    + apply IH. rewrite hasChar_app, Hcur. simpl. by rewrite Ha.
Qed.

Lemma pathSegments_free pathname :
  Forall (fun x => Js.hasChar "/" x = false) (pathSegments pathname).
Proof.
  unfold pathSegments, Js.split.
  pose proof (splitAux_pieces "/" "" pathname eq_refl) as Hall.
  rewrite List.Forall_forall in *. intros x Hin.
  apply List.filter_In in Hin as [Hin _]. by apply Hall.
Qed.

Lemma keepSegment_spec seg :
  keepSegment seg = true <-> seg <> "" /\ seg <> "." /\ seg <> "..".
Proof.
  unfold keepSegment. rewrite !andb_true_iff, !negb_true_iff.
  rewrite !String.eqb_neq. destruct seg as [| a r]; cbn [Js.truthy].
  - split; [intros [[? _] _]; done | intros [? _]; done].
  - split; [intros [[_ ?] ?]; done | intros (_ & ? & ?); done].
Qed.

Lemma encodeSegment_free seg :
  Js.hasChar "/" seg = false -> encodeSegment seg = encodeComponent seg.
Proof.
  intros Hfree. unfold encodeSegment, Js.split.
  by rewrite splitAux_free.
Qed.

(** The components [sanitizePath] joins: none is empty, [.] or [..], and
    none holds a slash. *)
Lemma sanitized_components parts :
  Forall (fun seg => Js.hasChar "/" seg = false) parts ->
  exists comps,
    sanitizePath parts = Js.join "/" comps /\
    comps = map encodeComponent (List.filter keepSegment parts) /\
    Forall (fun c => Js.hasChar "/" c = false
                     /\ c <> "" /\ c <> "." /\ c <> "..") comps.
Proof.
  intros Hfree. exists (map encodeComponent (List.filter keepSegment parts)).
  split; [| split; [done |]].
  - unfold sanitizePath. f_equal.
    induction parts as [| seg parts IH]; [done |].
    apply Forall_cons in Hfree as [Hseg Hparts]. simpl.
    destruct (keepSegment seg); [| by apply IH].
    simpl. by rewrite encodeSegment_free, IH.
  - clear Hfree. induction parts as [| seg parts IH]; simpl; [constructor |].
    destruct (keepSegment seg) eqn:Hkeep; [| done].
    simpl. apply Forall_cons. split; [| done].
    apply keepSegment_spec in Hkeep as (H0 & H1 & H2).
    split; [apply encodeComponent_no_slash |].
    split; [intros He; by apply encodeComponent_empty in He |].
    split; [intros He; by apply encodeComponent_dot in He |].
    intros He; by apply encodeComponent_dotdot in He.
Qed.

(** No segment of a sanitized path is a dot segment. *)
Lemma sanitized_no_dot_segment parts seg :
  Forall (fun seg => Js.hasChar "/" seg = false) parts ->
  seg ∈ Js.split "/" (sanitizePath parts) ->
  seg <> "." /\ seg <> ".." /\
  (seg = "" -> List.filter keepSegment parts = []).
Proof.
  intros Hfree Hin.
  destruct (sanitized_components parts Hfree) as (comps & Hjoin & Hdef & Hall).
  rewrite Hjoin in Hin.
  destruct comps as [| c comps].
  - simpl in Hin. apply list_elem_of_singleton in Hin. subst seg.
    split; [done |]. split; [done |]. intros _.
    symmetry in Hdef. by apply map_eq_nil in Hdef.
  - rewrite split_join in Hin; [| done |].
    + rewrite Forall_forall in Hall. destruct (Hall seg Hin) as (_ & ? & ? & ?).
      done.
    + eapply Forall_impl; [exact Hall |]. simpl. by intros x [? _].
Qed.

(** [buildUpstreamURL] strips nothing from a sanitized path. *)
Lemma dropTrailingSlash_app s t :
  t <> "" -> dropTrailingSlash (s ++ t) = s ++ dropTrailingSlash t.
Proof.
  intros Ht. induction s as [| a s IH]; [done |].
  rewrite !append_cons. cbn [dropTrailingSlash]. rewrite IH.
  destruct (s ++ t) as [| b r] eqn:Hst.
  - destruct s; [| discriminate].
    change ("" ++ t) with t in Hst. congruence.
  - by destruct a as [[] [] [] [] [] [] [] []].
Qed.

Lemma dropTrailingSlash_free s :
  Js.hasChar "/" s = false -> dropTrailingSlash s = s.
Proof.
  induction s as [| a s IH]; [done |]. simpl.
  intros Hfree. apply orb_false_iff in Hfree as [Ha Hs].
  rewrite (IH Hs).
  destruct a as [[] [] [] [] [] [] [] []]; try reflexivity.
  discriminate Ha.
Qed.

Lemma stripSlashes_join comps :
  Forall (fun c => Js.hasChar "/" c = false
                   /\ c <> "" /\ c <> "." /\ c <> "..") comps ->
  stripSlashes (Js.join "/" comps) = Js.join "/" comps.
Proof.
  intros Hall.
  assert (Hdrop : dropTrailingSlash (Js.join "/" comps) = Js.join "/" comps).
  { induction comps as [| c comps IH]; [done |].
    apply Forall_cons in Hall as [(Hc & Hne & _) Hall].
    destruct comps as [| c' comps'].
    - simpl. by apply dropTrailingSlash_free.
    - change (Js.join "/" (c :: c' :: comps'))
        with (c ++ "/" ++ Js.join "/" (c' :: comps')).
      assert (Hj : Js.join "/" (c' :: comps') <> "").
      { apply Forall_cons in Hall as [(_ & Hne' & _) _].
        destruct c' as [| x r]; [done |]. by destruct comps'. }
      rewrite dropTrailingSlash_app by done.
      rewrite (dropTrailingSlash_app "/") by done.
      by rewrite IH. }
  destruct comps as [| c comps]; [done |].
  apply Forall_cons in Hall as [(Hc & Hne & _) _].
  unfold stripSlashes.
  destruct (Js.join "/" (c :: comps)) as [| a r] eqn:Hj; [done |].
  assert (Ha : Ascii.eqb a "/" = false).
  { destruct c as [| x c]; [done |].
    assert (a = x) as ->.
    { destruct comps; simpl in Hj; [congruence |].
      rewrite append_cons in Hj. congruence. }
    simpl in Hc. by apply orb_false_iff in Hc as [? _]. }
  destruct a as [[] [] [] [] [] [] [] []]; try exact Hdrop.
  discriminate Ha.
Qed.

End PathFacts.

(** C10. [sanitizePath] keeps exactly the segments that are not empty, not
    [.] and not [..]; joined after encoding, the segments of the result
    hold no dot segment, for every list of segments (strings without a
    slash); so the user path that the handler, the fallback and the
    Background function compute holds none, whatever the path name of the
    request, and [buildUpstreamURL] embeds it as it is. *)
Theorem sanitizePath_drops_dot_segments :
  (forall parts seg,
     seg ∈ List.filter keepSegment parts <->
     seg ∈ parts /\ seg <> "" /\ seg <> "." /\ seg <> "..") /\
  (forall parts,
     Forall (fun seg => Js.hasChar "/" seg = false) parts ->
     sanitizePath parts
       = Js.join "/" (map encodeComponent (List.filter keepSegment parts)) /\
     forall seg, seg ∈ Js.split "/" (sanitizePath parts) ->
                 seg <> "." /\ seg <> "..") /\
  (forall cleanedPathname seg,
     seg ∈ Js.split "/" (userPathOf cleanedPathname) ->
     seg <> "." /\ seg <> "..") /\
  (forall cleanedPathname,
     stripSlashes (userPathOf cleanedPathname) = userPathOf cleanedPathname) /\
  userPathOf "/openai/v1/../././/chat/completions" = "v1/chat/completions".
Proof.
  split; [| split; [| split]].
  - intros parts seg. rewrite !list_elem_of_In, List.filter_In.
    rewrite keepSegment_spec. tauto.
  - intros parts Hfree. split.
    + destruct (sanitized_components parts Hfree) as (comps & Hjoin & -> & _).
      done.
    + intros seg Hin.
      destruct (sanitized_no_dot_segment parts seg Hfree Hin) as (? & ? & _).
      done.
  - intros cleanedPathname seg Hin. unfold userPathOf in Hin.
    apply sanitized_no_dot_segment in Hin as (? & ? & _); [done |].
    apply Forall_drop, pathSegments_free.
  - split; [| reflexivity].
    intros cleanedPathname. unfold userPathOf.
    destruct (sanitized_components (drop 1 (pathSegments cleanedPathname)))
      as (comps & -> & _ & Hall);
      [apply Forall_drop, pathSegments_free |].
    by apply stripSlashes_join.
Qed.

(** A segment that holds a slash is encoded piece by piece: the filter sees
    it as one segment. All callers pass segments cut at the slashes. *)
Example sanitizePath_slash_inside :
  sanitizePath ["a/../b"] = "a/../b".
Proof. reflexivity. Qed.

(** * Further properties *)

(** ** The routing decision, as a whole *)

Lemma includes_embeddings_long pathname :
  Js.includes pathname "/v1/embeddings" = true ->
  isLongRunningPath pathname = true.
Proof.
  intros H. unfold isLongRunningPath. apply existsb_exists.
  exists "/v1/embeddings". split; [| done].
  unfold LONG_RUNNING_PATHS. simpl. tauto.
Qed.

(** X1. A request goes to the Background function exactly when its method
    is none of GET, HEAD, OPTIONS, it is not a streaming request, and its
    path holds a long-running path or its [Content-Length] parses to more
    than 1048576. *)
Theorem forward_decision_characterised
    (req : Request) (proxy : ProxyConfig) (context : RequestContext) :
  shouldForward (shouldForwardToBackground req proxy context) = true <->
  (method req ∉ ["GET"; "HEAD"; "OPTIONS"]) /\
  isStreamingRequest req = false /\
  (isLongRunningPath (pathname req) = true \/
   exists contentLength size,
     headersGet "content-length" (headers req) = Some contentLength /\
     contentLength <> "" /\
     ParseInt.parseInt contentLength = Some size /\
     1048576 < size).
Proof.
  unfold shouldForwardToBackground.
  case_bool_decide as Hm; [cbn; split; [done | tauto] |].
  destruct (isStreamingRequest req); [cbn; split; [done | intros (_ & ? & _); done] |].
  fold (isLongRunningPath (pathname req)).
  destruct (isLongRunningPath (pathname req)) eqn:Hlong;
    [cbn; split; [intros _; split; [done | split; [done | by left]] | done] |].
  assert (Hemb : String.eqb (service context) "openai"
                 && Js.includes (pathname req) "/v1/embeddings" = false).
  { apply andb_false_iff. right. apply not_true_iff_false. intros He.
    apply includes_embeddings_long in He. congruence. }
  rewrite Hemb.
  destruct (headersGet "content-length" (headers req)) as [cl |] eqn:Hcl.
  - destruct (Js.truthy cl) eqn:Htruthy.
    + destruct (ParseInt.parseInt cl) as [size |] eqn:Hp.
      * destruct (Z.ltb_spec 1048576 size) as [Hlt | Hge]; cbn.
        -- split; [intros _ | done].
           split; [done |]. split; [done |]. right.
           exists cl, size. split; [done |]. split; [| done].
           intros ->. discriminate Htruthy.
        -- split; [done |].
           intros (_ & _ & [? | (cl2 & size2 & [= <-] & _ & Hp2 & Hlt)]);
             [done |].
           rewrite Hp in Hp2. injection Hp2 as <-. lia.
      * cbn. split; [done |].
        intros (_ & _ & [? | (cl2 & size2 & [= <-] & _ & Hp2 & _)]);
          [done | congruence].
    + cbn. split; [done |].
      intros (_ & _ & [? | (cl2 & size2 & [= <-] & Hne & _)]); [done |].
      destruct cl; [done | discriminate Htruthy].
  - cbn. split; [done |].
    intros (_ & _ & [? | (cl2 & size2 & ? & _)]); done.
Qed.

(** X2. The provider-specific rule for the embeddings endpoint of [openai]
    never decides: [/v1/embeddings] is a long-running path, which is tested
    before. *)
Theorem openai_rule_never_decides
    (req : Request) (proxy : ProxyConfig) (context : RequestContext) :
  reason (shouldForwardToBackground req proxy context) <> OpenAIEmbeddingsAPI.
Proof.
  unfold shouldForwardToBackground.
  case_bool_decide; [done |].
  destruct (isStreamingRequest req); [done |].
  fold (isLongRunningPath (pathname req)).
  destruct (isLongRunningPath (pathname req)) eqn:Hlong; [done |].
  assert (He : Js.includes (pathname req) "/v1/embeddings" = false).
  { apply not_true_iff_false. intros He.
    apply includes_embeddings_long in He. congruence. }
  rewrite He, andb_false_r.
  by repeat match goal with
            | |- context [match ?x with _ => _ end] => destruct x
            end.
Qed.

(** ** The error classifier *)

Lemma lowerAscii_idem c : Js.lowerAscii (Js.lowerAscii c) = Js.lowerAscii c.
Proof. destruct c as [[] [] [] [] [] [] [] []]; reflexivity. Qed.

Lemma toLowerCase_idem s : Js.toLowerCase (Js.toLowerCase s) = Js.toLowerCase s.
Proof.
  induction s as [| c r IH]; [done |]. simpl. by rewrite lowerAscii_idem, IH.
Qed.

Ltac split_conditions :=
  repeat match goal with
         | |- context [if ?b then _ else _] => destruct b eqn:?
         end.

(** X3. The classification of an error looks at its message in lower case
    only: changing the case of the message changes neither type nor
    status; an [AbortError] is a TIMEOUT whatever its message; a message
    that holds [timeout] is a TIMEOUT whatever else it holds; and the status
    is the one of the type (504, 502, 503, 413 or 500). *)
Theorem classification_by_lowercase_message (n m : string) :
  let info := categorizeError {| name := n; message := m |} in
  let lowered := categorizeError {| name := n; message := Js.toLowerCase m |} in
  errType lowered = errType info /\
  errStatus lowered = errStatus info /\
  errStatus info = statusOf (errType info) /\
  (n = "AbortError" -> errType info = TIMEOUT) /\
  (Js.includes (Js.toLowerCase m) "timeout" = true -> errType info = TIMEOUT).
Proof.
  cbv zeta. unfold categorizeError. cbn [name message].
  rewrite toLowerCase_idem.
  split; [by split_conditions |]. split; [by split_conditions |].
  split; [by split_conditions |]. split.
  - intros ->. reflexivity.
  - intros ->. by rewrite orb_true_r.
Qed.

(** ** More on the retrying fetch *)

Section RetryMore.
Variable upstream : Z -> JsError + Fetched.
Variable random : Z -> Q.
Variable request : Outbound.
Variable maxRetries : Z.

(** When the guard of [fetchWithRetry] passes, the run ends at the first
    iteration that does not retry. *)
Lemma fetchWithRetry_stops methods :
  0 < maxRetries ->
  outMethod request ∈ default ["GET"; "HEAD"; "OPTIONS"] methods ->
  exists n : nat,
    Z.of_nat n <= maxRetries /\
    fetchWithRetry upstream random request maxRetries methods
      = (retryTrace random request 0 n, upstream (Z.of_nat n)) /\
    (forall j, 0 <= j < Z.of_nat n -> retried upstream maxRetries j) /\
    ~ retried upstream maxRetries (Z.of_nat n).
Proof.
  intros Hmax Hmeth. unfold fetchWithRetry. cbv zeta.
  rewrite bool_decide_eq_false_2 by lia.
  rewrite bool_decide_eq_true_2 by done. cbn [orb negb].
  destruct (retryLoop_run upstream random request maxRetries
              (Z.to_nat (maxRetries - 0)) 0 None)
    as (n & Hn & Heq & Hall & Hlast); [lia | done |].
  exists n. rewrite Heq. rewrite !Z.add_0_l in *. done.
Qed.

(** The iteration that ends a run is determined by the answers. *)
Lemma first_final_unique methods (k : nat) :
  0 < maxRetries ->
  outMethod request ∈ default ["GET"; "HEAD"; "OPTIONS"] methods ->
  (forall j, 0 <= j < Z.of_nat k -> retried upstream maxRetries j) ->
  ~ retried upstream maxRetries (Z.of_nat k) ->
  fetchWithRetry upstream random request maxRetries methods
    = (retryTrace random request 0 k, upstream (Z.of_nat k)).
Proof.
  intros Hmax Hmeth Hbefore Hlast.
  destruct (fetchWithRetry_stops methods Hmax Hmeth)
    as (n & Hn & Heq & Hall & Hstop).
  rewrite Heq.
  destruct (Nat.lt_trichotomy n k) as [Hlt | [-> | Hgt]]; [| done |].
  - exfalso. apply Hstop. apply Hbefore. lia.
  - exfalso. apply Hlast. apply Hall. lia.
Qed.

End RetryMore.

(** X4. Whatever the answers, a run of [fetchWithRetry] makes at least one
    fetch, sleeps once between two fetches, and ends with the outcome of
    its last fetch: the response it returns or the error it throws is the
    one that fetch gave. *)
Theorem retry_outcome_is_last_fetch
    (upstream : Z -> JsError + Fetched) (random : Z -> Q)
    (request : Outbound) (maxRetries : Z) (methods : option (list string)) :
  let run := fetchWithRetry upstream random request maxRetries methods in
  (1 <= fetches (trace run))%nat /\
  List.length (sleeps (trace run)) = (fetches (trace run) - 1)%nat /\
  outcome run = upstream (Z.of_nat (fetches (trace run) - 1)).
Proof.
  intros run.
  destruct (fetchWithRetry_run upstream random request maxRetries methods)
    as (n & _ & Heq & _ & _).
  subst run. rewrite Heq. unfold trace, outcome. cbn [fst snd].
  rewrite fetches_retryTrace, sleeps_retryTrace, length_fmap, length_seq.
  replace (S n - 1)%nat with n by lia. split; [lia | done].
Qed.

(** X5. When retries apply and every attempt up to [maxRetries] is answered
    with a status of 500 or more, the run makes [maxRetries + 1] fetches and
    returns the last response itself: exhaustion on 5xx is no exception. *)
Theorem exhausted_5xx_is_returned
    (upstream : Z -> JsError + Fetched) (random : Z -> Q)
    (request : Outbound) (maxRetries : Z) (methods : option (list string))
    (answers : Z -> Fetched) :
  0 < maxRetries ->
  outMethod request ∈ default ["GET"; "HEAD"; "OPTIONS"] methods ->
  (forall j, 0 <= j <= maxRetries ->
             upstream j = inr (answers j) /\ 500 <= status (answers j)) ->
  let run := fetchWithRetry upstream random request maxRetries methods in
  fetches (trace run) = Z.to_nat (maxRetries + 1) /\
  List.length (sleeps (trace run)) = Z.to_nat maxRetries /\
  outcome run = inr (answers maxRetries).
Proof.
  intros Hmax Hmeth Hall run. subst run.
  rewrite (first_final_unique upstream random request maxRetries methods
             (Z.to_nat maxRetries)); try done.
  - unfold trace, outcome. cbn [fst snd].
    rewrite fetches_retryTrace, sleeps_retryTrace, length_fmap, length_seq.
    rewrite Z2Nat.id by lia.
    split; [lia |]. split; [done |]. apply Hall. lia.
  - intros j Hj. destruct (Hall j) as [Hup H5]; [lia |].
    unfold retried. rewrite Hup. lia.
  - unfold retried. lia.
Qed.

Lemma exhausted_5xx_is_returned_witness :
  outcome (fetchWithRetry
             (fun _ => inr {| status := 503; statusText := "Busy";
                              fetchedHeaders := ∅; fetchedBody := None |})
             halfRandom sampleGet 2 None)
  = inr {| status := 503; statusText := "Busy";
           fetchedHeaders := ∅; fetchedBody := None |}.
Proof.
  apply (exhausted_5xx_is_returned
           (fun _ => inr {| status := 503; statusText := "Busy";
                            fetchedHeaders := ∅; fetchedBody := None |})
           halfRandom sampleGet 2 None
           (fun _ => {| status := 503; statusText := "Busy";
                        fetchedHeaders := ∅; fetchedBody := None |})).
  - lia.
  - vm_compute. set_solver.
  - intros j _. split; [reflexivity | simpl; lia].
Defined.

(** X6. When retries apply, the run ends at the first attempt that is not
    retried: one answered with a status under 500, one that throws an error
    whose message holds none of the retryable words, or attempt
    [maxRetries]; the attempts before it are each followed by one delay. *)
Theorem retry_stops_at_first_final
    (upstream : Z -> JsError + Fetched) (random : Z -> Q)
    (request : Outbound) (maxRetries : Z) (methods : option (list string))
    (k : nat) :
  0 < maxRetries ->
  outMethod request ∈ default ["GET"; "HEAD"; "OPTIONS"] methods ->
  Z.of_nat k <= maxRetries ->
  (forall j, 0 <= j < Z.of_nat k ->
     match upstream j with
     | inr response => 500 <= status response
     | inl error => isRetryableError error = true
     end) ->
  (Z.of_nat k = maxRetries \/
   match upstream (Z.of_nat k) with
   | inr response => status response < 500
   | inl error => isRetryableError error = false
   end) ->
  let run := fetchWithRetry upstream random request maxRetries methods in
  trace run = retryTrace random request 0 k /\
  fetches (trace run) = S k /\
  outcome run = upstream (Z.of_nat k).
Proof.
  intros Hmax Hmeth Hk Hbefore Hlast run. subst run.
  rewrite (first_final_unique upstream random request maxRetries methods k);
    try done.
  - unfold trace, outcome. cbn [fst snd]. by rewrite fetches_retryTrace.
  - intros j Hj. split; [lia |]. by apply Hbefore.
  - intros [Hlt Hret]. destruct Hlast as [? | Hlast]; [lia |].
    destruct (upstream (Z.of_nat k)); [congruence | lia].
Qed.

Lemma retry_stops_at_first_final_witness :
  fetches (trace (fetchWithRetry flakyUpstream halfRandom sampleGet 5 None))
  = 3%nat.
Proof.
  apply (retry_stops_at_first_final flakyUpstream halfRandom sampleGet 5 None 2).
  - lia.
  - vm_compute. set_solver.
  - lia.
  - intros j Hj. unfold flakyUpstream.
    destruct (Z.ltb_spec j 2); [simpl; lia | lia].
  - right. vm_compute. reflexivity.
Defined.

Lemma totalSleep_bound (delays : list Q) :
  Forall (fun d => (d <= inject_Z 5750)%Q) delays ->
  (totalSleep delays <= inject_Z (5750 * Z.of_nat (List.length delays)))%Q.
Proof.
  induction 1 as [| d delays Hd Hall IH]; [by vm_compute |].
  cbn [List.length]. rewrite Nat2Z.inj_succ, Z.mul_succ_r, inject_Z_plus.
  change (totalSleep (d :: delays)) with (d + totalSleep delays)%Q.
  lra.
Qed.

(** X7. With [Math.random()] in [0, 1) and [maxRetries >= 0], the delays of
    a run of [fetchWithRetry] add up to at most [5750 * maxRetries]
    milliseconds. *)
Theorem total_backoff_is_bounded
    (upstream : Z -> JsError + Fetched) (random : Z -> Q)
    (request : Outbound) (maxRetries : Z) (methods : option (list string)) :
  (forall i, (0 <= random i)%Q /\ (random i < 1)%Q) ->
  0 <= maxRetries ->
  let run := fetchWithRetry upstream random request maxRetries methods in
  (totalSleep (sleeps (trace run)) <= inject_Z (5750 * maxRetries))%Q.
Proof.
  intros Hrnd Hmax run.
  destruct (fetchWithRetry_run upstream random request maxRetries methods)
    as (n & Hn & Heq & _ & _).
  subst run. rewrite Heq. unfold trace. cbn [fst].
  rewrite sleeps_retryTrace.
  eapply Qle_trans; [apply totalSleep_bound |].
  - apply Forall_fmap, Forall_forall. intros i _. simpl.
    destruct (Hrnd (0 + Z.of_nat i)) as [H0 H1].
    destruct (backoffDelay_bounds (0 + Z.of_nat i) (random (0 + Z.of_nat i)))
      as (_ & Hup & _); [lia | done | done |].
    assert (Hcap : (inject_Z (Z.min (100 * 2 ^ (0 + Z.of_nat i)) 5000)
                    <= inject_Z 5000)%Q) by (rewrite <- Zle_Qle; lia).
    change (inject_Z 5750) with (5750 # 1)%Q.
    change (inject_Z 5000) with (5000 # 1)%Q in Hcap.
    lra.
  - rewrite length_fmap, length_seq. rewrite <- Zle_Qle. lia.
Qed.

Lemma total_backoff_is_bounded_witness :
  (totalSleep (sleeps (trace (fetchWithRetry flakyUpstream halfRandom
                                sampleGet 3 None)))
   <= inject_Z (5750 * 3))%Q.
Proof.
  apply (total_backoff_is_bounded flakyUpstream halfRandom sampleGet 3 None).
  - intros i. split; [discriminate | reflexivity].
  - lia.
Defined.

(** ** More on the streaming governor *)

Lemma readable_all chunks :
  readable (Enqueue <$> chunks) = {| emitted := chunks; failure := None |}.
Proof.
  induction chunks as [| c cs IH]; [done |].
  rewrite fmap_cons. cbn [readable]. by rewrite IH.
Qed.

(** X8. A body whose size does not exceed [maxSize], also one of exactly
    [maxSize] bytes, passes the governor unchanged: every chunk is
    enqueued, in order, and the stream is not errored. *)
Theorem governor_passes_body_within_limit
    (maxSize : Z) (reqId : string) (chunks : list Chunk) :
  totalSize chunks <= maxSize ->
  createSizeLimitedStream maxSize reqId chunks = Enqueue <$> chunks /\
  pipeThrough maxSize reqId chunks = {| emitted := chunks; failure := None |}.
Proof.
  intros Hle.
  assert (Hcalls : createSizeLimitedStream maxSize reqId chunks
                   = Enqueue <$> chunks).
  { unfold createSizeLimitedStream.
    rewrite (feed_within maxSize reqId freshBudget chunks); done. }
  split; [done |]. unfold pipeThrough. rewrite Hcalls. apply readable_all.
Qed.

Lemma governor_passes_body_within_limit_witness :
  pipeThrough 4 "req-1" [[Byte.x01; Byte.x02]; [Byte.x03; Byte.x04]]
  = {| emitted := [[Byte.x01; Byte.x02]; [Byte.x03; Byte.x04]];
       failure := None |}.
Proof.
  apply (governor_passes_body_within_limit 4 "req-1"
           [[Byte.x01; Byte.x02]; [Byte.x03; Byte.x04]]).
  vm_compute. discriminate.
Defined.

Lemma feed_readable maxSize reqId chunks : forall st,
  aborted st = false ->
  totalBytes st <= maxSize ->
  let s := readable (feed maxSize reqId st chunks).2 in
  emitted s `prefix_of` chunks /\
  totalBytes st + totalSize (emitted s) <= maxSize /\
  (failure s = None <-> totalBytes st + totalSize chunks <= maxSize) /\
  (failure s = None -> emitted s = chunks).
Proof.
  induction chunks as [| c cs IH]; intros [tb ab] Hab Hle; simpl in *; subst ab.
  - split; [done |]. split; [lia |]. split; [| done]. split; [lia | done].
  - unfold transform. cbn [aborted totalBytes].
    pose proof (totalSize_nonneg cs) as Hcs.
    destruct (Z.ltb_spec maxSize (tb + byteLength c)) as [Hlt | Hge].
    + rewrite feed_aborted by done. cbn.
      split; [apply prefix_nil |]. split; [lia |].
      split; [| done]. split; [done | lia].
    + specialize (IH {| totalBytes := tb + byteLength c; aborted := false |}
                     eq_refl Hge).
      cbn [totalBytes] in IH.
      destruct (feed maxSize reqId _ cs) as [st2 calls2]. cbn [snd] in *.
      cbn [app readable emitted failure].
      destruct IH as (Hpre & Hbound & Hiff & Hall).
      split; [by apply prefix_cons |].
      split; [rewrite totalSize_cons; lia |].
      split; [rewrite Hiff; lia |].
      intros Hnone. by rewrite Hall.
Qed.

(** X9. For a limit that is not negative and any body, what the governor
    lets through is a prefix of the body of at most [maxSize] bytes; the
    stream is errored exactly when the body is larger than [maxSize], and
    otherwise the whole body is let through. *)
Theorem governor_output_is_bounded_prefix
    (maxSize : Z) (reqId : string) (chunks : list Chunk) :
  0 <= maxSize ->
  let s := pipeThrough maxSize reqId chunks in
  emitted s `prefix_of` chunks /\
  totalSize (emitted s) <= maxSize /\
  (failure s = None <-> totalSize chunks <= maxSize) /\
  (failure s = None -> emitted s = chunks).
Proof.
  intros Hmax.
  apply (feed_readable maxSize reqId chunks freshBudget eq_refl Hmax).
Qed.

Lemma governor_output_is_bounded_prefix_witness :
  totalSize (emitted (pipeThrough 5 "req-1"
                        [[Byte.x01; Byte.x02]; [Byte.x03; Byte.x04];
                         [Byte.x05; Byte.x06]])) <= 5.
Proof.
  apply (governor_output_is_bounded_prefix 5 "req-1"
           [[Byte.x01; Byte.x02]; [Byte.x03; Byte.x04]; [Byte.x05; Byte.x06]]).
  lia.
Defined.

(** ** The fast path *)

Section EdgeMore.
Variable ENV : Env.
Variable upstream : Z -> JsError + Fetched.
Variable random : Z -> Q.
Variable processingTime : string.

(** A first attempt that is not retried ends the run. *)
Lemma first_attempt_final request maxRetries methods :
  ~ match upstream 0 with
    | inr response => 500 <= status response
    | inl error => isRetryableError error = true
    end ->
  fetchWithRetry upstream random request maxRetries methods
    = ([FetchUpstream request], upstream 0).
Proof.
  intros Hfinal.
  destruct (fetchWithRetry_run upstream random request maxRetries methods)
    as (n & _ & Heq & Hall & _).
  rewrite Heq. destruct n as [| n]; [done |].
  exfalso. apply Hfinal. destruct (Hall 0) as [_ H]; [lia | done].
Qed.

(** [handleInEdge] once the first attempt is answered under 500. *)
Lemma handleInEdge_answered req context proxy userPath search response :
  upstream 0 = inr response ->
  status response < 500 ->
  handleInEdge ENV upstream random processingTime
    req context proxy userPath search
  = let contentLength :=
      headersGet "content-length" (fetchedHeaders response) in
    let declared := Js.truthy (orString contentLength "") in
    let rest : Run Response :=
      match (if declared then ParseInt.parseInt (orString contentLength "")
             else None) with
      | Some n =>
          if maxSizeOf ENV proxy <? n
          then mret (createErrorResponse ENV 413
                       (ResponseSize n (maxSizeOf ENV proxy))
                       (reqId context) NoDetail)
          else relayUpstream ENV processingTime context response declared
                 (maxSizeOf ENV proxy)
      | None => relayUpstream ENV processingTime context response declared
                  (maxSizeOf ENV proxy)
      end in
    ([FetchUpstream (edgeRequest ENV req context proxy userPath search)],
     outcome rest).
Proof.
  intros Hup Hst. unfold handleInEdge. cbv zeta.
  rewrite first_attempt_final by (rewrite Hup; lia).
  rewrite Hup. unfold mbind, run_bind, bind, maxSizeOf, edgeRequest.
  destruct (if Js.truthy _ then _ else _) as [n |]; [| done].
  by destruct (_ <? n).
Qed.

End EdgeMore.

(** X10. When the upstream answers the first attempt (status under 500)
    with a [Content-Length] that parses to more than the limit of the
    profile, the fast path makes that one fetch and answers 413 with an
    error document: no byte of the body is relayed. *)
Theorem declared_oversize_is_refused
    (ENV : Env) (upstream : Z -> JsError + Fetched) (random : Z -> Q)
    (processingTime : string)
    (req : Request) (context : RequestContext) (proxy : ProxyConfig)
    (userPath search : string) (response : Fetched)
    (contentLength : string) (n : Z) :
  upstream 0 = inr response ->
  status response < 500 ->
  headersGet "content-length" (fetchedHeaders response) = Some contentLength ->
  ParseInt.parseInt contentLength = Some n ->
  maxSizeOf ENV proxy < n ->
  handleInEdge ENV upstream random processingTime
    req context proxy userPath search
  = ([FetchUpstream (edgeRequest ENV req context proxy userPath search)],
     inr (createErrorResponse ENV 413 (ResponseSize n (maxSizeOf ENV proxy))
            (reqId context) NoDetail)).
Proof.
  intros Hup Hst Hcl Hparse Hover.
  rewrite (handleInEdge_answered ENV upstream random processingTime
             req context proxy userPath search response Hup Hst).
  cbv zeta. rewrite Hcl.
  assert (Hne : Js.truthy contentLength = true).
  { destruct contentLength; [| done]. vm_compute in Hparse. discriminate. }
  unfold orString. rewrite Hne, Hne, Hparse.
  destruct (Z.ltb_spec (maxSizeOf ENV proxy) n); [done | lia].
Qed.

Lemma declared_oversize_is_refused_witness :
  handleInEdge defaultEnv (declaringUpstream "5") halfRandom "12.00"
    modelsRequest modelsContext tinyLimitProxy "v1/models" ""
  = ([FetchUpstream (edgeRequest defaultEnv modelsRequest modelsContext
                       tinyLimitProxy "v1/models" "")],
     inr (createErrorResponse defaultEnv 413 (ResponseSize 5 4)
            "req-42" NoDetail)).
Proof.
  apply (declared_oversize_is_refused defaultEnv (declaringUpstream "5")
           halfRandom "12.00" modelsRequest modelsContext tinyLimitProxy
           "v1/models" "" (declaringAnswer "5") "5" 5).
  - reflexivity.
  - simpl. lia.
  - reflexivity.
  - reflexivity.
  - vm_compute. reflexivity.
Defined.

(** X11. When the upstream answers the first attempt (status under 500)
    and its declared length is not over the limit, the fast path relays
    status and body; the governor is put on the body exactly when no
    [Content-Length] is declared and the limit is positive. A body whose
    declared length is within the limit, or does not parse, is relayed
    whole, whatever its real size. *)
Theorem governor_applies_to_undeclared_length
    (ENV : Env) (upstream : Z -> JsError + Fetched) (random : Z -> Q)
    (processingTime : string)
    (req : Request) (context : RequestContext) (proxy : ProxyConfig)
    (userPath search : string) (response : Fetched) :
  upstream 0 = inr response ->
  status response < 500 ->
  let contentLength :=
    orString (headersGet "content-length" (fetchedHeaders response)) "" in
  (forall n, ParseInt.parseInt contentLength = Some n ->
             n <= maxSizeOf ENV proxy) ->
  exists resp,
    outcome (handleInEdge ENV upstream random processingTime
               req context proxy userPath search) = inr resp /\
    respStatus resp = status response /\
    respBody resp =
      match fetchedBody response with
      | None => BodyNull
      | Some chunks =>
          if bool_decide (contentLength = "") && (0 <? maxSizeOf ENV proxy)
          then BodyBytes (pipeThrough (maxSizeOf ENV proxy) (reqId context)
                            chunks)
          else BodyBytes {| emitted := chunks; failure := None |}
      end.
Proof.
  intros Hup Hst contentLength Hwithin.
  rewrite (handleInEdge_answered ENV upstream random processingTime
             req context proxy userPath search response Hup Hst).
  cbv zeta. fold contentLength.
  assert (Hrelay : forall declared,
            declared = Js.truthy contentLength ->
            exists resp,
              outcome (relayUpstream ENV processingTime context response
                         declared (maxSizeOf ENV proxy)) = inr resp /\
              respStatus resp = status response /\
              respBody resp =
                match fetchedBody response with
                | None => BodyNull
                | Some chunks =>
                    if bool_decide (contentLength = "")
                       && (0 <? maxSizeOf ENV proxy)
                    then BodyBytes (pipeThrough (maxSizeOf ENV proxy)
                                      (reqId context) chunks)
                    else BodyBytes {| emitted := chunks; failure := None |}
                end).
  { intros declared ->. eexists. split; [reflexivity |]. split; [done |].
    cbn [respBody createStreamingResponse].
    destruct (fetchedBody response) as [chunks |]; [| done].
    destruct contentLength; [by rewrite bool_decide_eq_true_2 |].
    by rewrite bool_decide_eq_false_2. }
  destruct (Js.truthy contentLength) eqn:Htruthy.
  - destruct (ParseInt.parseInt contentLength) as [n |] eqn:Hparse.
    + specialize (Hwithin n eq_refl).
      destruct (Z.ltb_spec (maxSizeOf ENV proxy) n); [lia |].
      cbn [outcome snd]. by apply Hrelay.
    + cbn [outcome snd]. by apply Hrelay.
  - cbn [outcome snd]. by apply Hrelay.
Qed.

Lemma governor_applies_to_undeclared_length_witness :
  exists resp,
    outcome (handleInEdge defaultEnv (declaringUpstream "3") halfRandom
               "12.00" modelsRequest modelsContext tinyLimitProxy
               "v1/models" "") = inr resp /\
    respStatus resp = 200 /\
    respBody resp
      = BodyBytes {| emitted := [[Byte.x01; Byte.x02; Byte.x03];
                                 [Byte.x04; Byte.x05]];
                     failure := None |}.
Proof.
  apply (governor_applies_to_undeclared_length defaultEnv
           (declaringUpstream "3") halfRandom "12.00" modelsRequest
           modelsContext tinyLimitProxy "v1/models" ""
           (declaringAnswer "3") eq_refl).
  - simpl. lia.
  - intros n Hn. vm_compute in Hn. injection Hn as <-. vm_compute.
    discriminate.
Defined.

(** ** The handler, end to end *)

Section HandlerMore.
Variable ENV : Env.
Variable PROXIES : gmap string ProxyConfig.
Variable upstream : Z -> JsError + Fetched.
Variable background : JsError + Fetched.
Variable random : Z -> Q.
Variable processingTime : string.
Variable randomUUID : string.
Variable stringifyServiceConfig : string -> ProxyConfig -> string.

Lemma forwards_retryTrace request attempt n :
  forwards (retryTrace random request attempt n) = 0%nat.
Proof.
  revert attempt. induction n as [| n IH]; intros attempt; [done |].
  unfold forwards in *. simpl. apply IH.
Qed.

Lemma handleInEdge_forwards req context proxy userPath search :
  forwards (trace (handleInEdge ENV upstream random processingTime
                     req context proxy userPath search)) = 0%nat.
Proof.
  destruct (handleInEdge_trace ENV upstream random processingTime
              req context proxy userPath search) as (r & n & _ & ->).
  apply forwards_retryTrace.
Qed.

Lemma forwardToBackground_forwards req context proxy :
  forwards (trace (forwardToBackground ENV upstream background random
                     processingTime stringifyServiceConfig
                     req context proxy)) = 1%nat.
Proof.
  destruct background as [error | response] eqn:Hbg.
  - rewrite (forwardToBackground_rejected _ _ _ _ _ _ _ _ _ error eq_refl).
    cbv zeta. change (trace (?x :: ?t, ?o)) with (x :: t).
    change (forwards (FetchBackground ?r :: ?t)) with (S (forwards t)).
    f_equal.
    destruct (String.eqb (name error) "AbortError"); [done |].
    destruct (negb _ && _); [apply handleInEdge_forwards | done].
  - by rewrite (forwardToBackground_resolved _ _ _ _ _ _ _ _ _ response eq_refl).
Qed.

(** The run [handler] wraps in its [try], for a request that is no health
    check and no preflight. *)
Lemma handler_dispatch req :
  isHealthCheck req = false ->
  method req <> "OPTIONS" ->
  handler ENV PROXIES upstream background random processingTime
    randomUUID stringifyServiceConfig req
  = let reqId := getRequestId randomUUID (headers req) in
    let run : Run Response :=
      match pathSegments (cleanedPathname req) with
      | serviceAlias :: ((_ :: _) as pathSegments) =>
          match PROXIES !! serviceAlias with
          | None =>
              mret (createErrorResponse ENV 404
                      (Text ("Service '" ++ serviceAlias ++ "' not found"))
                      reqId (Services (availableServices PROXIES) None))
          | Some proxy =>
              let context :=
                {| reqId := reqId; service := serviceAlias;
                   ctxMethod := method req; path := pathname req;
                   ip := getClientIp (headers req) |} in
              if shouldForward (shouldForwardToBackground req proxy context)
              then forwardToBackground ENV upstream background random
                     processingTime stringifyServiceConfig req context proxy
              else handleInEdge ENV upstream random processingTime
                     req context proxy (sanitizePath pathSegments) (search req)
          end
      | _ =>
          mret (createErrorResponse ENV 400
                  (Text "Invalid path format. Expected: /gateway/{service}/{path}")
                  reqId
                  (Services (availableServices PROXIES)
                     (Some "/gateway/openai/v1/chat/completions")))
      end in
    match run with
    | (t, inr response) => (t, response)
    | (t, inl error) =>
        (t, createErrorResponse ENV (errStatus (categorizeError error))
              (Text (errMessage (categorizeError error))) reqId
              (TypeOf (errType (categorizeError error))))
    end.
Proof.
  intros Hhealth Hopt. unfold handler. cbv zeta.
  unfold isHealthCheck in Hhealth. rewrite Hhealth.
  apply String.eqb_neq in Hopt. rewrite Hopt. reflexivity.
Qed.

End HandlerMore.

Lemma handleInEdge_rejected
    (ENV : Env) (upstream : Z -> JsError + Fetched) (random : Z -> Q)
    (processingTime : string) req context proxy userPath search e :
  (forall j, upstream j = inl e) ->
  outcome (handleInEdge ENV upstream random processingTime
             req context proxy userPath search) = inl e.
Proof.
  intros Hall. unfold handleInEdge. cbv zeta.
  match goal with
  | |- context [fetchWithRetry upstream random ?r ?m ?ms] =>
      destruct (fetchWithRetry_run upstream random r m ms)
        as (n & _ & Heq & _ & _); rewrite Heq
  end.
  by rewrite Hall.
Qed.

Lemma get_or_head (m : string) :
  m ∈ ["GET"; "HEAD"] ->
  m <> "OPTIONS" /\ m ∈ ["GET"; "HEAD"; "OPTIONS"].
Proof.
  intros H. apply elem_of_cons in H as [-> | H].
  - split; [done | by left].
  - apply elem_of_cons in H as [-> | H]; [| by apply elem_of_nil in H].
    split; [done | by right; left].
Qed.

(** X12. A GET or HEAD request for a configured service whose upstream
    fetches all reject with the same error is answered by the handler with
    the error response of that error's classification (status, message,
    type, the request's correlation id); the Background function is not
    called. *)
Theorem upstream_failure_is_classified
    (ENV : Env) (PROXIES : gmap string ProxyConfig)
    (upstream : Z -> JsError + Fetched) (background : JsError + Fetched)
    (random : Z -> Q) (processingTime randomUUID : string)
    (stringifyServiceConfig : string -> ProxyConfig -> string)
    (req : Request) (alias seg : string) (segs : list string)
    (proxy : ProxyConfig) (e : JsError) :
  isHealthCheck req = false ->
  method req ∈ ["GET"; "HEAD"] ->
  pathSegments (cleanedPathname req) = alias :: seg :: segs ->
  PROXIES !! alias = Some proxy ->
  (forall j, upstream j = inl e) ->
  let out := handler ENV PROXIES upstream background random processingTime
               randomUUID stringifyServiceConfig req in
  out.2 = createErrorResponse ENV (errStatus (categorizeError e))
            (Text (errMessage (categorizeError e)))
            (getRequestId randomUUID (headers req))
            (TypeOf (errType (categorizeError e))) /\
  forwards out.1 = 0%nat /\
  (1 <= fetches out.1)%nat.
Proof.
  intros Hhealth Hmeth Hsegs Hproxy Hall out.
  apply get_or_head in Hmeth as [Hopt Hmeth].
  assert (Hout : exists t,
            out = (t, createErrorResponse ENV (errStatus (categorizeError e))
                        (Text (errMessage (categorizeError e)))
                        (getRequestId randomUUID (headers req))
                        (TypeOf (errType (categorizeError e)))) /\
            forwards t = 0%nat /\ (0 < fetches t)%nat).
  { subst out. rewrite handler_dispatch by done.
    cbv zeta. rewrite Hsegs, Hproxy.
    unfold shouldForwardToBackground.
    rewrite bool_decide_eq_true_2 by done. cbn [shouldForward].
    match goal with
    | |- context [handleInEdge ENV upstream random processingTime
                    req ?c proxy ?u ?s] =>
        pose proof (handleInEdge_rejected ENV upstream random processingTime
                      req c proxy u s e Hall) as Hout;
        pose proof (handleInEdge_forwards ENV upstream random processingTime
                      req c proxy u s) as Hfw;
        pose proof (handleInEdge_fetches ENV upstream random processingTime
                      req c proxy u s) as Hft;
        destruct (handleInEdge ENV upstream random processingTime
                    req c proxy u s) as [t [e' | resp]]
    end; [| discriminate Hout].
    unfold outcome in Hout. cbn [snd] in Hout. injection Hout as ->.
    by exists t. }
  destruct Hout as (t & -> & Hfw & Hft). cbn [fst snd].
  split; [done |]. split; [done | lia].
Qed.

Lemma upstream_failure_is_classified_witness :
  (handler defaultEnv BUILTIN_PROXIES (failingUpstream networkError)
     (inl networkError) halfRandom "12.00" "uuid-1" sampleStringify
     modelsRequest).2
  = createErrorResponse defaultEnv (errStatus (categorizeError networkError))
      (Text (errMessage (categorizeError networkError)))
      (getRequestId "uuid-1" (headers modelsRequest))
      (TypeOf (errType (categorizeError networkError))).
Proof.
  apply (upstream_failure_is_classified defaultEnv BUILTIN_PROXIES
           (failingUpstream networkError) (inl networkError) halfRandom
           "12.00" "uuid-1" sampleStringify modelsRequest
           "openai" "v1" ["models"] openaiProxy networkError).
  - reflexivity.
  - by left.
  - vm_compute. reflexivity.
  - vm_compute. reflexivity.
  - intros j. reflexivity.
Defined.




(** X14. Whatever the request and the answers, the handler calls the
    Background function at most once; it does not call it for a GET, HEAD
    or OPTIONS request, nor for a request classified as streaming. *)
Theorem long_path_is_called_at_most_once
    (ENV : Env) (PROXIES : gmap string ProxyConfig)
    (upstream : Z -> JsError + Fetched) (background : JsError + Fetched)
    (random : Z -> Q) (processingTime randomUUID : string)
    (stringifyServiceConfig : string -> ProxyConfig -> string)
    (req : Request) :
  let out := handler ENV PROXIES upstream background random processingTime
               randomUUID stringifyServiceConfig req in
  (forwards out.1 <= 1)%nat /\
  (method req ∈ ["GET"; "HEAD"; "OPTIONS"] \/ isStreamingRequest req = true ->
   forwards out.1 = 0%nat).
Proof.
  cbv zeta.
  destruct (isHealthCheck req) eqn:Hhealth.
  { unfold handler. cbv zeta. unfold isHealthCheck in Hhealth.
    rewrite Hhealth. split; [cbn; lia | done]. }
  destruct (String.eqb_spec (method req) "OPTIONS") as [Hopt | Hopt].
  { unfold handler. cbv zeta. unfold isHealthCheck in Hhealth.
    rewrite Hhealth, Hopt. split; [cbn; lia | done]. }
  rewrite handler_dispatch by done. cbv zeta.
  destruct (pathSegments (cleanedPathname req)) as [| alias [| seg segs]];
    [split; [cbn; lia | done] | split; [cbn; lia | done] |].
  destruct (PROXIES !! alias) as [proxy |]; [| split; [cbn; lia | done]].
  match goal with
  | |- context [shouldForwardToBackground req proxy ?c] => set (ctx := c)
  end.
  destruct (shouldForward (shouldForwardToBackground req proxy ctx)) eqn:Hd.
  - pose proof (forwardToBackground_forwards ENV upstream background random
                  processingTime stringifyServiceConfig req ctx proxy) as Hfw.
    destruct (forwardToBackground _ _ _ _ _ _ _ _ _) as [t [e | resp]];
      unfold trace in Hfw; cbn [fst] in *.
    + split; [lia |]. intros Hedge. exfalso.
      unfold shouldForwardToBackground in Hd.
      destruct Hedge as [Hm | Hs].
      * by rewrite bool_decide_eq_true_2 in Hd.
      * rewrite Hs in Hd. by case_bool_decide.
    + split; [lia |]. intros Hedge. exfalso.
      unfold shouldForwardToBackground in Hd.
      destruct Hedge as [Hm | Hs].
      * by rewrite bool_decide_eq_true_2 in Hd.
      * rewrite Hs in Hd. by case_bool_decide.
  - pose proof (handleInEdge_forwards ENV upstream random processingTime
                  req ctx proxy (sanitizePath (seg :: segs)) (search req))
      as Hfw.
    destruct (handleInEdge _ _ _ _ _ _ _ _ _) as [t [e | resp]];
      unfold trace in Hfw; cbn [fst] in *; split; first [lia | done].
Qed.

(** X15. When the Background function answers with a status a [Response]
    can be built with (200 to 599; a 204, 205 or 304 answer has no body),
    the forwarder relays status, status text and body as they are: it makes
    no upstream fetch, so a 5xx answer of the Background function is not
    degraded to the fast path. *)
Theorem background_answer_is_relayed
    (ENV : Env) (upstream : Z -> JsError + Fetched)
    (background : JsError + Fetched) (random : Z -> Q)
    (processingTime : string)
    (stringifyServiceConfig : string -> ProxyConfig -> string)
    (req : Request) (context : RequestContext) (proxy : ProxyConfig)
    (response : Fetched) :
  background = inr response ->
  200 <= status response <= 599 ->
  (status response ∈ [204; 205; 304] -> fetchedBody response = None) ->
  let run := forwardToBackground ENV upstream background random
               processingTime stringifyServiceConfig req context proxy in
  fetches (trace run) = 0%nat /\
  forwards (trace run) = 1%nat /\
  exists resp,
    outcome run = inr resp /\
    respStatus resp = status response /\
    respStatusText resp = statusText response /\
    respBody resp = relayedBody (fetchedBody response).
Proof.
  intros Hbg _ _ run. subst run.
  rewrite (forwardToBackground_resolved _ _ _ _ _ _ _ _ _ response Hbg).
  split; [done |]. split; [done |]. by eexists.
Qed.

Lemma background_answer_is_relayed_witness :
  fetches (trace (forwardToBackground defaultEnv okUpstream
                    (inr {| status := 502; statusText := "Bad Gateway";
                            fetchedHeaders := ∅; fetchedBody := None |})
                    halfRandom "12.00" sampleStringify
                    embeddingsRequest embeddingsContext openaiProxy))
  = 0%nat.
Proof.
  apply (background_answer_is_relayed defaultEnv okUpstream
           (inr {| status := 502; statusText := "Bad Gateway";
                   fetchedHeaders := ∅; fetchedBody := None |})
           halfRandom "12.00" sampleStringify
           embeddingsRequest embeddingsContext openaiProxy
           {| status := 502; statusText := "Bad Gateway";
              fetchedHeaders := ∅; fetchedBody := None |}).
  - reflexivity.
  - cbn. lia.
  - reflexivity.
Defined.

(** ** The path of the fallback *)

(** X16. When the path name of the request starts with [/gateway], or does
    not hold [/gateway] at all, the user path the fallback hands to the
    fast path is the one the handler computes for the fast path: the
    sanitized segments after the service segment. *)
Theorem fallback_path_is_the_handlers
    (req : Request) (alias : string) (rest : list string) :
  Js.startsWith (pathname req) "/gateway" = true \/
  Js.includes (pathname req) "/gateway" = false ->
  pathSegments (cleanedPathname req) = alias :: rest ->
  fallbackUserPath req = sanitizePath rest.
Proof.
  intros Hcase Hsegs. unfold fallbackUserPath.
  assert (Hclean : removeFirst "/gateway" (pathname req) = cleanedPathname req).
  { unfold cleanedPathname. destruct Hcase as [Hpre | Habs].
    - by rewrite Hpre.
    - rewrite removeFirst_absent by done.
      by destruct (Js.startsWith (pathname req) "/gateway"). }
  by rewrite Hclean, Hsegs.
Qed.

Lemma fallback_path_is_the_handlers_witness :
  fallbackUserPath embeddingsRequest = sanitizePath ["v1"; "embeddings"].
Proof.
  apply (fallback_path_is_the_handlers embeddingsRequest "openai").
  - left. reflexivity.
  - reflexivity.
Defined.

(** Otherwise the two differ: the handler keeps a later [/gateway], the
    fallback removes it. *)
Example fallback_path_differs :
  let req := {| method := "POST"; origin := "https://gw.example.com";
                pathname := "/openai/gateway/v1/embeddings"; search := "";
                searchParams := []; headers := ∅; body := None |} in
  userPathOf (cleanedPathname req) = "gateway/v1/embeddings" /\
  fallbackUserPath req = "v1/embeddings".
Proof. split; reflexivity. Qed.

(** ** More on the header sanitizer *)

Section HeaderMore.

(** Entries that are filtered out or bear another name leave a header as
    it is. *)
Lemma headersSetAll_other keep entries (h : Headers) key :
  Forall (fun kv => Js.toLowerCase kv.1 <> key \/ keep kv.1 = false) entries ->
  headersSetAll keep entries h !! key = h !! key.
Proof.
  unfold headersSetAll. revert h.
  induction entries as [| [n w] entries IH]; intros h Hall; [done |].
  apply Forall_cons in Hall as [Hhead Hall]. simpl in *.
  rewrite IH by done.
  destruct (keep n) eqn:Hkeep; [| done].
  destruct Hhead as [Hne | ?]; [| done].
  unfold headersSet. by rewrite lookup_insert_ne.
Qed.

(** An entry that is kept, and whose name no later entry bears, sets its
    header. *)
Lemma headersSetAll_sets keep entries (h : Headers) k v :
  NoDup ((fun kv => Js.toLowerCase kv.1) <$> entries) ->
  (k, v) ∈ entries -> keep k = true ->
  headersSetAll keep entries h !! Js.toLowerCase k = Some v.
Proof.
  unfold headersSetAll. revert h.
  induction entries as [| [n w] entries IH]; intros h Hnd Hin Hkeep.
  { by apply elem_of_nil in Hin. }
  rewrite fmap_cons in Hnd. apply NoDup_cons in Hnd as [Hfresh Hnd].
  apply elem_of_cons in Hin as [[= <- <-] | Hin]; simpl.
  - rewrite Hkeep.
    pose proof (headersSetAll_other keep entries (headersSet k v h)
                  (Js.toLowerCase k)) as Hother.
    unfold headersSetAll in Hother. rewrite Hother.
    + unfold headersSet. by rewrite lookup_insert_eq.
    + apply Forall_forall. intros [n' w'] Hin'. left. simpl.
      intros Heq. apply Hfresh. simpl. rewrite <- Heq.
      apply (list_elem_of_fmap_2 (fun kv => Js.toLowerCase kv.1) _ _ Hin').
  - by apply IH.
Qed.

Lemma lowercase_entries (h : Headers) :
  lowercaseNames h ->
  NoDup ((fun kv => Js.toLowerCase kv.1) <$> map_to_list h).
Proof.
  intros Hlow.
  assert (Heq : (fun kv : string * string => Js.toLowerCase kv.1)
                  <$> map_to_list h = (map_to_list h).*1).
  { apply list_fmap_ext. intros i [k v] Hi. simpl.
    apply Hlow. exists v. apply elem_of_map_to_list.
    by eapply list_elem_of_lookup_2. }
  rewrite Heq. apply NoDup_fst_map_to_list.
Qed.

End HeaderMore.

(** X17. An inbound header that passes [isAllowedHeader] is forwarded with
    the value the client sent, also when the profile has a default header
    of that name. *)
Theorem allowed_header_is_forwarded
    (client : Headers) (proxy : ProxyConfig) (k v : string) :
  lowercaseNames client ->
  client !! k = Some v ->
  isAllowedHeader k = true ->
  buildForwardHeaders client proxy !! k = Some v.
Proof.
  intros Hlow Hk Hallowed.
  assert (Hk' : Js.toLowerCase k = k) by (apply Hlow; by exists v).
  unfold buildForwardHeaders. cbv zeta.
  set (h1 := match defaultHeaders proxy with
             | Some d => headersSetAll (fun _ => true) d ∅
             | None => ∅
             end).
  set (h2 := headersSetAll isAllowedHeader (map_to_list client) h1).
  assert (H2 : h2 !! k = Some v).
  { rewrite <- Hk'. apply headersSetAll_sets; [| | done].
    - by apply lowercase_entries.
    - by apply elem_of_map_to_list. }
  assert (Hhost : k <> "host") by (intros ->; vm_compute in Hallowed; done).
  assert (Hconn : k <> "connection")
    by (intros ->; vm_compute in Hallowed; done).
  unfold headersDelete.
  change (Js.toLowerCase "connection") with "connection".
  change (Js.toLowerCase "host") with "host".
  rewrite !lookup_delete_ne by done.
  destruct (headersHas "user-agent" h2) eqn:Hua; [done |].
  unfold headersSet. change (Js.toLowerCase "User-Agent") with "user-agent".
  rewrite lookup_insert_ne; [done |].
  intros <-. unfold headersHas in Hua.
  change (Js.toLowerCase "user-agent") with "user-agent" in Hua.
  rewrite H2 in Hua. by rewrite bool_decide_eq_true_2 in Hua.
Qed.

Lemma allowed_header_is_forwarded_witness :
  buildForwardHeaders {[ "anthropic-version" := "2024-01-01" ]}
    (withDefaultHeaders [("anthropic-version", "2023-06-01")]
       (builtin "api.anthropic.com" None None None))
    !! "anthropic-version" = Some "2024-01-01".
Proof.
  apply (allowed_header_is_forwarded {[ "anthropic-version" := "2024-01-01" ]}).
  - intros k [v Hk]. apply lookup_singleton_Some in Hk as [<- _]. reflexivity.
  - reflexivity.
  - reflexivity.
Defined.

(** X18. Whatever the client and the profile send, the outbound headers
    hold neither [host] nor [connection], and they hold a [user-agent]:
    the gateway's own when neither a default header of the profile nor a
    header of the client bears that name. *)
Theorem outbound_headers_are_normalised
    (client : Headers) (proxy : ProxyConfig) :
  let out := buildForwardHeaders client proxy in
  out !! "host" = None /\
  out !! "connection" = None /\
  is_Some (out !! "user-agent") /\
  ((forall d name v, defaultHeaders proxy = Some d -> (name, v) ∈ d ->
                     Js.toLowerCase name <> "user-agent") ->
   (forall name, is_Some (client !! name) ->
                 Js.toLowerCase name <> "user-agent") ->
   out !! "user-agent" = Some DEFAULT_USER_AGENT).
Proof.
  cbv zeta.
  assert (Hua : is_Some (buildForwardHeaders client proxy !! "user-agent")).
  { unfold buildForwardHeaders, headersDelete. cbv zeta.
    change (Js.toLowerCase "connection") with "connection".
    change (Js.toLowerCase "host") with "host".
    rewrite !lookup_delete_ne by done.
    match goal with
    | |- context [headersHas "user-agent" ?h] =>
        destruct (headersHas "user-agent" h) eqn:Hhas
    end.
    - unfold headersHas in Hhas. by apply bool_decide_eq_true_1 in Hhas.
    - unfold headersSet.
      change (Js.toLowerCase "User-Agent") with "user-agent".
      rewrite lookup_insert_eq. by eexists. }
  split; [| split; [| split; [done |]]].
  - unfold buildForwardHeaders, headersDelete. cbv zeta.
    change (Js.toLowerCase "connection") with "connection".
    change (Js.toLowerCase "host") with "host".
    rewrite lookup_delete_ne by done. apply lookup_delete_eq.
  - unfold buildForwardHeaders, headersDelete. cbv zeta.
    change (Js.toLowerCase "connection") with "connection".
    apply lookup_delete_eq.
  - intros Hdef Hclient. destruct Hua as [v Hv]. rewrite Hv.
    apply buildForwardHeaders_origin in Hv
      as [(d & name & Hd & Hin & Hn) | [[_ ->] | (name & Hc & Hn & _)]].
    + exfalso. by eapply Hdef.
    + done.
    + exfalso. eapply Hclient; [| done]. by eexists.
Qed.

(** ** More on the response headers *)

Lemma excluded_names k :
  k ∈ EXCLUDE_HEADERS ->
  k ∈ [ "content-encoding"; "transfer-encoding"; "connection"; "keep-alive";
        "server"; "x-powered-by"; "cf-ray"; "cf-cache-status" ].
Proof. unfold EXCLUDE_HEADERS. by rewrite elem_of_list_to_set. Qed.

(** The copy of the upstream headers holds no excluded name. *)
Lemma copied_headers_exclude (upstreamHeaders : Headers) k :
  k ∈ EXCLUDE_HEADERS ->
  headersSetAll
    (fun key => negb (bool_decide (Js.toLowerCase key ∈ EXCLUDE_HEADERS)))
    (map_to_list upstreamHeaders) ∅ !! k = None.
Proof.
  intros Hk.
  destruct (headersSetAll _ _ _ !! k) as [v |] eqn:Hl; [| done].
  apply headersSetAll_lookup in Hl as [Hl | (name & _ & Hkeep & Hname)].
  - by rewrite lookup_empty in Hl.
  - rewrite Hname in Hkeep. by rewrite bool_decide_eq_true_2 in Hkeep.
Qed.

(** X19. The headers [processResponseHeaders] builds hold none of the
    excluded upstream headers ([content-encoding], [transfer-encoding],
    [connection], [keep-alive], [server], [x-powered-by], [cf-ray],
    [cf-cache-status]); they hold the security headers and the gateway
    version; and every other upstream header whose name the gateway does
    not set itself is passed on with its value. *)
Theorem response_headers_are_filtered
    (ENV : Env) (upstreamHeaders : Headers) (reqId : string) (mode : Mode) :
  let h := processResponseHeaders ENV upstreamHeaders reqId mode in
  (forall k, k ∈ EXCLUDE_HEADERS -> h !! k = None) /\
  headersGet "X-Content-Type-Options" h = Some "nosniff" /\
  headersGet "X-Frame-Options" h = Some "DENY" /\
  headersGet "X-Gateway-Version" h = Some "1.0.0" /\
  (lowercaseNames upstreamHeaders ->
   forall k v,
     upstreamHeaders !! k = Some v ->
     k ∉ EXCLUDE_HEADERS ->
     k ∉ GATEWAY_RESPONSE_HEADERS ->
     h !! k = Some v).
Proof.
  cbv zeta. unfold processResponseHeaders. cbv zeta. rewrite cors_applied.
  split; [| split; [| split; [| split]]].
  - intros k Hk. pose proof (copied_headers_exclude upstreamHeaders k Hk) as Hc.
    apply excluded_names in Hk.
    repeat (apply elem_of_cons in Hk as [-> | Hk]);
      [.. | by apply elem_of_nil in Hk].
    all: match goal with
         | |- ?m !! ?key = None => change (headersGet key m = None)
         end.
    all: read_header; exact Hc.
  - read_header. reflexivity.
  - read_header. reflexivity.
  - read_header. reflexivity.
  - intros Hlow k v Hk Hnex Hngw.
    assert (Hk' : Js.toLowerCase k = k) by (apply Hlow; by exists v).
    unfold GATEWAY_RESPONSE_HEADERS in Hngw.
    repeat (apply not_elem_of_cons in Hngw as [? Hngw]).
    unfold headersSet.
    repeat match goal with
           | |- context [Js.toLowerCase ?s] =>
               is_ground s;
               let r := eval vm_compute in (Js.toLowerCase s) in
               change (Js.toLowerCase s) with r
           end.
    rewrite !lookup_insert_ne by done.
    rewrite <- Hk'. apply headersSetAll_sets.
    + by apply lowercase_entries.
    + by apply elem_of_map_to_list.
    + rewrite Hk'. by rewrite bool_decide_eq_false_2.
Qed.

(** ** The forwarding request *)

(** X20. The request sent to the Background function keeps the method,
    carries the correlation id, the service configuration and a client
    address that is never empty, and carries a body, with a
    [Content-Length] of the body's length, exactly when the inbound request
    has a body and its method is POST, PUT or PATCH: the body of a DELETE
    request is not forwarded, whereas the fast path attaches the body for
    every method but GET and HEAD. *)
Theorem forwarded_request_shape
    (ENV : Env) (stringifyServiceConfig : string -> ProxyConfig -> string)
    (req : Request) (context : RequestContext) (proxy : ProxyConfig)
    (userPath search : string) :
  let r := backgroundRequest stringifyServiceConfig req context proxy in
  outMethod r = ctxMethod context /\
  headersGet "X-Request-Id" (outHeaders r) = Some (reqId context) /\
  headersGet "X-Service-Config" (outHeaders r)
    = Some (stringifyServiceConfig (service context) proxy) /\
  (exists a, headersGet "X-Original-IP" (outHeaders r) = Some a /\ a <> "") /\
  (carriesBody r = true <->
   is_Some (body req) /\ ctxMethod context ∈ ["POST"; "PUT"; "PATCH"]) /\
  (forall b, body req = Some b -> carriesBody r = true ->
             headersGet "Content-Length" (outHeaders r)
             = Some (pretty (bodyLength b))) /\
  (carriesBody (edgeRequest ENV req context proxy userPath search) = true <->
   is_Some (body req) /\ method req <> "GET" /\ method req <> "HEAD").
Proof.
  cbv zeta. unfold backgroundRequest, edgeRequest.
  cbn [outMethod outHeaders carriesBody].
  assert (Hip : exists a, orString (Some (ip context)) "unknown" = a /\ a <> "").
  { unfold orString. destruct (ip context) as [| c s]; cbn [Js.truthy];
      eexists; split; try reflexivity; done. }
  destruct Hip as (a & Ha & Hne). rewrite Ha.
  split; [done |].
  split; [destruct (body req); [destruct (_ && _) |]; read_header; reflexivity |].
  split; [destruct (body req); [destruct (_ && _) |]; read_header; reflexivity |].
  split.
  { exists a. split; [| done].
    destruct (body req); [destruct (_ && _) |]; read_header; reflexivity. }
  split.
  { rewrite andb_true_iff, !bool_decide_eq_true. done. }
  split.
  { intros b Hb Hcarries. rewrite Hb in *. rewrite Hcarries.
    read_header. reflexivity. }
  rewrite !andb_true_iff, !negb_true_iff, !String.eqb_neq, bool_decide_eq_true.
  tauto.
Qed.

(** ** More on the path sanitizer *)

Section PathMore.

Lemma allChars_app test s t :
  allChars test (s ++ t) = allChars test s && allChars test t.
Proof.
  induction s as [| c s IH]; [done |].
  rewrite append_cons. cbn [allChars]. by rewrite IH, andb_assoc.
Qed.

Lemma encodeChar_pathChars c : allChars pathChar (encodeChar c) = true.
Proof. destruct c as [[] [] [] [] [] [] [] []]; reflexivity. Qed.

Lemma encodeComponent_pathChars s :
  allChars pathChar (encodeComponent s) = true.
Proof.
  induction s as [| c r IH]; [done |].
  by rewrite encodeComponent_cons, allChars_app, encodeChar_pathChars, IH.
Qed.

Lemma join_pathChars (l : list string) :
  Forall (fun s => allChars pathChar s = true) l ->
  allChars pathChar (Js.join "/" l) = true.
Proof.
  induction 1 as [| s l Hs Hl IH]; [done |].
  destruct l as [| s' l']; [done |].
  change (Js.join "/" (s :: s' :: l'))
    with (s ++ "/" ++ Js.join "/" (s' :: l')).
  rewrite !allChars_app, Hs, IH. reflexivity.
Qed.

Lemma encodeSegment_pathChars seg :
  allChars pathChar (encodeSegment seg) = true.
Proof.
  unfold encodeSegment. apply join_pathChars.
  apply List.Forall_map, Forall_forall. intros s _.
  apply encodeComponent_pathChars.
Qed.

Lemma encodeChar_plain c : plainChar c = true -> encodeChar c = String c "".
Proof. destruct c as [[] [] [] [] [] [] [] []]; first [reflexivity | discriminate]. Qed.

Lemma plainChar_no_slash c : plainChar c = true -> Ascii.eqb c "/" = false.
Proof. destruct c as [[] [] [] [] [] [] [] []]; first [reflexivity | discriminate]. Qed.

Lemma encodeComponent_plain s :
  allChars plainChar s = true -> encodeComponent s = s.
Proof.
  induction s as [| c r IH]; [done |]. cbn [allChars].
  intros Hc. apply andb_true_iff in Hc as [Hc Hr].
  by rewrite encodeComponent_cons, encodeChar_plain, IH.
Qed.

Lemma plain_no_slash s :
  allChars plainChar s = true -> Js.hasChar "/" s = false.
Proof.
  induction s as [| c r IH]; [done |]. cbn [allChars Js.hasChar].
  intros Hc. apply andb_true_iff in Hc as [Hc Hr].
  by rewrite plainChar_no_slash, IH.
Qed.

End PathMore.

(** X21. Whatever the segments, also segments that hold slashes, a
    sanitized path is made of unreserved characters, percent signs, colons
    and slashes only: it holds no [?], no [#], no space, no backslash and
    no control character. *)
Theorem sanitized_path_alphabet (parts : list string) :
  allChars pathChar (sanitizePath parts) = true /\
  Js.hasChar "?" (sanitizePath parts) = false /\
  Js.hasChar "#" (sanitizePath parts) = false /\
  Js.hasChar " " (sanitizePath parts) = false /\
  Js.hasChar "\" (sanitizePath parts) = false.
Proof.
  assert (Hall : allChars pathChar (sanitizePath parts) = true).
  { unfold sanitizePath. apply join_pathChars.
    apply List.Forall_map, Forall_forall. intros s _.
    apply encodeSegment_pathChars. }
  assert (Hno : forall c s, pathChar c = false ->
                            allChars pathChar s = true ->
                            Js.hasChar c s = false).
  { intros c s Hc. induction s as [| a r IH]; [done |].
    cbn [allChars Js.hasChar]. intros Ha.
    apply andb_true_iff in Ha as [Ha Hr]. rewrite (IH Hr), orb_false_r.
    destruct (Ascii.eqb_spec a c) as [-> | ?]; [congruence | done]. }
  split; [done |]. repeat split; by apply Hno.
Qed.

(** X22. Segments made of unreserved characters and colons, none of them
    empty, [.] or [..], are joined as they are: nothing is encoded. *)
Theorem plain_segments_are_unchanged (parts : list string) :
  Forall (fun seg => allChars plainChar seg = true) parts ->
  Forall (fun seg => seg <> "" /\ seg <> "." /\ seg <> "..") parts ->
  sanitizePath parts = Js.join "/" parts.
Proof.
  intros Hplain Hkept. unfold sanitizePath. f_equal.
  induction parts as [| seg parts IH]; [done |].
  apply Forall_cons in Hplain as [Hseg Hplain].
  apply Forall_cons in Hkept as [Hk Hkept].
  cbn [List.filter]. rewrite (proj2 (keepSegment_spec seg) Hk).
  cbn [map]. rewrite IH by done.
  by rewrite encodeSegment_free, encodeComponent_plain
    by (try apply plain_no_slash; done).
Qed.

Lemma plain_segments_are_unchanged_witness :
  sanitizePath ["v1beta"; "models"; "gemini-pro:generateContent"]
  = "v1beta/models/gemini-pro:generateContent".
Proof.
  apply (plain_segments_are_unchanged
           ["v1beta"; "models"; "gemini-pro:generateContent"]).
  - repeat constructor.
  - repeat constructor; discriminate.
Defined.

(** X23. One leading and one trailing slash around the base path of a
    profile, or around the user path, do not change the upstream URL. *)
Theorem surrounding_slashes_do_not_matter
    (host base user search : string) :
  stripSlashes base = base ->
  stripSlashes user = user ->
  buildUpstreamURL host (Some ("/" ++ base ++ "/")) ("/" ++ user ++ "/") search
  = buildUpstreamURL host (Some base) user search.
Proof.
  intros Hbase Huser. unfold buildUpstreamURL. cbv zeta.
  assert (Hstrip : forall s, stripSlashes ("/" ++ s ++ "/") = s).
  { intros s. change ("/" ++ s ++ "/") with (String "/" (s ++ "/")).
    cbn [stripSlashes]. rewrite dropTrailingSlash_app by done.
    apply append_nil_r. }
  by rewrite !Hstrip, Hbase, Huser.
Qed.

Lemma surrounding_slashes_do_not_matter_witness :
  buildUpstreamURL "api.groq.com" (Some "/openai/") "/v1/models/" "?a=1"
  = buildUpstreamURL "api.groq.com" (Some "openai") "v1/models" "?a=1".
Proof.
  apply (surrounding_slashes_do_not_matter "api.groq.com" "openai"
           "v1/models" "?a=1"); reflexivity.
Defined.

(** ** The query white list *)

Lemma find_append {A} (f : A -> bool) (l1 l2 : list A) :
  List.find f (l1 ++ l2)%list
  = match List.find f l1 with
    | Some a => Some a
    | None => List.find f l2
    end.
Proof.
  induction l1 as [| a l1 IH]; simpl; [done |].
  by destruct (f a).
Qed.

Lemma parseQueryParams_from (ps : list (string * string))
    (acc : gmap string string) (k : string) :
  foldl (fun params kv =>
           if isAllowedParam kv.1 then <[kv.1 := kv.2]> params else params)
        acc ps !! k
  = if isAllowedParam k
    then from_option Some (acc !! k) (searchParamsGet k (rev ps))
    else acc !! k.
Proof.
  revert acc. induction ps as [| [key value] ps IH]; intros acc.
  - simpl. by destruct (isAllowedParam k).
  - cbn [foldl]. rewrite IH. cbn [fst snd rev]. unfold searchParamsGet.
    rewrite find_append. cbn [List.find fst].
    destruct (isAllowedParam k) eqn:Hk.
    + destruct (List.find _ (rev ps)) as [[k' v'] |]; [done |].
      cbn [fmap option_fmap option_map from_option].
      destruct (String.eqb_spec key k) as [-> | Hne].
      * rewrite Hk. cbn. by rewrite lookup_insert_eq.
      * cbn. destruct (isAllowedParam key); [| done].
        by rewrite lookup_insert_ne.
    + destruct (isAllowedParam key) eqn:Hkey; [| done].
      rewrite lookup_insert_ne; [done |]. intros ->. congruence.
Qed.

(** X24. [parseQueryParams] keeps a query parameter exactly when its name is
    one of the six white-listed names or starts with a dollar sign, and
    then under the value of its last occurrence in the query, where
    [searchParams.get] reads the first. *)
Theorem query_whitelist_keeps_last_value
    (searchParams : list (string * string)) (key : string) :
  parseQueryParams searchParams !! key
  = if isAllowedParam key then searchParamsGet key (rev searchParams)
    else None.
Proof.
  unfold parseQueryParams. rewrite parseQueryParams_from, lookup_empty.
  destruct (isAllowedParam key); [| done].
  by destruct (searchParamsGet key (rev searchParams)).
Qed.

(** ** The level of the logger *)

(** X25. The level [DEBUG] cannot be selected: its rank [0] is falsy, so
    [LOG_LEVEL=DEBUG] gives the threshold of [INFO]. A debug line is written
    only when [LOG_LEVEL] names a member every object inherits (the
    threshold is then no number and nothing is filtered); an error line is
    always written, and a level that is written lets every higher level
    through. *)
Theorem debug_level_is_not_selectable (LOG_LEVEL : string) :
  (logs LOG_LEVEL DEBUG = true <-> LOG_LEVEL ∈ OBJECT_PROTOTYPE_KEYS) /\
  logs LOG_LEVEL ERROR = true /\
  (forall level, logs "DEBUG" level = logs "INFO" level) /\
  (forall a b, LOG_LEVELS a <= LOG_LEVELS b ->
               logs LOG_LEVEL a = true -> logs LOG_LEVEL b = true).
Proof.
  assert (Hown : forall l, logLevelNamed LOG_LEVEL = Some l ->
                           LOG_LEVEL ∉ OBJECT_PROTOTYPE_KEYS).
  { intros l. unfold logLevelNamed.
    repeat match goal with
           | |- context [String.eqb LOG_LEVEL ?s] =>
               destruct (String.eqb_spec LOG_LEVEL s) as [-> | _];
               [intros _; apply (bool_decide_unpack _); by vm_compute |]
           end.
    done. }
  split; [split | split; [| split]].
  - unfold logs, loggerLevel.
    destruct (logLevelNamed LOG_LEVEL) as [l |] eqn:Hl.
    + by destruct l.
    + by destruct (bool_decide_reflect (LOG_LEVEL ∈ OBJECT_PROTOTYPE_KEYS)).
  - unfold logs, loggerLevel.
    destruct (logLevelNamed LOG_LEVEL) as [l |] eqn:Hl.
    + intros Hin. exfalso. by apply (Hown l).
    + intros Hin. by rewrite bool_decide_eq_true_2.
  - unfold logs, loggerLevel.
    destruct (logLevelNamed LOG_LEVEL) as [[] |]; [done .. |].
    by destruct (bool_decide _).
  - intros []; by vm_compute.
  - intros a b Hab. unfold logs, loggerLevel.
    destruct (logLevelNamed LOG_LEVEL) as [l |].
    + destruct l, a, b; cbn in *; done || lia.
    + destruct (bool_decide _); [done |].
      destruct a, b; cbn in *; done || lia.
Qed.

(** ** Custom proxy profiles *)

Lemma spread_lookup (a b : Fields) (f : string) :
  spread a b !! f = match b !! f with
                    | Some v => Some v
                    | None => a !! f
                    end.
Proof.
  unfold spread. rewrite lookup_union.
  by destruct (b !! f), (a !! f).
Qed.

(** A turn of the loop leaves the other aliases alone. *)
Lemma mergeEntry_other merged key value (alias : string) :
  key <> alias -> mergeEntry merged (key, value) !! alias = merged !! alias.
Proof.
  intros Hne. unfold mergeEntry.
  destruct (isObject value); [| done].
  destruct (String.eqb key "__proto__"); [done |].
  by rewrite lookup_insert_ne.
Qed.

Lemma foldl_mergeEntry_other entries merged (alias : string) :
  alias ∉ entries.*1 ->
  foldl mergeEntry merged entries !! alias = merged !! alias.
Proof.
  revert merged. induction entries as [| [key value] entries IH];
    intros merged Hnot; [done |].
  cbn [foldl]. rewrite fmap_cons in Hnot. cbn [fst] in Hnot.
  apply not_elem_of_cons in Hnot as [Hne Hnot].
  rewrite IH by done. by apply mergeEntry_other.
Qed.

(** With each key listed once, the entry of an alias decides its profile. *)
Lemma foldl_mergeEntry_sets entries merged alias value :
  NoDup entries.*1 ->
  (alias, value) ∈ entries ->
  isObject value = true ->
  alias <> "__proto__" ->
  foldl mergeEntry merged entries !! alias
  = Some (spread (default ∅ (proxyFields <$> BUILTIN_PROXIES !! alias))
                 (ownFields value)).
Proof.
  intros Hdup Hin Hobj Hproto. revert merged.
  induction entries as [| [key value'] entries IH]; intros merged.
  { by apply elem_of_nil in Hin. }
  rewrite fmap_cons in Hdup. cbn [fst] in Hdup.
  apply NoDup_cons in Hdup as [Hfresh Hdup].
  cbn [foldl]. apply elem_of_cons in Hin as [Heq | Hin].
  - injection Heq as <- <-.
    rewrite foldl_mergeEntry_other by done.
    unfold mergeEntry. rewrite Hobj.
    destruct (String.eqb_spec alias "__proto__"); [done |].
    by rewrite lookup_insert_eq.
  - by apply IH.
Qed.

(** The loop removes no built-in alias, and no field of one. *)
Lemma foldl_mergeEntry_keeps entries merged alias p :
  BUILTIN_PROXIES !! alias = Some p ->
  (exists fields, merged !! alias = Some fields /\
     forall f, is_Some (proxyFields p !! f) -> is_Some (fields !! f)) ->
  exists fields, foldl mergeEntry merged entries !! alias = Some fields /\
    forall f, is_Some (proxyFields p !! f) -> is_Some (fields !! f).
Proof.
  intros Hp. revert merged.
  induction entries as [| [key value] entries IH]; intros merged Hinv;
    [done |].
  cbn [foldl]. apply IH. unfold mergeEntry.
  destruct (isObject value); [| done].
  destruct (String.eqb key "__proto__"); [done |].
  destruct (decide (key = alias)) as [-> | Hne].
  - rewrite lookup_insert_eq. eexists. split; [done |].
    intros f Hf. rewrite spread_lookup, Hp. cbn.
    by destruct (ownFields value !! f).
  - by rewrite lookup_insert_ne.
Qed.


(** X26. [loadProxyConfig] refines the built-in table and never shrinks it:
    whatever [PROXY_CONFIG] holds, every built-in alias is still there and
    none of the fields of its built-in profile is removed ([host] among
    them; an override can change the value). When the variable is unset or
    empty, does not parse, or parses to [null], the table is the built-in
    one. With each key listed once, an entry of the parsed value that is an
    object decides the profile of its alias field by field: a field it
    declares takes its value, any other field keeps the built-in value (the
    merge is one level deep); an alias without an entry keeps its built-in
    profile, if it has one. *)
Theorem custom_profiles_refine_builtin
    (parse : string -> option Json) (PROXY_CONFIG : option string) :
  let loaded := loadProxyConfig parse PROXY_CONFIG in
  (forall alias p,
     BUILTIN_PROXIES !! alias = Some p ->
     exists fields,
       loaded !! alias = Some fields /\
       is_Some (fields !! "host") /\
       forall f, is_Some (proxyFields p !! f) -> is_Some (fields !! f)) /\
  (PROXY_CONFIG = None \/ PROXY_CONFIG = Some "" \/
   (exists c, PROXY_CONFIG = Some c /\
              (parse c = None \/ parse c = Some JNull)) ->
   loaded = proxyFields <$> BUILTIN_PROXIES) /\
  (forall c entries,
     PROXY_CONFIG = Some c -> Js.truthy c = true ->
     parse c ≫= objectEntries = Some entries ->
     NoDup entries.*1 ->
     (forall alias value,
        (alias, value) ∈ entries -> isObject value = true ->
        alias <> "__proto__" ->
        exists fields,
          loaded !! alias = Some fields /\
          forall f,
            fields !! f
            = match ownFields value !! f with
              | Some v => Some v
              | None => BUILTIN_PROXIES !! alias ≫= fun p => proxyFields p !! f
              end) /\
     (forall alias,
        alias ∉ entries.*1 ->
        loaded !! alias = proxyFields <$> BUILTIN_PROXIES !! alias)).
Proof.
  cbv zeta. split; [| split].
  - intros alias p Hp.
    assert (Hbase : exists fields,
              (proxyFields <$> BUILTIN_PROXIES) !! alias = Some fields /\
              forall f, is_Some (proxyFields p !! f) -> is_Some (fields !! f)).
    { exists (proxyFields p). by rewrite lookup_fmap, Hp. }
    assert (Hloaded : exists fields,
              loadProxyConfig parse PROXY_CONFIG !! alias = Some fields /\
              forall f, is_Some (proxyFields p !! f) -> is_Some (fields !! f)).
    { unfold loadProxyConfig. cbv zeta.
      destruct PROXY_CONFIG as [c |]; [| done].
      destruct (Js.truthy c); [| done].
      destruct (parse c ≫= objectEntries) as [entries |]; [| done].
      by apply foldl_mergeEntry_keeps with (p := p). }
    destruct Hloaded as (fields & Hfields & Hkeeps).
    exists fields. split; [done |]. split; [| done].
    apply Hkeeps. unfold proxyFields. rewrite list_to_map_cons.
    by rewrite lookup_insert_eq.
  - unfold loadProxyConfig. cbv zeta.
    intros [-> | [-> | (c & -> & [Hc | Hc])]]; [done | done | |];
      destruct (Js.truthy c); try done; by rewrite Hc.
  - intros c entries -> Htruthy Hentries Hdup.
    unfold loadProxyConfig. cbv zeta. rewrite Htruthy, Hentries. split.
    + intros alias value Hin Hobj Hproto.
      eexists. split; [by apply foldl_mergeEntry_sets |].
      intros f. rewrite spread_lookup.
      destruct (ownFields value !! f); [done |].
      by destruct (BUILTIN_PROXIES !! alias).
    + intros alias Hnot. rewrite foldl_mergeEntry_other by done.
      by rewrite lookup_fmap.
Qed.

(** ** The Background function *)

Lemma prefix_append pat s : String.prefix pat (pat ++ s) = true.
Proof.
  induction pat as [| a pat IH]; [by destruct s |].
  rewrite append_cons. simpl. by destruct (ascii_dec a a).
Qed.

Lemma substring_whole s : String.substring 0 (String.length s) s = s.
Proof. induction s as [| a s IH]; [done |]. simpl. by rewrite IH. Qed.

Lemma substring_append pat s :
  String.substring (String.length pat)
    (String.length (pat ++ s) - String.length pat) (pat ++ s) = s.
Proof.
  induction pat as [| a pat IH].
  - change ("" ++ s) with s. simpl. rewrite Nat.sub_0_r. apply substring_whole.
  - rewrite append_cons. simpl. apply IH.
Qed.

(** A pattern that starts the string is the occurrence taken out. *)
Lemma removeFirst_prefix pat s : removeFirst pat (pat ++ s) = s.
Proof. by rewrite removeFirst_eq, prefix_append, substring_append. Qed.

Section BackgroundFacts.
Variable ENV : Env.
Variable parseConfig : string -> Background.ParsedConfig.
Variable answer : JsError + Background.UpstreamAnswer.
Variable duration : string.
Variable randomUUID : string.

(** What [parseServiceConfig] returns, from the header. *)
Lemma parseServiceConfig_Some (h : gmap string string) c :
  Background.parseServiceConfig parseConfig h = Some (inr c) <->
  exists configHeader,
    h !! "x-service-config" = Some configHeader /\
    Js.truthy configHeader = true /\
    parseConfig configHeader = Background.ConfigParsed c.
Proof.
  unfold Background.parseServiceConfig. split.
  - destruct (h !! "x-service-config") as [configHeader |]; [| done].
    destruct (Js.truthy configHeader) eqn:Htruthy; [| done].
    destruct (parseConfig configHeader) as [| | c' | e] eqn:Hparse;
      [done | done | | done].
    intros [= ->]. by exists configHeader.
  - intros (configHeader & -> & -> & ->). done.
Qed.

Lemma parseServiceConfig_None (h : gmap string string) :
  Background.parseServiceConfig parseConfig h = None <->
  h !! "x-service-config" = None \/
  exists configHeader,
    h !! "x-service-config" = Some configHeader /\
    (Js.truthy configHeader = false \/
     parseConfig configHeader = Background.ConfigUnparsable \/
     parseConfig configHeader = Background.ConfigFalsy).
Proof.
  unfold Background.parseServiceConfig. split.
  - destruct (h !! "x-service-config") as [configHeader |]; [| by left].
    intros Hnone. right. exists configHeader. split; [done |].
    destruct (Js.truthy configHeader); [| by left]. right.
    destruct (parseConfig configHeader); by auto.
  - intros [-> | (configHeader & -> & [-> | [Hp | Hp]])]; [done | done | |].
    + destruct (Js.truthy configHeader); [| done]. by rewrite Hp.
    + destruct (Js.truthy configHeader); [| done]. by rewrite Hp.
Qed.

(** The handler, case by case. *)
Lemma background_handler_cases (req : Background.NodeRequest) :
  let out :=
    Background.handler ENV parseConfig answer duration randomUUID req in
  let reqId :=
    orString (Background.nodeHeaders req !! "x-request-id") randomUUID in
  let segments :=
    pathSegments
      (removeFirst "/api/background" (Background.nodePathname req)) in
  let parsed :=
    Background.parseServiceConfig parseConfig (Background.nodeHeaders req) in
  (parsed = None /\
   out = (None, Background.badRequest "Missing service configuration"
                  reqId)) \/
  (is_Some parsed /\ (List.length segments < 2)%nat /\
   out = (None, Background.badRequest "Invalid path format" reqId)) \/
  (exists typeError,
     parsed = Some (inl typeError) /\ (2 <= List.length segments)%nat /\
     out = (None, Background.failureResponse ENV duration reqId typeError)) \/
  (exists config service seg segs,
     parsed = Some (inr config) /\
     segments = service :: seg :: segs /\
     out.1 = Some (Background.upstreamCall ENV req
                     (Background.proxyConfig config) (seg :: segs)) /\
     out.2 = match Background.executeUpstreamRequest answer with
             | inr result => Background.relayResult ENV duration reqId result
             | inl error => Background.failureResponse ENV duration reqId error
             end).
Proof.
  cbv zeta. unfold Background.handler. cbv zeta.
  destruct (Background.parseServiceConfig parseConfig
              (Background.nodeHeaders req)) as [[typeError | config] |].
  - destruct (pathSegments _) as [| service [| seg segs]] eqn:Hsegs.
    + right. left. split; [done |]. split; [simpl; lia | done].
    + right. left. split; [done |]. split; [simpl; lia | done].
    + right. right. left. exists typeError.
      split; [done |]. split; [simpl; lia | done].
  - destruct (pathSegments _) as [| service [| seg segs]] eqn:Hsegs.
    + right. left. split; [done |]. split; [simpl; lia | done].
    + right. left. split; [done |]. split; [simpl; lia | done].
    + right. right. right. exists config, service, seg, segs.
      split; [done |]. split; [done |].
      by destruct (Background.executeUpstreamRequest answer).
  - by left.
Qed.

(** A call was made: the configuration parsed and the path is long
    enough. *)
Lemma background_call_made (req : Background.NodeRequest) :
  let out :=
    Background.handler ENV parseConfig answer duration randomUUID req in
  let reqId :=
    orString (Background.nodeHeaders req !! "x-request-id") randomUUID in
  is_Some out.1 ->
  exists config service seg segs,
    Background.parseServiceConfig parseConfig (Background.nodeHeaders req)
      = Some (inr config) /\
    pathSegments
      (removeFirst "/api/background" (Background.nodePathname req))
      = service :: seg :: segs /\
    out.1 = Some (Background.upstreamCall ENV req
                    (Background.proxyConfig config) (seg :: segs)) /\
    out.2 = match Background.executeUpstreamRequest answer with
            | inr result => Background.relayResult ENV duration reqId result
            | inl error => Background.failureResponse ENV duration reqId error
            end.
Proof.
  cbv zeta. intros Hcalled.
  destruct (background_handler_cases req)
    as [[_ Hout] | [(_ & _ & Hout) | [(typeError & _ & _ & Hout) | Hcall]]];
    cbv zeta in *;
    [rewrite Hout in Hcalled; by destruct Hcalled .. | done].
Qed.

End BackgroundFacts.

(** X27. The Background function calls an upstream exactly when the
    [x-service-config] header is there, is not empty and parses to a
    service configuration, and the path after [/api/background] has a
    service segment and at least one more. A header that is absent, empty,
    unparsable or parses to a falsy value is answered 400, and so is a
    shorter path; these answers carry an error document that names the
    request and no header set by the handler: neither the tracking headers
    nor the CORS headers. A truthy value without a profile is answered
    with the class of the [TypeError] it raises. *)
Theorem background_calls_need_a_configuration
    (ENV : Env) (parseConfig : string -> Background.ParsedConfig)
    (answer : JsError + Background.UpstreamAnswer)
    (duration randomUUID : string) (req : Background.NodeRequest) :
  let out :=
    Background.handler ENV parseConfig answer duration randomUUID req in
  let reqId :=
    orString (Background.nodeHeaders req !! "x-request-id") randomUUID in
  let segments :=
    pathSegments
      (removeFirst "/api/background" (Background.nodePathname req)) in
  let configHeader :=
    Background.nodeHeaders req !! "x-service-config" in
  (is_Some out.1 <->
   (exists h c,
      configHeader = Some h /\ Js.truthy h = true /\
      parseConfig h = Background.ConfigParsed c) /\
   (2 <= List.length segments)%nat) /\
  (configHeader = None \/
   (exists h, configHeader = Some h /\
      (Js.truthy h = false \/
       parseConfig h = Background.ConfigUnparsable \/
       parseConfig h = Background.ConfigFalsy)) ->
   out = (None,
          {| Background.sentStatus := 400; Background.sentHeaders := ∅;
             Background.sentBody :=
               Background.ErrorDocument "Missing service configuration"
                 None reqId |})) /\
  ((exists h, configHeader = Some h /\ Js.truthy h = true /\
      parseConfig h <> Background.ConfigUnparsable /\
      parseConfig h <> Background.ConfigFalsy) ->
   (List.length segments < 2)%nat ->
   out = (None,
          {| Background.sentStatus := 400; Background.sentHeaders := ∅;
             Background.sentBody :=
               Background.ErrorDocument "Invalid path format" None reqId |})) /\
  (forall h typeError,
     configHeader = Some h -> Js.truthy h = true ->
     parseConfig h = Background.ConfigMalformed typeError ->
     (2 <= List.length segments)%nat ->
     out.1 = None /\
     Background.sentStatus out.2 = errStatus (categorizeError typeError)).
Proof.
  cbv zeta.
  pose proof (parseServiceConfig_None parseConfig
                (Background.nodeHeaders req)) as Hnone.
  destruct (background_handler_cases ENV parseConfig answer duration
              randomUUID req)
    as [[Hparsed Hout]
       | [(Hparsed & Hshort & Hout)
         | [(typeError & Hparsed & Hlen & Hout)
           | (config & service & seg & segs & Hparsed & Hsegs & Hcall
              & Hresp)]]];
    cbv zeta in *.
  - rewrite Hout. cbn [fst snd]. split; [split |]; [| | split; [| split]].
    + by intros [? ?].
    + intros [(h & c & Hh & Ht & Hp) _]. exfalso.
      assert (Hsome : Background.parseServiceConfig parseConfig
                        (Background.nodeHeaders req) = Some (inr c))
        by (apply parseServiceConfig_Some; by exists h).
      congruence.
    + done.
    + intros (h & Hh & Ht & Hu & Hf) _. exfalso.
      apply Hnone in Hparsed as [Habs | (h' & Hh' & Hwhy)]; [congruence |].
      rewrite Hh in Hh'. injection Hh' as <-.
      destruct Hwhy as [? | [? | ?]]; congruence.
    + intros h typeError Hh Ht Hp _. exfalso.
      apply Hnone in Hparsed as [Habs | (h' & Hh' & Hwhy)]; [congruence |].
      rewrite Hh in Hh'. injection Hh' as <-.
      destruct Hwhy as [? | [? | ?]]; congruence.
  - rewrite Hout. cbn [fst snd]. split; [split |]; [| | split; [| split]].
    + by intros [? ?].
    + intros [_ Hlen]. lia.
    + intros Hmissing. exfalso. apply Hnone in Hmissing.
      rewrite Hmissing in Hparsed. by destruct Hparsed.
    + done.
    + intros h typeError _ _ _ Hlen. lia.
  - rewrite Hout. cbn [fst snd]. split; [split |]; [| | split; [| split]].
    + by intros [? ?].
    + intros [(h & c & Hh & Ht & Hp) _]. exfalso.
      assert (Hsome : Background.parseServiceConfig parseConfig
                        (Background.nodeHeaders req) = Some (inr c))
        by (apply parseServiceConfig_Some; by exists h).
      congruence.
    + intros Hmissing. exfalso. apply Hnone in Hmissing. congruence.
    + intros _ Hshort. lia.
    + intros h typeError' Hh Ht Hp _. split; [done |].
      unfold Background.parseServiceConfig in Hparsed.
      rewrite Hh, Ht, Hp in Hparsed. by injection Hparsed as <-.
  - split; [split |]; [| | split; [| split]].
    + intros _. split.
      * apply parseServiceConfig_Some in Hparsed as (h & Hh & Ht & Hp).
        by exists h, config.
      * rewrite Hsegs. simpl. lia.
    + intros _. by rewrite Hcall.
    + intros Hmissing. exfalso. apply Hnone in Hmissing. congruence.
    + intros _ Hshort. rewrite Hsegs in Hshort. simpl in Hshort. lia.
    + intros h typeError Hh Ht Hp _. exfalso.
      unfold Background.parseServiceConfig in Hparsed.
      rewrite Hh, Ht, Hp in Hparsed. done.
Qed.

(** The names a filtered copy into a fresh [Headers] object holds are in
    lower case. *)
Lemma headersSetAll_lowercase keep entries :
  lowercaseNames (headersSetAll keep entries ∅).
Proof.
  intros k [v Hk]. apply headersSetAll_lookup in Hk as [Hk | Hk].
  - by rewrite lookup_empty in Hk.
  - destruct Hk as (name & _ & _ & <-). apply toLowerCase_idem.
Qed.

(** An allowed client header reaches the outbound headers. *)
Lemma forward_headers_keep (client : Headers) (proxy : ProxyConfig) k v :
  lowercaseNames client ->
  client !! k = Some v ->
  isAllowedHeader k = true ->
  buildForwardHeaders client proxy !! k = Some v.
Proof.
  intros Hlow Hk Hallowed.
  assert (Hk' : Js.toLowerCase k = k) by (apply Hlow; by exists v).
  unfold buildForwardHeaders. cbv zeta.
  set (h1 := match defaultHeaders proxy with
             | Some d => headersSetAll (fun _ => true) d ∅
             | None => ∅
             end).
  set (h2 := headersSetAll isAllowedHeader (map_to_list client) h1).
  assert (H2 : h2 !! k = Some v).
  { rewrite <- Hk'. apply headersSetAll_sets; [| | done].
    - by apply lowercase_entries.
    - by apply elem_of_map_to_list. }
  assert (Hhost : k <> "host") by (intros ->; vm_compute in Hallowed; done).
  assert (Hconn : k <> "connection")
    by (intros ->; vm_compute in Hallowed; done).
  unfold headersDelete.
  change (Js.toLowerCase "connection") with "connection".
  change (Js.toLowerCase "host") with "host".
  rewrite !lookup_delete_ne by done.
  destruct (headersHas "user-agent" h2) eqn:Hua; [done |].
  unfold headersSet. change (Js.toLowerCase "User-Agent") with "user-agent".
  rewrite lookup_insert_ne; [done |].
  intros <-. unfold headersHas in Hua.
  change (Js.toLowerCase "user-agent") with "user-agent" in Hua.
  rewrite H2 in Hua. by rewrite bool_decide_eq_true_2 in Hua.
Qed.

(** The parts of the upstream call the body preparation leaves alone. *)
Lemma upstreamCall_shape (ENV : Env) (req : Background.NodeRequest)
    (proxy : ProxyConfig) (segs : list string) :
  let call := Background.upstreamCall ENV req proxy segs in
  Background.callUrl call
    = buildUpstreamURL (host proxy) (basePath proxy) (sanitizePath segs)
        (Background.nodeSearch req) /\
  Background.callMethod call = Background.nodeMethod req /\
  Background.callTimeout call = orZ (timeout proxy) (BACKGROUND_TIMEOUT ENV) /\
  forall k, k <> "content-type" ->
    Background.callHeaders call !! k
    = Background.forwardedHeaders req proxy !! k.
Proof.
  cbv zeta. unfold Background.upstreamCall. cbv zeta.
  destruct (bool_decide (Background.nodeMethod req ∈ ["GET"; "HEAD"]));
    [done |].
  destruct (Background.typeIncludes _ "application/json"); [done |].
  destruct (Background.typeIncludes _ "text/"); [done |].
  destruct (Background.typeIncludes _ "multipart/form-data"); [done |].
  destruct (Js.truthy _); [done |].
  cbn. repeat split. intros k Hk. by rewrite lookup_insert_ne.
Qed.

(** X28. The service configuration stays inside the gateway: a header of
    the upstream call whose name starts with [x-service] can only be one of
    the default headers of the profile, never a header of the request. The
    request id and the client address the edge handler wrote into
    [x-request-id] and [x-original-ip] are sent on to the upstream. *)
Theorem background_call_headers
    (ENV : Env) (parseConfig : string -> Background.ParsedConfig)
    (answer : JsError + Background.UpstreamAnswer)
    (duration randomUUID : string) (req : Background.NodeRequest)
    (call : Background.UpstreamCall) :
  (Background.handler ENV parseConfig answer duration randomUUID req).1
    = Some call ->
  lowercaseNames (Background.nodeHeaders req) ->
  (forall k v,
     Background.callHeaders call !! k = Some v ->
     Js.startsWith k "x-service" = true ->
     exists config d name,
       Background.parseServiceConfig parseConfig (Background.nodeHeaders req)
         = Some (inr config) /\
       defaultHeaders (Background.proxyConfig config) = Some d /\
       (name, v) ∈ d /\ Js.toLowerCase name = k) /\
  (forall k v,
     k ∈ ["x-request-id"; "x-original-ip"] ->
     Background.nodeHeaders req !! k = Some v ->
     Background.callHeaders call !! k = Some v).
Proof.
  intros Hcall Hlow.
  destruct (background_call_made ENV parseConfig answer duration randomUUID
              req) as (config & service & seg & segs & Hconfig & _ & Hcall'
                       & _);
    [by rewrite Hcall |].
  rewrite Hcall' in Hcall. injection Hcall as <-.
  destruct (upstreamCall_shape ENV req (Background.proxyConfig config)
              (seg :: segs)) as (_ & _ & _ & Hheaders).
  cbv zeta in Hheaders.
  set (clientHeaders :=
         headersSetAll (fun key => negb (Js.startsWith key "x-service"))
           (map_to_list (Background.nodeHeaders req)) ∅).
  assert (Hforwarded : forall k,
            k <> "__proto__" ->
            Background.forwardedHeaders req (Background.proxyConfig config)
              !! k
            = buildForwardHeaders clientHeaders
                (Background.proxyConfig config) !! k).
  { intros k Hk. unfold Background.forwardedHeaders,
      Background.headersToObject. cbv zeta.
    by rewrite lookup_delete_ne. }
  split.
  - intros k v Hk Hservice.
    assert (Hct : k <> "content-type") by (intros ->; done).
    assert (Hproto : k <> "__proto__") by (intros ->; done).
    rewrite Hheaders, Hforwarded in Hk by done.
    apply buildForwardHeaders_origin in Hk
      as [(d & name & Hd & Hin & Hname) | [[-> _] | Hclient]].
    + by exists config, d, name.
    + done.
    + exfalso. destruct Hclient as (name & Hclient & Hname & _).
      apply headersSetAll_lookup in Hclient as [Hclient | Hclient].
      { by rewrite lookup_empty in Hclient. }
      destruct Hclient as (name' & Hin & Hkeep & Hname').
      apply elem_of_map_to_list in Hin.
      assert (Hlower : Js.toLowerCase name' = name')
        by (apply Hlow; by exists v).
      rewrite Hlower in Hname'. subst name'.
      assert (Hlower' : Js.toLowerCase name = name)
        by (apply Hlow; by exists v).
      rewrite Hlower' in Hname. subst name.
      by rewrite Hservice in Hkeep.
  - intros k v Hk Hreq.
    assert (Hfacts : k <> "content-type" /\ k <> "__proto__" /\
                     Js.startsWith k "x-service" = false /\
                     isAllowedHeader k = true).
    { apply elem_of_cons in Hk as [-> | Hk]; [by vm_compute |].
      apply elem_of_cons in Hk as [-> | Hk]; [by vm_compute |].
      by apply elem_of_nil in Hk. }
    destruct Hfacts as (Hct & Hproto & Hservice & Hallowed).
    rewrite Hheaders, Hforwarded by done.
    apply forward_headers_keep; [apply headersSetAll_lowercase | | done].
    assert (Hlower : Js.toLowerCase k = k) by (apply Hlow; by exists v).
    rewrite <- Hlower. apply headersSetAll_sets.
    + by apply lowercase_entries.
    + by apply elem_of_map_to_list.
    + by rewrite Hservice.
Qed.

Lemma background_call_headers_witness :
  exists call,
    (Background.handler defaultEnv sampleParseConfig jsonAnswer "12" "uuid-1"
       forwardedEmbeddings).1 = Some call /\
    Background.callHeaders call !! "x-service-config" = None /\
    Background.callHeaders call !! "x-original-ip" = Some "203.0.113.7".
Proof.
  eexists. split; [reflexivity |].
  assert (Hlow : lowercaseNames
                   (Background.nodeHeaders forwardedEmbeddings)).
  { intros k [v Hk]. unfold forwardedEmbeddings in Hk.
    cbn [Background.nodeHeaders] in Hk. rewrite !list_to_map_cons in Hk.
    repeat (apply lookup_insert_Some in Hk as [[<- _] | [_ Hk]];
            [reflexivity |]).
    done. }
  destruct (background_call_headers defaultEnv sampleParseConfig jsonAnswer
              "12" "uuid-1" forwardedEmbeddings _ eq_refl Hlow)
    as [Hservice Hsent].
  split.
  - destruct (Background.callHeaders _ !! "x-service-config") as [v |] eqn:Hv;
      [| done].
    destruct (Hservice _ _ Hv eq_refl) as (config & d & name & Hc & Hd & _).
    vm_compute in Hc. injection Hc as <-. vm_compute in Hd. done.
  - apply Hsent; [| reflexivity]. apply (bool_decide_unpack _). by vm_compute.
Defined.

(** X29. The long path calls the URL the fallback would call. When the
    Background function receives the request the edge handler forwards
    (path [/api/background] followed by the path of the request without its
    first [/gateway], same query, the service configuration in
    [x-service-config]) and that path has a service segment and one more,
    it calls the upstream once, at the URL built from the profile and the
    user path of the fallback, with the method it received; the delay of
    its abort timer is the [timeout] of the profile, or
    [BACKGROUND_TIMEOUT] when the profile has none or [0]: it is not
    capped. *)
Theorem background_calls_the_fallback_url
    (ENV : Env) (parseConfig : string -> Background.ParsedConfig)
    (answer : JsError + Background.UpstreamAnswer)
    (duration randomUUID : string)
    (req : Request) (received : Background.NodeRequest)
    (configHeader alias : string) (proxy : ProxyConfig) :
  Background.nodePathname received
    = "/api/background" ++ removeFirst "/gateway" (pathname req) ->
  Background.nodeSearch received = search req ->
  Background.nodeHeaders received !! "x-service-config" = Some configHeader ->
  Js.truthy configHeader = true ->
  parseConfig configHeader
    = Background.ConfigParsed
        {| Background.serviceAlias := alias;
           Background.proxyConfig := proxy |} ->
  (2 <= List.length (pathSegments (removeFirst "/gateway" (pathname req))))%nat ->
  exists call,
    (Background.handler ENV parseConfig answer duration randomUUID
       received).1 = Some call /\
    Background.callUrl call
      = buildUpstreamURL (host proxy) (basePath proxy) (fallbackUserPath req)
          (search req) /\
    Background.callMethod call = Background.nodeMethod received /\
    Background.callTimeout call
      = orZ (timeout proxy) (BACKGROUND_TIMEOUT ENV).
Proof.
  intros Hpath Hsearch Hheader Htruthy Hparse Hlen.
  assert (Hconfig : Background.parseServiceConfig parseConfig
                      (Background.nodeHeaders received)
                    = Some (inr {| Background.serviceAlias := alias;
                                   Background.proxyConfig := proxy |}))
    by (apply parseServiceConfig_Some; by exists configHeader).
  destruct (background_handler_cases ENV parseConfig answer duration
              randomUUID received)
    as [[Hnone _]
       | [(_ & Hshort & _)
         | [(typeError & Hbad & _)
           | (config & service & seg & segs & Hconfig' & Hsegs & Hcall
              & _)]]];
    cbv zeta in *.
  { congruence. }
  { rewrite Hpath, removeFirst_prefix in Hshort. lia. }
  { congruence. }
  rewrite Hconfig in Hconfig'. injection Hconfig' as <-.
  cbn [Background.proxyConfig] in Hcall.
  rewrite Hpath, removeFirst_prefix in Hsegs.
  eexists. split; [exact Hcall |].
  destruct (upstreamCall_shape ENV received proxy (seg :: segs))
    as (Hurl & Hmethod & Htimeout & _).
  cbv zeta in Hurl, Hmethod, Htimeout.
  split; [| done].
  rewrite Hurl, Hsearch. unfold fallbackUserPath. by rewrite Hsegs.
Qed.

Lemma background_calls_the_fallback_url_witness :
  exists call,
    (Background.handler defaultEnv sampleParseConfig jsonAnswer "12" "uuid-1"
       forwardedEmbeddings).1 = Some call /\
    Background.callUrl call = "https://api.openai.com/v1/embeddings" /\
    Background.callMethod call = "POST" /\
    Background.callTimeout call = 120000.
Proof.
  apply (background_calls_the_fallback_url defaultEnv sampleParseConfig
           jsonAnswer "12" "uuid-1" embeddingsRequest forwardedEmbeddings
           "openai" "openai" openaiProxy).
  - reflexivity.
  - reflexivity.
  - reflexivity.
  - reflexivity.
  - reflexivity.
  - vm_compute. lia.
Defined.

Section BackgroundAnswers.
Variable ENV : Env.
Variable duration : string.

(** The headers of both paths, read by name. *)
Lemma trackingHeaders_lookup (reqId : string) :
  let h := Background.trackingHeaders ENV duration reqId in
  headersGet "X-Request-Id" h = Some reqId /\
  headersGet "X-Processing-Time" h = Some duration /\
  headersGet "X-Processing-Mode" h = Some "background" /\
  headersGet "Access-Control-Allow-Origin" h = Some (ALLOWED_ORIGIN ENV) /\
  headersGet "Cache-Control" h = None /\
  forall k, k ∈ Background.EXCLUDE_HEADERS -> h !! k = None.
Proof.
  cbv zeta. unfold Background.trackingHeaders.
  repeat split; try (rewrite !headersGet_set; reflexivity).
  intros k Hk. unfold headersSet.
  repeat (apply elem_of_cons in Hk as [-> | Hk]; [reflexivity |]).
  by apply elem_of_nil in Hk.
Qed.

(** The names of the result of [executeUpstreamRequest] are in lower case
    when those of the upstream response are. *)
Lemma result_headers (answer : JsError + Background.UpstreamAnswer)
    response result :
  answer = inr response ->
  Background.executeUpstreamRequest answer = inr result ->
  Background.resultStatus result = Background.answerStatus response /\
  (lowercaseNames (Background.answerHeaders response) ->
   lowercaseNames (Background.resultHeaders result)) /\
  (forall k, k <> "__proto__" -> k <> "x-binary-response" ->
     Background.resultHeaders result !! k
     = Background.answerHeaders response !! k).
Proof.
  intros -> Hresult. unfold Background.executeUpstreamRequest in Hresult.
  cbv zeta in Hresult.
  destruct (Background.answerData response) as [error | data]; [done |].
  injection Hresult as <-. cbn [Background.resultStatus
                                Background.resultHeaders].
  split; [done |].
  assert (Hobject : forall k v,
            Background.headersToObject (Background.answerHeaders response)
              !! k = Some v ->
            Background.answerHeaders response !! k = Some v).
  { intros k v Hk. unfold Background.headersToObject in Hk.
    by apply lookup_delete_Some in Hk as [_ Hk]. }
  split.
  - intros Hlow k [v Hk].
    destruct (_ && _ && _).
    + apply lookup_insert_Some in Hk as [[<- _] | [_ Hk]]; [reflexivity |].
      apply Hlow. exists v. by apply Hobject.
    + apply Hlow. exists v. by apply Hobject.
  - intros k Hproto Hbinary. unfold Background.headersToObject.
    destruct (_ && _ && _).
    + by rewrite lookup_insert_ne, lookup_delete_ne.
    + by rewrite lookup_delete_ne.
Qed.

End BackgroundAnswers.

(** X30. The answers of the Background function after an upstream call.
    When the call or the reading of the body fails, the status and the
    error document are those of the class of the error, and the tracking
    and CORS headers are set (no [Cache-Control]). When it succeeds, the
    status is the upstream's; [content-encoding], [transfer-encoding],
    [connection], [keep-alive] and [server] are not set; every other
    upstream header is set last and so replaces a header of the gateway of
    the same name: the response carries the request id of the gateway only
    when the upstream sends no [x-request-id] of its own. *)
Theorem background_response_policy
    (ENV : Env) (parseConfig : string -> Background.ParsedConfig)
    (answer : JsError + Background.UpstreamAnswer)
    (duration randomUUID : string) (req : Background.NodeRequest) :
  let out :=
    Background.handler ENV parseConfig answer duration randomUUID req in
  let reqId :=
    orString (Background.nodeHeaders req !! "x-request-id") randomUUID in
  is_Some out.1 ->
  (forall error,
     answer = inl error \/
     (exists response, answer = inr response /\
                       Background.answerData response = inl error) ->
     Background.sentStatus out.2 = errStatus (categorizeError error) /\
     Background.sentBody out.2
       = Background.ErrorDocument (errMessage (categorizeError error))
           (Some (errType (categorizeError error))) reqId /\
     headersGet "X-Request-Id" (Background.sentHeaders out.2) = Some reqId /\
     headersGet "X-Processing-Mode" (Background.sentHeaders out.2)
       = Some "background" /\
     headersGet "Access-Control-Allow-Origin" (Background.sentHeaders out.2)
       = Some (ALLOWED_ORIGIN ENV) /\
     headersGet "Cache-Control" (Background.sentHeaders out.2) = None) /\
  (forall response data,
     answer = inr response ->
     Background.answerData response = inr data ->
     Background.sentStatus out.2 = Background.answerStatus response /\
     (forall k, k ∈ Background.EXCLUDE_HEADERS ->
                Background.sentHeaders out.2 !! k = None) /\
     (lowercaseNames (Background.answerHeaders response) ->
      (forall k v,
         Background.answerHeaders response !! k = Some v ->
         k ∉ Background.EXCLUDE_HEADERS ->
         k <> "__proto__" -> k <> "x-binary-response" ->
         Background.sentHeaders out.2 !! k = Some v) /\
      (Background.answerHeaders response !! "x-request-id" = None ->
       headersGet "X-Request-Id" (Background.sentHeaders out.2)
         = Some reqId))).
Proof.
  cbv zeta. intros Hcalled.
  destruct (background_call_made ENV parseConfig answer duration randomUUID
              req Hcalled) as (config & service & seg & segs & _ & _ & _
                               & Hresp).
  cbv zeta in Hresp. rewrite Hresp. clear Hresp Hcalled.
  set (reqId := orString (Background.nodeHeaders req !! "x-request-id")
                  randomUUID).
  destruct (trackingHeaders_lookup ENV duration reqId)
    as (Hid & _ & Hmode & Horigin & Hcache & Hexcluded).
  cbv zeta in Hid, Hmode, Horigin, Hcache, Hexcluded.
  split.
  - intros error Hfails.
    assert (Hexec : Background.executeUpstreamRequest answer = inl error).
    { unfold Background.executeUpstreamRequest.
      destruct Hfails as [-> | (response & -> & Hdata)]; [done |].
      cbv zeta. by rewrite Hdata. }
    rewrite Hexec. unfold Background.failureResponse. cbv zeta.
    cbn [Background.sentStatus Background.sentBody Background.sentHeaders].
    done.
  - intros response data Hanswer Hdata.
    assert (Hexec : exists result,
              Background.executeUpstreamRequest answer = inr result).
    { unfold Background.executeUpstreamRequest. rewrite Hanswer. cbv zeta.
      rewrite Hdata. by eexists. }
    destruct Hexec as [result Hexec]. rewrite Hexec.
    destruct (result_headers answer response result Hanswer Hexec)
      as (Hstatus & Hlower & Hsame).
    unfold Background.relayResult. cbv zeta.
    cbn [Background.sentStatus Background.sentHeaders].
    set (h0 := headersSet "Cache-Control"
                 "no-cache, no-store, must-revalidate"
                 (Background.trackingHeaders ENV duration reqId)).
    set (keep := fun key =>
                   negb (bool_decide
                           (Js.toLowerCase key ∈ Background.EXCLUDE_HEADERS))).
    split; [done |]. split.
    + intros k Hk.
      destruct (headersSetAll keep
                  (map_to_list (Background.resultHeaders result)) h0 !! k)
        as [v |] eqn:Hv; [| done].
      exfalso. apply headersSetAll_lookup in Hv as [Hv | Hv].
      * unfold h0, headersSet in Hv.
        change (Js.toLowerCase "Cache-Control") with "cache-control" in Hv.
        rewrite lookup_insert_ne in Hv.
        -- by rewrite Hexcluded in Hv.
        -- intros <-. vm_compute in Hk.
           repeat (apply elem_of_cons in Hk as [[=] | Hk]).
           by apply elem_of_nil in Hk.
      * destruct Hv as (name & _ & Hkeep & <-). unfold keep in Hkeep.
        by rewrite bool_decide_eq_true_2 in Hkeep.
    + intros Hlow. specialize (Hlower Hlow). split.
      * intros k v Hk Hnot Hproto Hbinary.
        assert (Hk' : Js.toLowerCase k = k) by (apply Hlow; by exists v).
        rewrite <- Hk'. apply headersSetAll_sets.
        -- by apply lowercase_entries.
        -- apply elem_of_map_to_list. by rewrite Hsame.
        -- unfold keep. rewrite Hk'. by rewrite bool_decide_eq_false_2.
      * intros Hnone. unfold headersGet.
        change (Js.toLowerCase "X-Request-Id") with "x-request-id".
        rewrite headersSetAll_other.
        -- unfold h0, headersSet.
           change (Js.toLowerCase "Cache-Control") with "cache-control".
           by rewrite lookup_insert_ne.
        -- apply Forall_forall. intros [name value] Hin. left. cbn [fst].
           apply elem_of_map_to_list in Hin.
           assert (Hname : Js.toLowerCase name = name)
             by (apply Hlower; by exists value).
           rewrite Hname. intros ->.
           rewrite Hsame in Hin by done. congruence.
Qed.

Lemma background_response_policy_witness :
  let out :=
    Background.handler defaultEnv sampleParseConfig jsonAnswer "12" "uuid-1"
      forwardedEmbeddings in
  Background.sentStatus out.2 = 200 /\
  Background.sentHeaders out.2 !! "server" = None /\
  Background.sentHeaders out.2 !! "x-request-id" = Some "upstream-7".
Proof.
  cbv zeta.
  destruct (background_response_policy defaultEnv sampleParseConfig
              jsonAnswer "12" "uuid-1" forwardedEmbeddings)
    as [_ Hok]; [by eexists |].
  destruct (Hok _ _ eq_refl eq_refl) as (Hstatus & Hexcluded & Hcopied).
  split; [exact Hstatus |]. split.
  - apply Hexcluded. apply (bool_decide_unpack _). by vm_compute.
  - apply Hcopied.
    + intros k [v Hk]. cbn [Background.answerHeaders] in Hk.
      rewrite !list_to_map_cons in Hk.
      repeat (apply lookup_insert_Some in Hk as [[<- _] | [_ Hk]];
              [reflexivity |]).
      done.
    + reflexivity.
    + intros Hin. vm_compute in Hin.
      repeat (apply elem_of_cons in Hin as [[=] | Hin]).
      by apply elem_of_nil in Hin.
    + done.
    + done.
Defined.
